(** * GraphQL Yoga: request lifecycle, CORS calculator and health prober

    A shallow embedding of [packages/common/src/server.ts],
    [plugins/useCORS.ts], [plugins/useHealthCheck.ts] and
    [plugins/useGraphiQL.ts], with the properties of the design document
    stated and settled against it. *)

From Stdlib Require Import ZArith Ascii DecimalString.
From stdpp Require Import base option list strings gmap fin_maps.

Local Open Scope Z_scope.
#[local] Set Warnings "-register-all".

(** ** JavaScript strings

    The [String.prototype] methods the sources call, on Rocq strings, which
    are strings of bytes: case conversion is that of the ASCII letters, as
    in method names and header names. *)

Module JSString.

Definition upper_char (c : ascii) : ascii :=
  let n := N_of_ascii c in
  if ((97 <=? n) && (n <=? 122))%N then ascii_of_N (n - 32) else c.

Definition lower_char (c : ascii) : ascii :=
  let n := N_of_ascii c in
  if ((65 <=? n) && (n <=? 90))%N then ascii_of_N (n + 32) else c.

Fixpoint map_chars (f : ascii → ascii) (s : string) : string :=
  match s with
  | EmptyString => EmptyString
  | String a s' => String (f a) (map_chars f s')
  end.

(** [s.toUpperCase()] and [s.toLowerCase()] *)
Definition toUpperCase : string → string := map_chars upper_char.
Definition toLowerCase : string → string := map_chars lower_char.

(** [s.startsWith(p)] *)
Fixpoint startsWith (s p : string) : bool :=
  match p, s with
  | EmptyString, _ => true
  | String _ _, EmptyString => false
  | String a p', String b s' => if Ascii.eqb a b then startsWith s' p' else false
  end.

(** [s.endsWith(p)]: [p] read backwards starts [s] read backwards. *)
Definition endsWith (s p : string) : bool :=
  startsWith (String.rev s) (String.rev p).

(** [s.includes(p)] *)
Fixpoint includes (s p : string) : bool :=
  startsWith s p ||
  match s with
  | EmptyString => false
  | String _ s' => includes s' p
  end.

Fixpoint drop (n : nat) (s : string) : string :=
  match n, s with
  | O, _ => s
  | S _, EmptyString => EmptyString
  | S n', String _ s' => drop n' s'
  end.

(** [s.replace(pat, rep)] with a string pattern: the first occurrence only. *)
Fixpoint replace (s pat rep : string) : string :=
  if startsWith s pat then rep +:+ drop (String.length pat) s
  else match s with
       | EmptyString => EmptyString
       | String a s' => String a (replace s' pat rep)
       end.

(** [s.split(c)[0]]: what precedes the first [c], all of [s] without one. *)
Fixpoint split_head (c : ascii) (s : string) : string :=
  match s with
  | EmptyString => EmptyString
  | String a s' => if Ascii.eqb a c then EmptyString else String a (split_head c s')
  end.

(** [xs.join(sep)] *)
Fixpoint join (sep : string) (xs : list string) : string :=
  match xs with
  | [] => ""
  | [x] => x
  | x :: rest => x +:+ sep +:+ join sep rest
  end.

(** A string is truthy when it is not empty. *)
Definition truthy (s : string) : bool :=
  match s with EmptyString => false | _ => true end.

(** [n.toString()] for a safe integer, [- 2^53 < n < 2^53], which JS
    prints with all its decimal digits; larger numbers lose digits or are
    printed with an exponent, and are outside this function's domain. *)
Definition of_Z (n : Z) : string := NilZero.string_of_int (Z.to_int n).

End JSString.

(** ** The WHATWG [Headers] class

    Header names are case-insensitive: a [Headers] object is a map keyed by
    lower-cased names, [get] answers [None] where JavaScript answers
    [null]. A plain header record ([Record<string, string>], an object
    literal) is a [gmap string string] with the keys as written. *)

Abbreviation Headers := (gmap string string).
Abbreviation HeaderRecord := (gmap string string).

Definition Headers_get (name : string) (h : Headers) : option string :=
  h !! JSString.toLowerCase name.

Definition Headers_set (name value : string) (h : Headers) : Headers :=
  <[JSString.toLowerCase name := value]> h.

(** [new Headers(init)] for a record [init] *)
Definition Headers_new (init : HeaderRecord) : Headers :=
  map_fold (λ name value h, Headers_set name value h) ∅ init.

(** ** Requests *)

Record Request := mkRequest {
  req_method : string;
  req_url : string;
  req_headers : Headers;
}.

(** [request.headers.get(name)] *)
Definition request_header (name : string) (r : Request) : option string :=
  Headers_get name (req_headers r).

(** Truthiness of a [string | null]. *)
Definition truthy_opt (o : option string) : bool :=
  match o with
  | Some s => JSString.truthy s
  | None => false
  end.

(** ** CORS header calculator ([plugins/useCORS.ts]) *)

(** [origin?: string[] | string] *)
Inductive OriginOption :=
  | OriginList (l : list string)
  | OriginString (s : string).

Record CORSOptionsObject := mkCORSOptions {
  origin : option OriginOption;
  methods : option (list string);
  allowedHeaders : option (list string);
  exposedHeaders : option (list string);
  credentials : option bool;
  maxAge : option Z;
}.

(** [CORSOptions = { ... } | false]; reading a property of [false] gives
    [undefined]. *)
Inductive CORSOptions :=
  | CORSFalse
  | CORSObject (o : CORSOptionsObject).

Definition cors_field {A} (f : CORSOptionsObject → option A) (c : CORSOptions) : option A :=
  match c with
  | CORSFalse => None
  | CORSObject o => f o
  end.

(** [origin.length], truthy when not zero *)
Definition origin_length (o : OriginOption) : nat :=
  match o with
  | OriginList l => length l
  | OriginString s => String.length s
  end.

(** [origin.includes(x)]: membership for an array, substring for a string *)
Definition origin_includes (o : OriginOption) (x : string) : bool :=
  match o with
  | OriginList l => bool_decide (x ∈ l)
  | OriginString s => JSString.includes s x
  end.

(** [xs?.length] is truthy *)
Definition nonempty_list (o : option (list string)) : bool :=
  match o with
  | Some (_ :: _) => true
  | _ => false
  end.

Definition ACAO : string := "Access-Control-Allow-Origin".

Definition getCORSResponseHeaders (request : Request) (corsOptions : CORSOptions)
    : HeaderRecord :=
  let headers : HeaderRecord := ∅ in
  let currentOrigin := request_header "origin" request in
  let headers := <[ACAO := "*"]> headers in
  let headers :=
    if truthy_opt currentOrigin then
      let credentialsAsked := request_header "cookies" request in
      if truthy_opt credentialsAsked
      then <[ACAO := default "" currentOrigin]> headers
      else headers
    else headers in
  let headers :=
    match currentOrigin, cors_field origin corsOptions with
    | Some cur, Some o =>
        if negb (Nat.eqb (origin_length o) 0)
           && negb (origin_includes o cur)
           && negb (origin_includes o "*")
        then <[ACAO := "null"]> headers
        else headers
    | _, _ => headers
    end in
  let headers :=
    if bool_decide (headers !! ACAO ≠ Some "*")
    then <["Vary" := "Origin"]> headers
    else headers in
  let headers :=
    if nonempty_list (cors_field methods corsOptions)
    then <["Access-Control-Allow-Methods" :=
             JSString.join ", " (default [] (cors_field methods corsOptions))]> headers
    else
      let requestMethod := request_header "access-control-request-method" request in
      if truthy_opt requestMethod
      then <["Access-Control-Allow-Methods" := default "" requestMethod]> headers
      else headers in
  let headers :=
    if nonempty_list (cors_field allowedHeaders corsOptions)
    then <["Access-Control-Allow-Headers" :=
             JSString.join ", " (default [] (cors_field allowedHeaders corsOptions))]> headers
    else
      let requestHeaders := request_header "access-control-request-headers" request in
      if truthy_opt requestHeaders
      then
        let headers :=
          <["Access-Control-Allow-Headers" := default "" requestHeaders]> headers in
        let headers :=
          if truthy_opt (headers !! "Vary")
          then <["Vary" := default "" (headers !! "Vary")
                            +:+ ", Access-Control-Request-Headers"]> headers
          else headers in
        <["Vary" := "Access-Control-Request-Headers"]> headers
      else headers in
  let headers :=
    match cors_field credentials corsOptions with
    | Some c =>
        if c then <["Access-Control-Allow-Credentials" := "true"]> headers
        else headers
    | None =>
        if bool_decide (headers !! ACAO ≠ Some "*")
        then <["Access-Control-Allow-Credentials" := "true"]> headers
        else headers
    end in
  let headers :=
    match cors_field exposedHeaders corsOptions with
    | Some xs => <["Access-Control-Expose-Headers" := JSString.join ", " xs]> headers
    | None => headers
    end in
  let headers :=
    match cors_field maxAge corsOptions with
    | Some n =>
        if negb (n =? 0)
        then <["Access-Control-Max-Age" := JSString.of_Z n]> headers
        else headers
    | None => headers
    end in
  <["Server" := "GraphQL Yoga"]> headers.

(** ** JavaScript values

    What hooks throw, what the context carries and what [JSON.parse]
    returns. Nested objects keep their properties in insertion order. *)

Inductive Proto := ObjectProto | ErrorProto | GraphQLErrorProto.

Inductive JSValue :=
  | JUndefined
  | JNull
  | JBool (b : bool)
  | JNumber (n : Z)
  | JString (s : string)
  | JArray (xs : list JSValue)
  | JObject (proto : Proto) (props : list (string * JSValue))
  | JRequest (r : Request).

(** A JavaScript object used as a record of named values. *)
Abbreviation JSRecord := (gmap string JSValue).

(** How an evaluation completes: with a value, or by throwing (for an
    awaited promise: resolved, or rejected). *)
Inductive Outcome (A : Type) :=
  | Normal (a : A)
  | Thrown (e : JSValue).
Arguments Normal {A} a.
Arguments Thrown {A} e.

Definition new_Error (message : string) : JSValue :=
  JObject ErrorProto [("message", JString message)].

Definition new_TypeError (message : string) : JSValue :=
  JObject ErrorProto [("name", JString "TypeError"); ("message", JString message)].

Fixpoint own_property (name : string) (props : list (string * JSValue)) : JSValue :=
  match props with
  | [] => JUndefined
  | (k, v) :: rest => if bool_decide (k = name) then v else own_property name rest
  end.

(** [v.name] for a property that no built-in prototype defines: reading
    from [undefined] or [null] throws, a primitive has no such property. *)
Definition get_property (name : string) (v : JSValue) : Outcome JSValue :=
  match v with
  | JUndefined | JNull =>
      Thrown (new_TypeError ("Cannot read properties of undefined (reading '"
                             +:+ name +:+ "')"))
  | JObject _ props => Normal (own_property name props)
  | _ => Normal JUndefined
  end.

(** [v instanceof GraphQLError] *)
Definition instanceof_GraphQLError (v : JSValue) : bool :=
  match v with
  | JObject GraphQLErrorProto _ => true
  | _ => false
  end.

(** [v === s] for a string [s] *)
Definition strict_equals_string (v : JSValue) (s : string) : bool :=
  match v with
  | JString s' => bool_decide (s' = s)
  | _ => false
  end.

(** ** Responses *)

(** [BodyInit | null], as far as the sources build one *)
Inductive BodyInit :=
  | BodyNull
  | BodyString (s : string).

Record ResponseInit := mkResponseInit {
  init_status : option Z;
  init_statusText : option string;
  init_headers : option HeaderRecord;
}.

Record Response := mkResponse {
  status : Z;
  statusText : string;
  headers : Headers;
  body : BodyInit;
}.

(** [new Response(body, init)], the constructor of the injected fetch API:
    the fields as [init] gives them, status 200 and no headers without it.
    What the platform adds or refuses (a default content type for a string
    body, a status out of range) is not part of these sources: [headers]
    holds the headers these sources set, not all those the platform sends. *)
Definition Response_new (body : BodyInit) (init : option ResponseInit) : Response :=
  {| status := default 200 (init ≫= init_status);
     statusText := default "" (init ≫= init_statusText);
     headers := Headers_new (default ∅ (init ≫= init_headers));
     body := body |}.

Definition Response_text (r : Response) : string :=
  match body r with
  | BodyNull => ""
  | BodyString s => s
  end.

(** The injected [fetch], as the prober uses it: a GET of a URL that resolves
    to a response or rejects. *)
Definition FetchFn := string → Outcome Response.

(** ** The ghost log

    What a run did, in order. The code never reads it; the temporal
    properties are stated on it. *)

Abbreviation GraphQLParams := (gmap string JSValue).
Abbreviation ServerContext := (gmap string JSValue).

Record ProcessRequestArgs (Enveloped : Type) := mkProcessRequestArgs {
  pr_request : Request;
  pr_query : option JSValue;
  pr_variables : option JSValue;
  pr_operationName : option JSValue;
  pr_enveloped : Enveloped;
}.
Arguments mkProcessRequestArgs {Enveloped}.
Arguments pr_request {Enveloped}.
Arguments pr_query {Enveloped}.
Arguments pr_variables {Enveloped}.
Arguments pr_operationName {Enveloped}.
Arguments pr_enveloped {Enveloped}.

Inductive Event :=
  | EvOnRequest (i : nat)
      (* the i-th onRequest hook is invoked *)
  | EvOnRequestDone (i : nat) (response : Response)
      (* the completion hook returned by the i-th onRequest hook is invoked *)
  | EvOnRequestParse (i : nat)
      (* the i-th onRequestParse hook is invoked *)
  | EvParse (installer : option nat) (result : Outcome GraphQLParams)
      (* the active parser is invoked and completes with result: the parser
         the installer-th onRequestParse hook set, or the initial one *)
  | EvOnRequestParseDone (i : nat) (params : GraphQLParams)
  | EvGetEnveloped (initialContext : JSRecord)
  | EvProcessRequest (query variables operationName : option JSValue)
  | EvFetch (url : string)
  | EvDebug (msg : string).

(** ** Tasks

    Hooks are asynchronous functions supplied by plugins. A task is what
    such a function does, as far as the lifecycle can tell: it calls the
    capabilities of its payload ([C]), awaits the injected [fetch], writes
    to the logger, and returns or throws. A hook calls the capabilities of
    the payload it was given, and before it settles. *)

Inductive Task (C A : Type) : Type :=
  | Ret (a : A)
  | Throw (e : JSValue)
  | Call (c : C) (k : Task C A)
  | Fetch (f : FetchFn) (url : string) (k : Outcome Response → Task C A)
  | Debug (msg : string) (k : Task C A).
Arguments Ret {C A} a.
Arguments Throw {C A} e.
Arguments Call {C A} c k.
Arguments Fetch {C A} f url k.
Arguments Debug {C A} msg k.

Fixpoint Task_bind {C A B} (f : A → Task C B) (t : Task C A) : Task C B :=
  match t with
  | Ret a => f a
  | Throw e => Throw e
  | Call c k => Call c (Task_bind f k)
  | Fetch g url k => Fetch g url (λ o, Task_bind f (k o))
  | Debug msg k => Debug msg (Task_bind f k)
  end.

#[global] Instance Task_mret {C} : MRet (Task C) := λ A a, Ret a.
#[global] Instance Task_mbind {C} : MBind (Task C) := λ A B f t, Task_bind f t.

(** [await o]: the value of a settled promise, or its rejection thrown *)
Definition await {C A} (o : Outcome A) : Task C A :=
  match o with
  | Normal a => Ret a
  | Thrown e => Throw e
  end.

(** [await f(url)] *)
Definition await_fetch {C} (f : FetchFn) (url : string) : Task C Response :=
  Fetch f url await.

Definition logger_debug {C} (msg : string) : Task C unit :=
  Debug msg (Ret tt).

(** Running a task against the variable its capability closes over:
    [handle c s] is the variable after the call [c]. The result is the log,
    the variable as the task left it, and the completion. *)
Fixpoint run {C S A} (handle : C → S → S) (t : Task C A) (s : S)
    : list Event * S * Outcome A :=
  match t with
  | Ret a => ([], s, Normal a)
  | Throw e => ([], s, Thrown e)
  | Call c k => run handle k (handle c s)
  | Fetch f url k =>
      let '(l, s', o) := run handle (k (f url)) s in (EvFetch url :: l, s', o)
  | Debug msg k =>
      let '(l, s', o) := run handle k s in (EvDebug msg :: l, s', o)
  end.

(** ** Plugin interface ([plugins/types.ts]) *)

(** [RequestParser = (request) => PromiseOrValue<GraphQLParams>] *)
Definition RequestParser := Request → Outcome GraphQLParams.

(** The capabilities a payload hands to a hook, as the calls made of them. *)
Inductive EndResponseCall := EndResponse (body : BodyInit) (init : option ResponseInit).
Inductive SetRequestParserCall := SetRequestParser (parser : RequestParser).
Inductive SetParamsCall := SetParams (params : GraphQLParams).
(** A completion hook holds the response itself and may write its headers. *)
Inductive ResponseCall := ResponseHeadersSet (name value : string).

Record OnRequestDoneEventPayload := {
  done_response : Response;
}.

Definition OnRequestDoneHook := OnRequestDoneEventPayload → Task ResponseCall unit.

Record OnRequestHookResult := {
  onRequestDone : option OnRequestDoneHook;
}.

Record OnRequestEventPayload := {
  request : Request;
  serverContext : option ServerContext;
  endResponse : BodyInit → option ResponseInit → Task EndResponseCall unit;
}.

(** [PromiseOrValue<void | OnRequestHookResult>] *)
Definition OnRequestHook :=
  OnRequestEventPayload → Task EndResponseCall (option OnRequestHookResult).

Record OnRequestParseDoneEventPayload := {
  params : GraphQLParams;
  setParams : GraphQLParams → Task SetParamsCall unit;
}.

Definition OnRequestParseDoneHook :=
  OnRequestParseDoneEventPayload → Task SetParamsCall unit.

Record OnRequestParseHookResult := {
  onRequestParseDone : option OnRequestParseDoneHook;
}.

Record OnRequestParseEventPayload := {
  parse_serverContext : option ServerContext;
  parse_request : Request;
  requestParser : RequestParser;
  setRequestParser : RequestParser → Task SetRequestParserCall unit;
}.

Definition OnRequestParseHook :=
  OnRequestParseEventPayload → Task SetRequestParserCall (option OnRequestParseHookResult).

(** The two request hooks of a plugin; its envelop hooks belong to the
    execution engine. *)
Record Plugin := {
  onRequest : option OnRequestHook;
  onRequestParse : option OnRequestParseHook;
}.

(** A plugin of [@envelop/core]: no request hooks. *)
Definition envelopPlugin : Plugin :=
  {| onRequest := None; onRequestParse := None |}.

(** [enableIf(condition, plugin)] *)
Definition enableIf (condition : bool) (plugin : Plugin) : option Plugin :=
  if condition then Some plugin else None.

(** ** The CORS plugin ([plugins/useCORS.ts]) *)

Definition CORSOptionsFactory := Request → option ServerContext → CORSOptions.

Inductive CORSPluginOptions :=
  | CORSPluginFactory (f : CORSOptionsFactory)
  | CORSPluginObject (o : CORSOptionsObject)
  | CORSPluginBool (b : bool).

(** [for (const headerName in headers) response.headers.set(...)]; the
    header names of a record are distinct, the order of the writes does
    not show. *)
Fixpoint stamp_headers (entries : list (string * string)) : Task ResponseCall unit :=
  match entries with
  | [] => Ret tt
  | (headerName, value) :: rest =>
      Call (ResponseHeadersSet headerName value) (stamp_headers rest)
  end.

(** The [corsOptionsFactory] the plugin settles on: the options when they
    are a function, a copy of them when they are an object, [() => ({})]
    otherwise. *)
Definition corsOptionsFactory_of (options : option CORSPluginOptions) : CORSOptionsFactory :=
  match options with
  | Some (CORSPluginFactory f) => f
  | Some (CORSPluginObject o) => λ _ _, CORSObject o
  | Some (CORSPluginBool _) | None =>
      λ _ _, CORSObject (mkCORSOptions None None None None None None)
  end.

(** The [onRequestDone] hook of the plugin. *)
Definition CORS_onRequestDone (corsOptionsFactory : CORSOptionsFactory)
    (request : Request) (serverContext : option ServerContext) : OnRequestDoneHook :=
  λ _,
    let headers :=
      getCORSResponseHeaders request (corsOptionsFactory request serverContext) in
    stamp_headers (map_to_list headers).

Definition useCORS (options : option CORSPluginOptions) : Plugin :=
  let corsOptionsFactory := corsOptionsFactory_of options in
  {| onRequest := Some (λ payload,
       let request := request payload in
       let serverContext := serverContext payload in
       if bool_decide (JSString.toUpperCase (req_method request) = "OPTIONS") then
         let headers :=
           getCORSResponseHeaders request (corsOptionsFactory request serverContext) in
         endResponse payload BodyNull
           (Some (mkResponseInit (Some 204) None (Some headers))) ;;
         Ret None
       else
         Ret (Some {| onRequestDone :=
           Some (CORS_onRequestDone corsOptionsFactory request serverContext) |}));
     onRequestParse := None |}.

(** ** The health-check plugin ([plugins/useHealthCheck.ts]) *)

Record HealthCheckPluginOptions := {
  hc_id : option string;
  hc_fetch : option FetchFn;
}.

(** The body literal [{ "message": "<msg>" }] of both endpoints. *)
Definition message_body (msg : string) : string :=
  let q := String (ascii_of_nat 34) "" in
  "{ " +:+ q +:+ "message" +:+ q +:+ ": " +:+ q +:+ msg +:+ q +:+ " }".

Section HealthCheck.

(** [Date.now().toString()] when the plugin is created, [globalThis.fetch]
    and [JSON.parse]: the platform's. *)
Variable Date_now : string.
Variable globalThis_fetch : FetchFn.
Variable JSON_parse : string → Outcome JSValue.

(** [response.json()] *)
Definition Response_json (r : Response) : Outcome JSValue :=
  JSON_parse (Response_text r).

(** [options?.id || Date.now().toString()] *)
Definition healthCheck_id (options : option HealthCheckPluginOptions) : string :=
  match options ≫= hc_id with
  | Some id => if JSString.truthy id then id else Date_now
  | None => Date_now
  end.

Definition useHealthCheck (options : option HealthCheckPluginOptions) : Plugin :=
  let id := healthCheck_id options in
  let fetch := default globalThis_fetch (options ≫= hc_fetch) in
  {| onRequest := Some (λ payload,
       let request := request payload in
       let requestPath := JSString.split_head "?" (req_url request) in
       if JSString.endsWith requestPath "/health" then
         logger_debug "Responding Health Check" ;;
         endResponse payload (BodyString (message_body "alive"))
           (Some (mkResponseInit (Some 200) None
              (Some (<["x-yoga-id" := id]>
                       (<["Content-Type" := "application/json"]> ∅))))) ;;
         Ret None
       else if JSString.endsWith requestPath "/readiness" then
         logger_debug "Responding Readiness Check" ;;
         readinessResponse ←
           await_fetch fetch (JSString.replace (req_url request) "/readiness" "/health") ;
         json ← await (Response_json readinessResponse) ;
         message ← await (get_property "message" json) ;
         if bool_decide (status readinessResponse = 200)
            && bool_decide (Headers_get "x-yoga-id" (headers readinessResponse) = Some id)
            && strict_equals_string message "alive"
         then
           endResponse payload (BodyString (message_body "ready"))
             (Some (mkResponseInit (Some 200) None
                (Some (<["Content-Type" := "application/json"]> ∅)))) ;;
           Ret None
         else
           Throw (new_Error ("Readiness check failed with status "
                             +:+ JSString.of_Z (status readinessResponse)))
       else Ret None);
     onRequestParse := None |}.

End HealthCheck.

(** ** The GraphiQL plugin ([plugins/useGraphiQL.ts]) *)

(** [GraphiQLOptions | boolean] *)
Inductive GraphiQLOptionsOrBool :=
  | GraphiQLBool (b : bool)
  | GraphiQLOptions (o : JSRecord).

(** [PromiseOrValue<GraphiQLOptions | boolean>], what an options factory
    returns: the options themselves, or a promise of them. *)
Inductive GraphiQLOptionsResult :=
  | OptionsValue (options : GraphiQLOptionsOrBool)
  | OptionsPromise (options : GraphiQLOptionsOrBool).

Definition GraphiQLOptionsFactory :=
  Request → option ServerContext → GraphiQLOptionsResult.

Inductive GraphiQLOptionsOrFactory :=
  | GraphiQLStatic (o : GraphiQLOptionsOrBool)
  | GraphiQLFactory (f : GraphiQLOptionsFactory).

Definition GraphiQLRenderer := JSRecord → Outcome BodyInit.

Record GraphiQLPluginConfig := {
  gq_endpoint : option string;
  gq_options : option GraphiQLOptionsOrFactory;
  gq_render : option GraphiQLRenderer;
}.

Section GraphiQL.

(** [shouldRenderGraphiQL] and [renderGraphiQL] of [../graphiql] *)
Variable shouldRenderGraphiQL : Request → bool.
Variable defaultGraphiQLRenderer : GraphiQLRenderer.

(** The [graphiqlOptionsFactory] the plugin settles on: the options when
    they are a function, [() => options] when they are an object,
    [() => false] when they are [false], [() => ({})] otherwise. *)
Definition graphiqlOptionsFactory_of (options : option GraphiQLOptionsOrFactory)
    : GraphiQLOptionsFactory :=
  match options with
  | Some (GraphiQLFactory f) => f
  | Some (GraphiQLStatic (GraphiQLOptions o)) => λ _ _, OptionsValue (GraphiQLOptions o)
  | Some (GraphiQLStatic (GraphiQLBool false)) => λ _ _, OptionsValue (GraphiQLBool false)
  | Some (GraphiQLStatic (GraphiQLBool true)) | None =>
      λ _ _, OptionsValue (GraphiQLOptions ∅)
  end.

Definition useGraphiQL (config : GraphiQLPluginConfig) : Plugin :=
  let graphiqlOptionsFactory := graphiqlOptionsFactory_of (gq_options config) in
  let renderer := default defaultGraphiQLRenderer (gq_render config) in
  {| onRequest := Some (λ payload,
       let request := request payload in
       let requestPath := JSString.split_head "?" (req_url request) in
       if match gq_endpoint config with
          | Some endpoint => negb (JSString.endsWith requestPath endpoint)
          | None => false
          end
       then
         logger_debug "Responding 404 Not Found" ;;
         endResponse payload
           (BodyString ("Unable to " +:+ req_method request +:+ " " +:+ requestPath))
           (Some (mkResponseInit (Some 404) (Some "Not Found") None)) ;;
         Ret None
       else if shouldRenderGraphiQL request then
         logger_debug "Rendering GraphiQL" ;;
         let graphiqlOptions := graphiqlOptionsFactory request (serverContext payload) in
         match graphiqlOptions with
         | OptionsValue (GraphiQLBool false) => Ret None
         | _ =>
             (* a promise is truthy and is not awaited: spreading it adds
                no property *)
             graphiQLBody ← await (renderer (
               match graphiqlOptions with
               | OptionsValue (GraphiQLOptions o) => o
               | OptionsValue (GraphiQLBool _) | OptionsPromise _ => ∅
               end ∪ {["endpoint" := match gq_endpoint config with
                                     | Some e => JString e
                                     | None => JUndefined
                                     end]})) ;
             endResponse payload graphiQLBody
               (Some (mkResponseInit (Some 200) None
                  (Some {["Content-Type" := "text/html"]}))) ;;
             Ret None
         end
       else Ret None);
     onRequestParse := None |}.

End GraphiQL.

(** ** The lifecycle monad

    A run of the engine: the log it leaves and how it completes. *)

Definition L (A : Type) : Type := list Event * Outcome A.

#[global] Instance L_mret : MRet L := λ A a, ([], Normal a).
#[global] Instance L_mbind : MBind L := λ A B f m,
  match m with
  | (l, Normal a) => let '(l', o) := f a in (l ++ l', o)
  | (l, Thrown e) => (l, Thrown e)
  end.

Definition tell (ev : Event) : L unit := ([ev], Normal tt).

(** an evaluation that leaves no log *)
Definition lift {A} (o : Outcome A) : L A := ([], o).

(** [await task], the task's capability closing over a variable that holds
    [s]: the variable afterwards and what the task returned. *)
Definition exec {C S A} (handle : C → S → S) (t : Task C A) (s : S) : L (S * A) :=
  let '(l, s', o) := run handle t s in
  (l, match o with
      | Normal a => Normal (s', a)
      | Thrown e => Thrown e
      end).

(** [try { m } catch (error) { handler }] *)
Definition try_catch {A} (m : L A) (handler : JSValue → L A) : L A :=
  match m with
  | (l, Normal a) => (l, Normal a)
  | (l, Thrown e) => let '(l', o) := handler e in (l ++ l', o)
  end.

(** ** The server ([server.ts]) *)

Record YogaServerOptions := {
  opt_logging : option bool;
  opt_maskedErrors : option bool;
  opt_context : bool;                       (* [options.context != null] *)
  opt_cors : option CORSPluginOptions;
  opt_endpoint : option string;
  opt_graphiql : option GraphiQLOptionsOrFactory;
  opt_renderGraphiQL : option GraphiQLRenderer;
  opt_parserCache : option bool;
  opt_validationCache : option bool;
  opt_fetch : option FetchFn;               (* [options.fetchAPI.fetch] *)
  opt_multipart : option bool;
  opt_id : option string;
  opt_plugins : option (list Plugin);
}.

(** [x !== false] *)
Definition not_false (x : option bool) : bool :=
  match x with
  | Some false => false
  | _ => true
  end.

Definition is_false {A} (p : A → option bool) (x : option A) : bool :=
  match x ≫= p with
  | Some false => true
  | _ => false
  end.

Definition cors_bool (o : CORSPluginOptions) : option bool :=
  match o with CORSPluginBool b => Some b | _ => None end.

Definition graphiql_bool (o : GraphiQLOptionsOrFactory) : option bool :=
  match o with GraphiQLStatic (GraphiQLBool b) => Some b | _ => None end.

(** The closures the payloads carry, and the variables they assign. *)

Definition endResponse_handle (c : EndResponseCall) (response : option Response)
    : option Response :=
  match c with
  | EndResponse body init => Some (Response_new body init)
  end.

Definition setRequestParser_handle (i : nat) (c : SetRequestParserCall)
    (requestParser : option nat * RequestParser) : option nat * RequestParser :=
  match c with
  | SetRequestParser parser => (Some i, parser)
  end.

Definition setParams_handle (c : SetParamsCall) (params : GraphQLParams) : GraphQLParams :=
  match c with
  | SetParams newParams => newParams
  end.

Definition response_handle (c : ResponseCall) (response : Response) : Response :=
  match c with
  | ResponseHeadersSet name value =>
      {| status := status response;
         statusText := statusText response;
         headers := Headers_set name value (headers response);
         body := body response |}
  end.

Section Server.

(** The collaborators that are not part of these sources. *)
Variable Enveloped : Type.
Variable envelop : list (option Plugin) → JSRecord → Outcome Enveloped.
Variable processRequest : ProcessRequestArgs Enveloped → Outcome Response.
Variable JSON_stringify : JSValue → string.
Variable JSON_parse : string → Outcome JSValue.
Variable crossUndiciFetch_fetch : FetchFn.
Variable globalThis_fetch : FetchFn.
Variable Date_now : string.
Variable shouldRenderGraphiQL : Request → bool.
Variable renderGraphiQL : GraphiQLRenderer.

(** Modelled from the spec: [plugins/requestParser/GET], [POST] and
    [POSTMultipart] are missing; the spec has each of them a candidate
    [onRequestParse] plugin and nothing else. *)
Variable GETRequestParser : OnRequestParseHook.
Variable POSTRequestParser : OnRequestParseHook.
Variable POSTMultipartRequestParser : OnRequestParseHook.

Definition parserPlugin (hook : OnRequestParseHook) : Plugin :=
  {| onRequest := None; onRequestParse := Some hook |}.

Record YogaServer := {
  getEnveloped : JSRecord → Outcome Enveloped;
  fetchAPI_fetch : FetchFn;
  plugins : list (option Plugin);
  onRequestParseHooks : list OnRequestParseHook;
  onRequestHooks : list OnRequestHook;
  id : string;
}.

Definition new_YogaServer (options : YogaServerOptions) : YogaServer :=
  let id := default "yoga" (opt_id options) in
  let fetch := default crossUndiciFetch_fetch (opt_fetch options) in
  let logger := default true (opt_logging options) in
  let maskedErrors := default true (opt_maskedErrors options) in
  let plugins :=
    [ enableIf true envelopPlugin;                                (* useSchema *)
      enableIf (not_false (opt_parserCache options)) envelopPlugin;
      enableIf (not_false (opt_validationCache options)) envelopPlugin;
      enableIf logger envelopPlugin;                              (* useLogger *)
      enableIf (opt_context options) envelopPlugin;               (* useExtendContext *)
      Some (parserPlugin GETRequestParser);
      Some (parserPlugin POSTRequestParser);
      enableIf (not_false (opt_multipart options)) (parserPlugin POSTMultipartRequestParser);
      enableIf (negb (is_false cors_bool (opt_cors options))) (useCORS (opt_cors options));
      enableIf (negb (is_false graphiql_bool (opt_graphiql options)))
        (useGraphiQL shouldRenderGraphiQL renderGraphiQL
           {| gq_endpoint := opt_endpoint options;
              gq_options := opt_graphiql options;
              gq_render := opt_renderGraphiQL options |});
      Some (useHealthCheck Date_now globalThis_fetch JSON_parse
              (Some {| hc_id := Some id; hc_fetch := Some fetch |})) ]
    ++ (Some <$> default [] (opt_plugins options))
    ++ [ enableIf maskedErrors envelopPlugin ] in
  {| getEnveloped := envelop plugins;
     fetchAPI_fetch := fetch;
     plugins := plugins;
     onRequestParseHooks := omap (λ plugin, plugin ≫= onRequestParse) plugins;
     onRequestHooks := omap (λ plugin, plugin ≫= onRequest) plugins;
     id := id |}.

(** [for (const onRequestDoneHook of onRequestDoneHooks)
       await onRequestDoneHook({ response })]
    Each hook comes with the index of the [onRequest] hook that returned
    it; the response is one object, handed on as the hooks leave it. *)
Fixpoint run_onRequestDoneHooks (onRequestDoneHooks : list (nat * OnRequestDoneHook))
    (response : Response) : L Response :=
  match onRequestDoneHooks with
  | [] => mret response
  | (i, onRequestDoneHook) :: rest =>
      tell (EvOnRequestDone i response) ;;
      '(response, _) ←
        exec response_handle (onRequestDoneHook {| done_response := response |}) response ;
      run_onRequestDoneHooks rest response
  end.

(** The loop over [this.onRequestHooks]; [Some response] is the early
    [return response]. *)
Fixpoint onRequest_loop (request : Request) (serverContext : option ServerContext)
    (i : nat) (hooks : list OnRequestHook)
    (onRequestDoneHooks : list (nat * OnRequestDoneHook))
    : L (option Response * list (nat * OnRequestDoneHook)) :=
  match hooks with
  | [] => mret (None, onRequestDoneHooks)
  | onRequestHook :: rest =>
      tell (EvOnRequest i) ;;
      '(response, onRequestHookResult) ←
        exec endResponse_handle
          (onRequestHook {| request := request;
                            serverContext := serverContext;
                            endResponse := λ body init,
                              Call (EndResponse body init) (Ret tt) |})
          None ;
      let onRequestDoneHooks :=
        match onRequestHookResult ≫= onRequestDone with
        | Some hook => onRequestDoneHooks ++ [(i, hook)]
        | None => onRequestDoneHooks
        end in
      match response with
      | Some response =>
          response ← run_onRequestDoneHooks onRequestDoneHooks response ;
          mret (Some response, onRequestDoneHooks)
      | None =>
          onRequest_loop request serverContext (S i) rest onRequestDoneHooks
      end
  end.

(** The loop over [this.onRequestParseHooks]. *)
Fixpoint onRequestParse_loop (request : Request) (serverContext : option ServerContext)
    (i : nat) (hooks : list OnRequestParseHook)
    (requestParser : option nat * RequestParser)
    (onRequestParseDoneList : list OnRequestParseDoneHook)
    : L ((option nat * RequestParser) * list OnRequestParseDoneHook) :=
  match hooks with
  | [] => mret (requestParser, onRequestParseDoneList)
  | onRequestParse :: rest =>
      tell (EvOnRequestParse i) ;;
      '(requestParser, onRequestParseResult) ←
        exec (setRequestParser_handle i)
          (onRequestParse {| parse_serverContext := serverContext;
                             parse_request := request;
                             requestParser := snd requestParser;
                             setRequestParser := λ parser,
                               Call (SetRequestParser parser) (Ret tt) |})
          requestParser ;
      let onRequestParseDoneList :=
        match onRequestParseResult ≫= onRequestParseDone with
        | Some hook => onRequestParseDoneList ++ [hook]
        | None => onRequestParseDoneList
        end in
      onRequestParse_loop request serverContext (S i) rest
        requestParser onRequestParseDoneList
  end.

Fixpoint onRequestParseDone_loop (i : nat) (hooks : list OnRequestParseDoneHook)
    (params : GraphQLParams) : L GraphQLParams :=
  match hooks with
  | [] => mret params
  | onRequestParseDone :: rest =>
      tell (EvOnRequestParseDone i params) ;;
      '(params, _) ←
        exec setParams_handle
          (onRequestParseDone {| params := params;
                                 setParams := λ newParams,
                                   Call (SetParams newParams) (Ret tt) |})
          params ;
      onRequestParseDone_loop (S i) rest params
  end.

(** [{ request, ...params, ...serverContext }] *)
Definition initialContext_of (request : Request) (params : GraphQLParams)
    (serverContext : option ServerContext) : JSRecord :=
  default ∅ serverContext ∪ (params ∪ {["request" := JRequest request]}).

(** The [catch] block: the single error rendered with status 500. *)
Definition fatal_response (error : JSValue) : L Response :=
  entry ← lift (if instanceof_GraphQLError error then Normal error
                else match get_property "message" error with
                     | Normal message => Normal (JObject ObjectProto [("message", message)])
                     | Thrown e => Thrown e
                     end) ;
  mret (Response_new
          (BodyString (JSON_stringify (JObject ObjectProto [("errors", JArray [entry])])))
          (Some (mkResponseInit (Some 500) (Some "Internal Server Error") None))).

(** The [try] block of [handleRequest]. *)
Definition handleRequest_try (this : YogaServer) (request : Request)
    (serverContext : option ServerContext) : L Response :=
     '(early, onRequestDoneHooks) ←
       onRequest_loop request serverContext 0 (onRequestHooks this) [] ;
     match early with
     | Some response => mret response
     | None =>
         '(requestParser, onRequestParseDoneList) ←
           onRequestParse_loop request serverContext 0 (onRequestParseHooks this)
             (None, λ _, Normal ∅) [] ;
         tell (EvDebug "Extracting GraphQL Parameters") ;;
         tell (EvParse (fst requestParser) (snd requestParser request)) ;;
         params ← lift (snd requestParser request) ;
         params ← onRequestParseDone_loop 0 onRequestParseDoneList params ;
         let initialContext := initialContext_of request params serverContext in
         tell (EvGetEnveloped initialContext) ;;
         enveloped ← lift (getEnveloped this initialContext) ;
         tell (EvDebug "Processing GraphQL Parameters") ;;
         tell (EvProcessRequest (initialContext !! "query")
                 (initialContext !! "variables")
                 (initialContext !! "operationName")) ;;
         response ← lift (processRequest
           {| pr_request := request;
              pr_query := initialContext !! "query";
              pr_variables := initialContext !! "variables";
              pr_operationName := initialContext !! "operationName";
              pr_enveloped := enveloped |}) ;
         response ← run_onRequestDoneHooks onRequestDoneHooks response ;
         mret response
     end.

(** The outcome is the promise [handleRequest] returns: [Normal] when it
    resolves with a response, [Thrown] when it rejects. *)
Definition handleRequest (this : YogaServer) (request : Request)
    (serverContext : option ServerContext) : L Response :=
  try_catch (handleRequest_try this request serverContext) fatal_response.

End Server.

(** ** The multipart upload decoder *)

Module Multipart.

(** Modelled from the spec: the four resource limits of section 4.3, which
    the missing [POSTMultipart] parser enforces. *)
Inductive Limit := FileSize | Files | FieldSize | HeaderSize.

Record Limits := {
  fileSize : N;     (* bytes of one binary part *)
  files : N;        (* number of binary parts *)
  fieldSize : N;    (* bytes of one non-file field *)
  headerSize : N;   (* cumulative bytes of the part headers *)
}.

Inductive PartKind := File | Field.

(** Modelled from the spec: what the body stream of a multipart request
    delivers to the missing decoder, in arrival order: the header block of
    a part, then the content of that part chunk by chunk. *)
Inductive Frame :=
  | PartHeader (name : string) (kind : PartKind) (header_bytes : N)
  | Chunk (data : string).

Record Part := {
  part_name : string;
  part_kind : PartKind;
  part_size : N;
  part_data : string;
}.

Record State := {
  header_bytes_seen : N;
  files_seen : N;
  complete : list Part;
  current : option Part;
}.

Definition initial : State :=
  {| header_bytes_seen := 0; files_seen := 0; complete := []; current := None |}.

Definition bytes (data : string) : N := N.of_nat (String.length data).

(** Modelled from the spec: [plugins/requestParser/POSTMultipart] is
    missing. One step of the streaming decode of section 4.3: every limit
    is checked on the frame that arrives, before its data is buffered, and
    exceeding one aborts with that limit. *)
Definition step (limits : Limits) (st : State) (frame : Frame) : Limit + State :=
  match frame with
  | PartHeader name kind header_bytes =>
      let seen := (header_bytes_seen st + header_bytes)%N in
      if (headerSize limits <? seen)%N then inl HeaderSize
      else
        let count := (files_seen st + match kind with File => 1 | Field => 0 end)%N in
        if (files limits <? count)%N then inl Files
        else inr {| header_bytes_seen := seen;
                    files_seen := count;
                    complete := complete st ++ option_list (current st);
                    current := Some {| part_name := name; part_kind := kind;
                                       part_size := 0; part_data := "" |} |}
  | Chunk data =>
      match current st with
      | None => inr st
      | Some part =>
          let size := (part_size part + bytes data)%N in
          if (match part_kind part with
              | File => fileSize limits
              | Field => fieldSize limits
              end <? size)%N
          then inl (match part_kind part with File => FileSize | Field => FieldSize end)
          else inr {| header_bytes_seen := header_bytes_seen st;
                      files_seen := files_seen st;
                      complete := complete st;
                      current := Some {| part_name := part_name part;
                                         part_kind := part_kind part;
                                         part_size := size;
                                         part_data := part_data part +:+ data |} |}
      end
  end.

(** Modelled from the spec: the decode loop of the missing
    [POSTMultipart] parser. Frames are consumed in arrival order; the
    first frame that exceeds a limit aborts the decode: the result is the
    limit and the number of frames consumed, that frame included. *)
Fixpoint feed (limits : Limits) (frames : list Frame) (st : State) (consumed : nat)
    : Limit * nat + State :=
  match frames with
  | [] => inr st
  | frame :: rest =>
      match step limits st frame with
      | inl limit => inl (limit, S consumed)
      | inr st' => feed limits rest st' (S consumed)
      end
  end.

(** Modelled from the spec: the error that identifies the exceeded limit. *)
Definition PayloadTooLargeError (limit : Limit) : JSValue :=
  JObject ErrorProto
    [("name", JString "PayloadTooLargeError");
     ("message", JString ("multipart limit exceeded: " +:+
        match limit with
        | FileSize => "fileSize" | Files => "files"
        | FieldSize => "fieldSize" | HeaderSize => "headerSize"
        end))].

Section Decoder.

(** The framing of a request body, which the platform's stream reader
    does, and the binding of the decoded parts ([operations], [map] and the
    uploads at their paths) into a ParamBag or a RequestParseError, which
    no limit depends on. *)
Variable body_frames : Request → list Frame.
Variable bind_parts : list Part → Outcome GraphQLParams.

(** Modelled from the spec: the request parser of the missing
    [POSTMultipart] plugin. A decode that is aborted throws the
    PayloadTooLargeError of the limit; only a decode that reaches the end of
    the body binds the parts into a ParamBag. *)
Definition parsePOSTMultipartRequest (limits : Limits) : RequestParser :=
  λ request,
    match feed limits (body_frames request) initial 0 with
    | inl (limit, _) => Thrown (PayloadTooLargeError limit)
    | inr st => bind_parts (complete st ++ option_list (current st))
    end.

End Decoder.

(** *** What it is for a limit to be exceeded

    Stated on the frames that have arrived, without the decoder. *)

(** The header bytes of all parts so far. *)
Definition header_total (arrived : list Frame) : N :=
  foldr (λ frame n, match frame with
                    | PartHeader _ _ hb => (hb + n)%N
                    | Chunk _ => n
                    end) 0%N arrived.

(** The number of binary parts so far. *)
Definition file_count (arrived : list Frame) : N :=
  foldr (λ frame n, match frame with
                    | PartHeader _ File _ => (1 + n)%N
                    | _ => n
                    end) 0%N arrived.

(** The part that is open, if any, and the bytes it has delivered; on the
    frames in reverse order of arrival. *)
Fixpoint open_part (reversed : list Frame) : option (PartKind * N) :=
  match reversed with
  | [] => None
  | PartHeader _ kind _ :: _ => Some (kind, 0%N)
  | Chunk data :: earlier =>
      match open_part earlier with
      | Some (kind, size) => Some (kind, (size + bytes data)%N)
      | None => None
      end
  end.

Definition exceeded (limits : Limits) (arrived : list Frame) (limit : Limit) : Prop :=
  match limit with
  | HeaderSize => (headerSize limits < header_total arrived)%N
  | Files => (files limits < file_count arrived)%N
  | FileSize => ∃ size, open_part (rev arrived) = Some (File, size)
                        ∧ (fileSize limits < size)%N
  | FieldSize => ∃ size, open_part (rev arrived) = Some (Field, size)
                         ∧ (fieldSize limits < size)%N
  end.

End Multipart.

(** * Properties *)

(** ** The CORS calculator, block by block

    [getCORSResponseHeaders] assigns its headers one block after the other;
    the blocks are named here to reason about one at a time. *)

Module CORSBlocks.

Definition allow_origin (request : Request) (corsOptions : CORSOptions) : HeaderRecord :=
  let currentOrigin := request_header "origin" request in
  let headers : HeaderRecord := <[ACAO := "*"]> ∅ in
  let headers :=
    if truthy_opt currentOrigin then
      if truthy_opt (request_header "cookies" request)
      then <[ACAO := default "" currentOrigin]> headers
      else headers
    else headers in
  match currentOrigin, cors_field origin corsOptions with
  | Some cur, Some o =>
      if negb (Nat.eqb (origin_length o) 0)
         && negb (origin_includes o cur)
         && negb (origin_includes o "*")
      then <[ACAO := "null"]> headers
      else headers
  | _, _ => headers
  end.

Definition vary (headers : HeaderRecord) : HeaderRecord :=
  if bool_decide (headers !! ACAO ≠ Some "*")
  then <["Vary" := "Origin"]> headers
  else headers.

Definition allow_methods (request : Request) (corsOptions : CORSOptions)
    (headers : HeaderRecord) : HeaderRecord :=
  if nonempty_list (cors_field methods corsOptions)
  then <["Access-Control-Allow-Methods" :=
           JSString.join ", " (default [] (cors_field methods corsOptions))]> headers
  else
    let requestMethod := request_header "access-control-request-method" request in
    if truthy_opt requestMethod
    then <["Access-Control-Allow-Methods" := default "" requestMethod]> headers
    else headers.

Definition allow_headers (request : Request) (corsOptions : CORSOptions)
    (headers : HeaderRecord) : HeaderRecord :=
  if nonempty_list (cors_field allowedHeaders corsOptions)
  then <["Access-Control-Allow-Headers" :=
           JSString.join ", " (default [] (cors_field allowedHeaders corsOptions))]> headers
  else
    let requestHeaders := request_header "access-control-request-headers" request in
    if truthy_opt requestHeaders
    then
      let headers :=
        <["Access-Control-Allow-Headers" := default "" requestHeaders]> headers in
      let headers :=
        if truthy_opt (headers !! "Vary")
        then <["Vary" := default "" (headers !! "Vary")
                          +:+ ", Access-Control-Request-Headers"]> headers
        else headers in
      <["Vary" := "Access-Control-Request-Headers"]> headers
    else headers.

Definition allow_credentials (corsOptions : CORSOptions) (headers : HeaderRecord)
    : HeaderRecord :=
  match cors_field credentials corsOptions with
  | Some c =>
      if c then <["Access-Control-Allow-Credentials" := "true"]> headers
      else headers
  | None =>
      if bool_decide (headers !! ACAO ≠ Some "*")
      then <["Access-Control-Allow-Credentials" := "true"]> headers
      else headers
  end.

Definition expose_headers (corsOptions : CORSOptions) (headers : HeaderRecord)
    : HeaderRecord :=
  match cors_field exposedHeaders corsOptions with
  | Some xs => <["Access-Control-Expose-Headers" := JSString.join ", " xs]> headers
  | None => headers
  end.

Definition max_age (corsOptions : CORSOptions) (headers : HeaderRecord) : HeaderRecord :=
  match cors_field maxAge corsOptions with
  | Some n =>
      if negb (n =? 0)
      then <["Access-Control-Max-Age" := JSString.of_Z n]> headers
      else headers
  | None => headers
  end.

Lemma getCORSResponseHeaders_blocks request corsOptions :
  getCORSResponseHeaders request corsOptions =
  <["Server" := "GraphQL Yoga"]>
    (max_age corsOptions (expose_headers corsOptions (allow_credentials corsOptions
      (allow_headers request corsOptions (allow_methods request corsOptions
        (vary (allow_origin request corsOptions))))))).
Proof. reflexivity. Qed.

End CORSBlocks.

(** ** Header maps *)

Lemma Headers_new_get (init : HeaderRecord) (name : string) :
  (∀ k, is_Some (init !! k) →
        JSString.toLowerCase k = JSString.toLowerCase name → k = name) →
  Headers_get name (Headers_new init) = init !! name.
Proof.
  unfold Headers_new, Headers_get. revert name.
  apply (map_fold_weak_ind
    (λ (r m : gmap string string), ∀ name,
       (∀ k, is_Some (m !! k) →
             JSString.toLowerCase k = JSString.toLowerCase name → k = name) →
       r !! JSString.toLowerCase name = m !! name)).
  - intros name _. by rewrite !lookup_empty.
  - intros i x m r Hi IH name Hkeys. unfold Headers_set.
    destruct (decide (i = name)) as [->|Hne].
    + by rewrite !lookup_insert_eq.
    + rewrite lookup_insert_ne.
      2:{ intros Heq. apply Hne, Hkeys; [|done]. rewrite lookup_insert_eq. by eexists. }
      rewrite lookup_insert_ne by done. apply IH.
      intros k Hk. apply Hkeys. rewrite lookup_insert_ne; [done|].
      intros ->. rewrite Hi in Hk. by destruct Hk.
Qed.

(** Stamping a list of headers on a response leaves a header of another
    name, the status and the body as they were. *)
Lemma run_stamp_headers entries (response : Response) :
  ∃ response',
    run response_handle (stamp_headers entries) response = ([], response', Normal tt)
    ∧ status response' = status response
    ∧ body response' = body response
    ∧ ∀ name, (∀ k v, (k, v) ∈ entries →
                 JSString.toLowerCase k ≠ JSString.toLowerCase name) →
        Headers_get name (headers response') = Headers_get name (headers response).
Proof.
  revert response. induction entries as [|[k v] rest IH]; intros response; simpl.
  - eexists. repeat split; done.
  - destruct (IH (response_handle (ResponseHeadersSet k v) response))
      as (r' & Hrun & Hst & Hbody & Hget).
    exists r'. repeat split; [done..|].
    intros name Hname. rewrite Hget.
    + simpl. unfold Headers_get, Headers_set. rewrite lookup_insert_ne; [done|].
      apply (Hname k v). left.
    + intros k' v' Hin. apply (Hname k' v'). by right.
Qed.

(** ** Facts about the CORS calculator *)

Module CORSFacts.
Import CORSBlocks.

(** The allow-origin value the first three rules resolve to. *)
Definition resolved_origin (request : Request) (corsOptions : CORSOptions) : string :=
  let currentOrigin := request_header "origin" request in
  let narrowed :=
    if truthy_opt currentOrigin && truthy_opt (request_header "cookies" request)
    then default "" currentOrigin else "*" in
  match currentOrigin, cors_field origin corsOptions with
  | Some cur, Some o =>
      if negb (Nat.eqb (origin_length o) 0)
         && negb (origin_includes o cur)
         && negb (origin_includes o "*")
      then "null" else narrowed
  | _, _ => narrowed
  end.

Lemma allow_origin_eq request corsOptions :
  allow_origin request corsOptions = {[ACAO := resolved_origin request corsOptions]}.
Proof.
  unfold allow_origin, resolved_origin.
  destruct (request_header "origin" request) as [cur|]; simpl;
    [|by rewrite insert_empty].
  destruct (JSString.truthy cur), (truthy_opt (request_header "cookies" request)); simpl;
    destruct (cors_field origin corsOptions) as [o|];
    try destruct (negb (origin_length o =? 0)%nat && negb (origin_includes o cur)
                  && negb (origin_includes o "*"));
    by rewrite ?insert_insert_eq, ?insert_empty.
Qed.

(** The header names the calculator can assign. *)
Definition header_names : list string :=
  [ACAO; "Vary"; "Access-Control-Allow-Methods"; "Access-Control-Allow-Headers";
   "Access-Control-Allow-Credentials"; "Access-Control-Expose-Headers";
   "Access-Control-Max-Age"; "Server"].

Ltac block_cases :=
  repeat match goal with
         | |- context [match ?x with _ => _ end] => destruct x
         end.

Ltac lookup_other :=
  simpl; rewrite ?lookup_insert_ne by (by intros <-); try done.

Section Other.
Context (k : string) (h : HeaderRecord).

Lemma vary_other : k ≠ "Vary" → vary h !! k = h !! k.
Proof. intros. unfold vary. block_cases; lookup_other. Qed.

Lemma allow_methods_other request corsOptions :
  k ≠ "Access-Control-Allow-Methods" →
  allow_methods request corsOptions h !! k = h !! k.
Proof. intros. unfold allow_methods. block_cases; lookup_other. Qed.

Lemma allow_headers_other request corsOptions :
  k ≠ "Access-Control-Allow-Headers" → k ≠ "Vary" →
  allow_headers request corsOptions h !! k = h !! k.
Proof. intros. unfold allow_headers. block_cases; lookup_other. Qed.

Lemma allow_credentials_other corsOptions :
  k ≠ "Access-Control-Allow-Credentials" →
  allow_credentials corsOptions h !! k = h !! k.
Proof. intros. unfold allow_credentials. block_cases; lookup_other. Qed.

Lemma expose_headers_other corsOptions :
  k ≠ "Access-Control-Expose-Headers" → expose_headers corsOptions h !! k = h !! k.
Proof. intros. unfold expose_headers. block_cases; lookup_other. Qed.

Lemma max_age_other corsOptions :
  k ≠ "Access-Control-Max-Age" → max_age corsOptions h !! k = h !! k.
Proof. intros. unfold max_age. block_cases; lookup_other. Qed.
End Other.

(** A header of any other name is not assigned. *)
Lemma getCORSResponseHeaders_names request corsOptions k :
  is_Some (getCORSResponseHeaders request corsOptions !! k) → k ∈ header_names.
Proof.
  intros Hk. destruct (decide (k ∈ header_names)) as [|Hnot]; [done|exfalso].
  unfold header_names in Hnot. rewrite !not_elem_of_cons in Hnot.
  destruct Hnot as (? & ? & ? & ? & ? & ? & ? & ? & _).
  rewrite getCORSResponseHeaders_blocks in Hk.
  rewrite lookup_insert_ne, max_age_other, expose_headers_other, allow_credentials_other,
    allow_headers_other, allow_methods_other, vary_other, allow_origin_eq,
    lookup_singleton_ne in Hk by done.
  by destruct Hk.
Qed.

(** The resolved allow-origin is the header that is returned. *)
Lemma getCORSResponseHeaders_ACAO request corsOptions :
  getCORSResponseHeaders request corsOptions !! ACAO
  = Some (resolved_origin request corsOptions).
Proof.
  rewrite getCORSResponseHeaders_blocks.
  rewrite lookup_insert_ne, max_age_other, expose_headers_other, allow_credentials_other,
    allow_headers_other, allow_methods_other, vary_other, allow_origin_eq by done.
  apply lookup_singleton_eq.
Qed.

(** No two of the names differ in case only. *)
Lemma header_names_case k name :
  k ∈ header_names → name ∈ header_names →
  JSString.toLowerCase k = JSString.toLowerCase name → k = name.
Proof.
  unfold header_names. rewrite !elem_of_cons, !elem_of_nil.
  intros Hk Hname.
  repeat (destruct Hk as [->|Hk]; [
    repeat (destruct Hname as [->|Hname]; [vm_compute; congruence|]); done |]).
  done.
Qed.

(** On a response built from them the headers read as calculated. *)
Lemma Headers_new_getCORS request corsOptions name :
  name ∈ header_names →
  Headers_get name (Headers_new (getCORSResponseHeaders request corsOptions))
  = getCORSResponseHeaders request corsOptions !! name.
Proof.
  intros Hname. apply Headers_new_get. intros k Hk.
  apply header_names_case; [|done]. by eapply getCORSResponseHeaders_names.
Qed.

End CORSFacts.

Lemma Response_new_headers b st txt (h : HeaderRecord) :
  headers (Response_new b (Some (mkResponseInit st txt (Some h)))) = Headers_new h.
Proof. reflexivity. Qed.

(** ** One hook in the lifecycle *)

(** The payload [handleRequest] builds for an [onRequest] hook. *)
Definition onRequest_payload (request : Request) (serverContext : option ServerContext)
    : OnRequestEventPayload :=
  {| request := request;
     serverContext := serverContext;
     endResponse := λ body init, Call (EndResponse body init) (Ret tt) |}.

(** A plugin's [onRequest] hook run as [handleRequest] runs it: the log,
    the [response] variable afterwards, and what the hook returned. *)
Definition run_onRequest (plugin : Plugin) (request : Request)
    (serverContext : option ServerContext)
    : list Event * option Response * Outcome (option OnRequestHookResult) :=
  match onRequest plugin with
  | Some hook => run endResponse_handle (hook (onRequest_payload request serverContext)) None
  | None => ([], None, Normal None)
  end.

(** ** CORS preflight (C4, C5) *)

(** The policy [{origin: [o]}] *)
Definition policy_origin (o : string) : CORSOptionsObject :=
  mkCORSOptions (Some (OriginList [o])) None None None None None.

(** The response the CORS plugin ends a request with, if it does. *)
Definition preflight_response (policy : CORSOptionsObject) (request : Request)
    (serverContext : option ServerContext) : option Response :=
  (run_onRequest (useCORS (Some (CORSPluginObject policy))) request serverContext).1.2.

Lemma preflight_response_OPTIONS policy req ctx :
  JSString.toUpperCase (req_method req) = "OPTIONS" →
  preflight_response policy req ctx =
  Some (Response_new BodyNull
          (Some (mkResponseInit (Some 204) None
             (Some (getCORSResponseHeaders req (CORSObject policy)))))).
Proof.
  intros Hm. unfold preflight_response, run_onRequest, useCORS, onRequest.
  cbv beta iota. unfold onRequest_payload. cbn [request serverContext].
  rewrite bool_decide_true by done. reflexivity.
Qed.

(** C4 (as amended). For an OPTIONS preflight request carrying the header
    [Origin: http://a.test], the CORS plugin with policy
    [{origin: ["http://a.test"]}] ends the request with status 204 and
    [Access-Control-Allow-Origin: *], and with [http://a.test] in its place
    only when the request also carries a non-empty [cookies] header; with
    policy [{origin: ["http://b.test"]}] it ends the request with status 204
    and [Access-Control-Allow-Origin: null]. *)
Theorem C4_preflight_allow_origin (request : Request) (serverContext : option ServerContext) :
  JSString.toUpperCase (req_method request) = "OPTIONS" →
  request_header "Origin" request = Some "http://a.test" →
  (∃ response,
      preflight_response (policy_origin "http://a.test") request serverContext = Some response
      ∧ status response = 204
      ∧ Headers_get ACAO (headers response)
        = Some (if truthy_opt (request_header "cookies" request)
                then "http://a.test" else "*"))
  ∧ (∃ response,
      preflight_response (policy_origin "http://b.test") request serverContext = Some response
      ∧ status response = 204
      ∧ Headers_get ACAO (headers response) = Some "null").
Proof.
  intros Hmethod Horigin.
  assert (Hcur : request_header "origin" request = Some "http://a.test") by exact Horigin.
  split; eexists; (split; [by apply preflight_response_OPTIONS|]); (split; [done|]).
  - rewrite Response_new_headers.
    rewrite CORSFacts.Headers_new_getCORS by (unfold CORSFacts.header_names; set_solver).
    rewrite CORSFacts.getCORSResponseHeaders_ACAO. unfold CORSFacts.resolved_origin.
    rewrite Hcur. cbn. by destruct (truthy_opt _).
  - rewrite Response_new_headers.
    rewrite CORSFacts.Headers_new_getCORS by (unfold CORSFacts.header_names; set_solver).
    rewrite CORSFacts.getCORSResponseHeaders_ACAO. unfold CORSFacts.resolved_origin.
    rewrite Hcur. reflexivity.
Qed.

(** The preflight of the example: OPTIONS with the one header
    [Origin: http://a.test]. *)
Definition preflight_a_test : Request :=
  mkRequest "OPTIONS" "http://localhost/graphql"
    (Headers_new {["Origin" := "http://a.test"]}).

Lemma C4_preflight_allow_origin_witness :
  (∃ response,
      preflight_response (policy_origin "http://a.test") preflight_a_test None = Some response
      ∧ status response = 204
      ∧ Headers_get ACAO (headers response)
        = Some (if truthy_opt (request_header "cookies" preflight_a_test)
                then "http://a.test" else "*"))
  ∧ (∃ response,
      preflight_response (policy_origin "http://b.test") preflight_a_test None = Some response
      ∧ status response = 204
      ∧ Headers_get ACAO (headers response) = Some "null").
Proof.
  apply (C4_preflight_allow_origin preflight_a_test None); reflexivity.
Defined.

(** C4, counterexample. With the policy [{origin: ["http://a.test"]}] the
    preflight that carries [Origin: http://a.test] is answered with
    [Access-Control-Allow-Origin: *], not with the origin. *)
Lemma C4_allow_origin_is_wildcard :
  ¬ ∃ response,
      preflight_response (policy_origin "http://a.test") preflight_a_test None = Some response
      ∧ status response = 204
      ∧ Headers_get ACAO (headers response) = Some "http://a.test".
Proof.
  intros (response & Hresp & _ & Hacao).
  vm_compute in Hresp. injection Hresp as <-. vm_compute in Hacao. discriminate.
Qed.

(** The [Vary] header the calculator returns, in all cases: reflecting the
    requested headers assigns it last. *)
Lemma getCORSResponseHeaders_Vary request corsOptions :
  getCORSResponseHeaders request corsOptions !! "Vary" =
  if negb (nonempty_list (cors_field allowedHeaders corsOptions))
     && truthy_opt (request_header "access-control-request-headers" request)
  then Some "Access-Control-Request-Headers"
  else if bool_decide (CORSFacts.resolved_origin request corsOptions ≠ "*")
       then Some "Origin" else None.
Proof.
  rewrite CORSBlocks.getCORSResponseHeaders_blocks.
  rewrite lookup_insert_ne, CORSFacts.max_age_other, CORSFacts.expose_headers_other,
    CORSFacts.allow_credentials_other by done.
  unfold CORSBlocks.allow_headers.
  destruct (nonempty_list (cors_field allowedHeaders corsOptions)); simpl.
  - rewrite lookup_insert_ne, CORSFacts.allow_methods_other by done.
    rewrite CORSFacts.allow_origin_eq. unfold CORSBlocks.vary.
    rewrite lookup_singleton_eq.
    destruct (decide (CORSFacts.resolved_origin request corsOptions = "*")) as [Heq|Hne].
    + rewrite !bool_decide_false by (rewrite ?Heq; naive_solver).
      by rewrite lookup_singleton_ne.
    + rewrite !bool_decide_true by naive_solver. by rewrite lookup_insert_eq.
  - destruct (truthy_opt (request_header "access-control-request-headers" request)).
    + by rewrite lookup_insert_eq.
    + rewrite CORSFacts.allow_methods_other by done.
      rewrite CORSFacts.allow_origin_eq. unfold CORSBlocks.vary.
      rewrite lookup_singleton_eq.
      destruct (decide (CORSFacts.resolved_origin request corsOptions = "*")) as [Heq|Hne].
      * rewrite !bool_decide_false by (rewrite ?Heq; naive_solver).
        by rewrite lookup_singleton_ne.
      * rewrite !bool_decide_true by naive_solver. by rewrite lookup_insert_eq.
Qed.

(** A preflight that asks for a header: [Origin: http://a.test] and
    [Access-Control-Request-Headers: content-type]. *)
Definition preflight_with_request_headers : Request :=
  mkRequest "OPTIONS" "http://localhost/graphql"
    (Headers_new {["Origin" := "http://a.test";
                   "Access-Control-Request-Headers" := "content-type"]}).

(** C5, the code at the failing input. The policy [{origin:
    ["http://b.test"]}] declares no allowed headers, the allow-origin
    resolves to [null] and not to [*], and the [Vary] header that is
    returned is [Access-Control-Request-Headers]: it does not include
    [Origin]. *)
Theorem C5_vary_overwritten :
  let headers :=
    getCORSResponseHeaders preflight_with_request_headers
      (CORSObject (policy_origin "http://b.test")) in
  headers !! ACAO = Some "null"
  ∧ headers !! "Vary" = Some "Access-Control-Request-Headers"
  ∧ JSString.includes "Access-Control-Request-Headers" "Origin" = false.
Proof. vm_compute. done. Qed.

(** ** Tasks in sequence *)

Lemma run_bind {C S A B} (handle : C → S → S) (t : Task C A) (f : A → Task C B) (s : S) :
  run handle (t ≫= f) s =
  match run handle t s with
  | (l, s', Normal a) => let '(l', s'', o) := run handle (f a) s' in (l ++ l', s'', o)
  | (l, s', Thrown e) => (l, s', Thrown e)
  end.
Proof.
  revert s. induction t as [a|e|c k IH|g url k IH|msg k IH]; intros s; simpl.
  - by destruct (run handle (f a) s) as [[l' s''] o].
  - done.
  - apply IH.
  - unfold mbind, Task_mbind in IH. rewrite IH.
    destruct (run handle (k (g url)) s) as [[l s'] [a|e]]; [|done].
    by destruct (run handle (f a) s') as [[l' s''] o].
  - unfold mbind, Task_mbind in IH. rewrite IH.
    destruct (run handle k s) as [[l s'] [a|e]]; [|done].
    by destruct (run handle (f a) s') as [[l' s''] o].
Qed.

(** ** Reading the log *)

Arguments YogaServer Enveloped : clear implicits.
Arguments handleRequest {Enveloped} processRequest JSON_stringify this request serverContext.
Arguments handleRequest_try {Enveloped} processRequest this request serverContext.
Arguments onRequestHooks {Enveloped} y.
Arguments onRequestParseHooks {Enveloped} y.
Arguments getEnveloped {Enveloped} y.
Arguments new_YogaServer {Enveloped}.

(** The [onRequest] hooks that were invoked, in order. *)
Definition onRequest_events (log : list Event) : list nat :=
  omap (λ ev, match ev with EvOnRequest i => Some i | _ => None end) log.

(** The completion hooks that were invoked, each with the response it
    received. *)
Definition onRequestDone_events (log : list Event) : list (nat * Response) :=
  omap (λ ev, match ev with EvOnRequestDone i r => Some (i, r) | _ => None end) log.

(** The invocations of a request parser. *)
Definition parse_events (log : list Event) : list (option nat * Outcome GraphQLParams) :=
  omap (λ ev, match ev with EvParse who result => Some (who, result) | _ => None end) log.

(** The contexts handed to the execution engine. *)
Definition getEnveloped_events (log : list Event) : list JSRecord :=
  omap (λ ev, match ev with EvGetEnveloped ctx => Some ctx | _ => None end) log.

(** The calls of [processRequest]: query, variables, operation name. *)
Definition processRequest_events (log : list Event)
    : list (option JSValue * option JSValue * option JSValue) :=
  omap (λ ev, match ev with EvProcessRequest q v o => Some (q, v, o) | _ => None end) log.

(** The outbound requests. *)
Definition fetch_events (log : list Event) : list string :=
  omap (λ ev, match ev with EvFetch url => Some url | _ => None end) log.

(** What a hook itself can leave in the log. *)
Definition ambient (ev : Event) : Prop :=
  match ev with
  | EvFetch _ | EvDebug _ => True
  | _ => False
  end.

Lemma run_ambient {C S A} (handle : C → S → S) (t : Task C A) (s : S) :
  Forall ambient (run handle t s).1.1.
Proof.
  revert s. induction t as [a|e|c k IH|g url k IH|msg k IH]; intros s; simpl; auto.
  - specialize (IH (g url) s). destruct (run handle (k (g url)) s) as [[l s'] o].
    by constructor.
  - specialize (IH s). destruct (run handle k s) as [[l s'] o]. by constructor.
Qed.

Lemma omap_ambient {B} (f : Event → option B) (l : list Event) :
  (∀ ev, ambient ev → f ev = None) → Forall ambient l → omap f l = [].
Proof.
  intros Hf. induction 1 as [|ev l Hev _ IH]; [done|].
  simpl. by rewrite (Hf ev Hev).
Qed.

(** A hook's own log holds no lifecycle event. *)
Lemma run_lifecycle_events {C S A} (handle : C → S → S) (t : Task C A) (s : S) :
  let l := (run handle t s).1.1 in
  onRequest_events l = [] ∧ onRequestDone_events l = [] ∧ parse_events l = []
  ∧ getEnveloped_events l = [] ∧ processRequest_events l = [].
Proof.
  pose proof (run_ambient handle t s) as Hamb. simpl.
  repeat split; (apply omap_ambient; [by intros []|done]).
Qed.

Ltac hook_log H :=
  let Hlog := fresh "Hlog" in
  match type of H with
  | run ?handle ?t ?s = _ =>
      pose proof (run_lifecycle_events handle t s) as Hlog;
      rewrite H in Hlog; cbn [fst snd] in Hlog;
      destruct Hlog as (? & ? & ? & ? & ?)
  end.

(** ** The lifecycle monad, unfolded *)

Lemma L_bind_normal {A B} (m : L A) (f : A → L B) l a :
  m = (l, Normal a) → m ≫= f = (l ++ (f a).1, (f a).2).
Proof. intros ->. unfold mbind, L_mbind. by destruct (f a). Qed.

Lemma L_bind_thrown {A B} (m : L A) (f : A → L B) l e :
  m = (l, Thrown e) → m ≫= f = (l, Thrown e).
Proof. by intros ->. Qed.

Lemma exec_normal {C S A} (handle : C → S → S) (t : Task C A) (s : S) l s' a :
  run handle t s = (l, s', Normal a) → exec handle t s = (l, Normal (s', a)).
Proof. unfold exec. by intros ->. Qed.

Lemma exec_thrown {C S A} (handle : C → S → S) (t : Task C A) (s : S) l s' e :
  run handle t s = (l, s', Thrown e) → exec handle t s = (l, Thrown e).
Proof. unfold exec. by intros ->. Qed.

(** ** Completion hooks *)

(** [written r r']: [r'] is the response [r] after header writes. *)
Definition written (r r' : Response) : Prop :=
  ∃ calls : list ResponseCall, r' = foldl (λ r c, response_handle c r) r calls.

Lemma written_refl r : written r r.
Proof. by exists []. Qed.

Lemma written_trans r1 r2 r3 : written r1 r2 → written r2 r3 → written r1 r3.
Proof. intros [c1 ->] [c2 ->]. exists (c1 ++ c2). by rewrite foldl_app. Qed.

Lemma written_status_body r r' :
  written r r' → status r' = status r ∧ body r' = body r ∧ statusText r' = statusText r.
Proof.
  intros [calls ->]. revert r. induction calls as [|[name value] calls IH]; intros r.
  - done.
  - destruct (IH (response_handle (ResponseHeadersSet name value) r)) as (H1 & H2 & H3).
    cbn [foldl]. by rewrite H1, H2, H3.
Qed.

Lemma run_written {A} (t : Task ResponseCall A) (r : Response) :
  written r (run response_handle t r).1.2.
Proof.
  revert r. induction t as [a|e|c k IH|g url k IH|msg k IH]; intros r; simpl.
  - apply written_refl.
  - apply written_refl.
  - eapply written_trans; [|apply IH]. by exists [c].
  - specialize (IH (g url) r). by destruct (run response_handle (k (g url)) r) as [[l s'] o].
  - specialize (IH r). by destruct (run response_handle k r) as [[l s'] o].
Qed.

(** A completion hook that returns, whatever response it is given. *)
Definition done_returns (hook : OnRequestDoneHook) : Prop :=
  ∀ response, ∃ l response',
    run response_handle (hook {| done_response := response |}) response
    = (l, response', Normal tt).

(** When none of them throws, the accumulated completion hooks run once
    each, in the order of the accumulator, on the one response. *)
Lemma run_onRequestDoneHooks_normal (hooks : list (nat * OnRequestDoneHook)) response :
  Forall (λ h, done_returns h.2) hooks →
  ∃ l response',
    run_onRequestDoneHooks hooks response = (l, Normal response')
    ∧ written response response'
    ∧ (onRequestDone_events l).*1 = hooks.*1
    ∧ Forall (λ ev, written response ev.2) (onRequestDone_events l)
    ∧ head (onRequestDone_events l).*2 = head (const response <$> hooks)
    ∧ onRequest_events l = [] ∧ parse_events l = []
    ∧ getEnveloped_events l = [] ∧ processRequest_events l = [].
Proof.
  intros Hall. revert response.
  induction Hall as [|[i hook] hooks Hhook _ IH]; intros response.
  - exists [], response. repeat split; try done. apply written_refl.
  - destruct (Hhook response) as (l1 & r1 & Hrun). simpl in Hrun.
    destruct (IH r1) as (l2 & r2 & Hrest & Hw & Hidx & Hrecv & _ & ? & ? & ? & ?).
    pose proof (run_written (hook {| done_response := response |}) response) as Hw1.
    rewrite Hrun in Hw1. simpl in Hw1. hook_log Hrun.
    exists (EvOnRequestDone i response :: l1 ++ l2), r2.
    split.
    { simpl. unfold tell, mbind, L_mbind. rewrite (exec_normal _ _ _ _ _ _ Hrun).
      by rewrite Hrest. }
    unfold onRequestDone_events, onRequest_events, parse_events, getEnveloped_events,
      processRequest_events in *.
    simpl. rewrite !omap_app.
    repeat match goal with H : omap _ l1 = [] |- _ => rewrite H; clear H end.
    repeat match goal with H : omap _ l2 = [] |- _ => rewrite H; clear H end.
    simpl. repeat split; try done.
    + by eapply written_trans.
    + f_equal. exact Hidx.
    + constructor; [apply written_refl|].
      eapply Forall_impl; [exact Hrecv|]. intros ev Hev. by eapply written_trans.
Qed.


(** ** The early-intercept phase (C1) *)

Section Intercept.
Context (request : Request) (serverContext : option ServerContext).

(** The hook returns [res] and has not called [endResponse]. *)
Definition passes (hook : OnRequestHook) (res : option OnRequestHookResult) : Prop :=
  ∃ l, run endResponse_handle (hook (onRequest_payload request serverContext)) None
       = (l, None, Normal res).

(** The hook calls [endResponse], [r] is the response of its last call,
    and it returns [res]. *)
Definition ends (hook : OnRequestHook) (r : Response)
    (res : option OnRequestHookResult) : Prop :=
  ∃ l, run endResponse_handle (hook (onRequest_payload request serverContext)) None
       = (l, Some r, Normal res).

(** The completion hooks among what the hooks numbered from [i] returned,
    each with the number of the hook that returned it. *)
Fixpoint returned_done_hooks (i : nat) (results : list (option OnRequestHookResult))
    : list (nat * OnRequestDoneHook) :=
  match results with
  | [] => []
  | res :: rest =>
      match res ≫= onRequestDone with
      | Some hook => [(i, hook)]
      | None => []
      end ++ returned_done_hooks (S i) rest
  end.



(** The loop up to the hook that ends the response: the hooks before it
    and the hook itself are invoked in order, no hook after it is, and
    the accumulated completion hooks are run on the response. *)
Lemma onRequest_loop_ends pre h post results r res :
  Forall2 passes pre results →
  ends h r res →
  ∀ i dones,
    let all := dones ++ returned_done_hooks i (results ++ [res]) in
    ∃ l,
      onRequest_loop request serverContext i (pre ++ h :: post) dones
      = (l ++ (run_onRequestDoneHooks all r).1,
         match (run_onRequestDoneHooks all r).2 with
         | Normal r' => Normal (Some r', all)
         | Thrown e => Thrown e
         end)
      ∧ onRequest_events l = seq i (S (length pre))
      ∧ onRequestDone_events l = [] ∧ parse_events l = []
      ∧ getEnveloped_events l = [] ∧ processRequest_events l = [].
Proof.
  intros Hpre [lh Hh]. induction Hpre as [|hook res0 pre results [l0 Hhook] _ IH];
    intros i dones all.
  - hook_log Hh. exists (EvOnRequest i :: lh). split.
    + cbn [app onRequest_loop]. unfold tell, mbind at 1, L_mbind at 1.
      change (exec endResponse_handle _ None)
        with (exec endResponse_handle (h (onRequest_payload request serverContext)) None).
      rewrite (exec_normal _ _ _ _ _ _ Hh). cbn [mbind L_mbind app].
      subst all. cbn [app returned_done_hooks].
      rewrite app_nil_r.
      destruct (res ≫= onRequestDone) as [d|]; rewrite ?app_nil_r.
      all: destruct (run_onRequestDoneHooks _ r) as [ld [r'|e]]; cbn;
        by rewrite ?app_nil_r.
    + unfold onRequest_events, onRequestDone_events, parse_events, getEnveloped_events,
        processRequest_events in *. simpl. by repeat split; try f_equal.
  - hook_log Hhook.
    destruct (IH (S i) (dones ++ returned_done_hooks i [res0]))
      as (l & Hloop & Hev & ? & ? & ? & ?).
    exists (EvOnRequest i :: l0 ++ l). split.
    + cbn [app onRequest_loop]. unfold tell, mbind at 1, L_mbind at 1.
      change (exec endResponse_handle _ None)
        with (exec endResponse_handle (hook (onRequest_payload request serverContext)) None).
      rewrite (exec_normal _ _ _ _ _ _ Hhook). cbn [mbind L_mbind app].
      cbn [returned_done_hooks app] in Hloop. rewrite app_nil_r in Hloop.
      subst all. cbn [app returned_done_hooks]. rewrite app_assoc.
      replace (match res0 ≫= onRequestDone with
               | Some hook0 => dones ++ [(i, hook0)]
               | None => dones
               end)
        with (dones ++ match res0 ≫= onRequestDone with
                       | Some hook0 => [(i, hook0)]
                       | None => []
                       end)
        by (destruct (res0 ≫= onRequestDone); by rewrite ?app_nil_r).
      rewrite Hloop. by rewrite <- !app_assoc.
    + unfold onRequest_events, onRequestDone_events, parse_events, getEnveloped_events,
        processRequest_events in *. simpl. rewrite !omap_app.
      repeat match goal with H : omap _ l0 = [] |- _ => rewrite H; clear H end.
      repeat match goal with H : omap _ l = [] |- _ => rewrite H; clear H end.
      simpl. by repeat split; try f_equal.
Qed.

End Intercept.



Section Lifecycle.
Context {Enveloped : Type}.
Variable processRequest : ProcessRequestArgs Enveloped → Outcome Response.
Variable JSON_stringify : JSValue → string.

Lemma handleRequest_normal this request serverContext l response :
  handleRequest_try processRequest this request serverContext = (l, Normal response) →
  handleRequest processRequest JSON_stringify this request serverContext
  = (l, Normal response).
Proof. unfold handleRequest. by intros ->. Qed.

Lemma handleRequest_thrown this request serverContext l e :
  handleRequest_try processRequest this request serverContext = (l, Thrown e) →
  handleRequest processRequest JSON_stringify this request serverContext
  = (l ++ (fatal_response JSON_stringify e).1, (fatal_response JSON_stringify e).2).
Proof. unfold handleRequest. intros ->. simpl. by destruct (fatal_response _ e). Qed.


End Lifecycle.

(** ** Stand-ins for the collaborators

    The examples below run the lifecycle on concrete servers; these take the
    place of the platform and of the execution engine there. *)

Module Doubles.

Definition quote (s : string) : string :=
  let q := String (ascii_of_nat 34) "" in
  let fix escape (s : string) : string :=
    match s with
    | EmptyString => EmptyString
    | String c s' =>
        if bool_decide (c = ascii_of_nat 34) || bool_decide (c = ascii_of_nat 92)
        then String (ascii_of_nat 92) (String c (escape s'))
        else String c (escape s')
    end in
  q +:+ escape s +:+ q.

Definition is_undefined (v : JSValue) : bool :=
  match v with JUndefined => true | _ => false end.

(** [JSON.stringify] on the values of this development. *)
Fixpoint JSON_stringify (v : JSValue) : string :=
  match v with
  | JUndefined | JNull => "null"
  | JBool b => if b then "true" else "false"
  | JNumber n => JSString.of_Z n
  | JString s => quote s
  | JArray xs => "[" +:+ JSString.join "," (map JSON_stringify xs) +:+ "]"
  | JObject _ props =>
      "{" +:+ JSString.join ","
                (flat_map (λ '(k, v),
                   if is_undefined v then []
                   else [quote k +:+ ":" +:+ JSON_stringify v]) props) +:+ "}"
  | JRequest _ => "{}"
  end.

(** [JSON.parse], on the one document the examples parse. *)
Definition JSON_parse (s : string) : Outcome JSValue :=
  if bool_decide (s = message_body "alive")
  then Normal (JObject ObjectProto [("message", JString "alive")])
  else Thrown (new_Error "Unexpected token in JSON").

Definition Enveloped : Type := unit.

Definition envelop (_ : list (option Plugin)) (_ : JSRecord) : Outcome Enveloped :=
  Normal tt.

(** An engine that answers every operation with [{"data":null}]. *)
Definition processRequest (_ : ProcessRequestArgs Enveloped) : Outcome Response :=
  Normal (Response_new (BodyString (JSON_stringify (JObject ObjectProto [("data", JNull)])))
            (Some (mkResponseInit (Some 200) None
               (Some {["Content-Type" := "application/json"]})))).

(** A network without a peer. *)
Definition fetch : FetchFn := λ _, Thrown (new_TypeError "fetch failed").

Definition Date_now : string := "1650000000000".

Definition shouldRenderGraphiQL (r : Request) : bool :=
  bool_decide (req_method r = "GET")
  && JSString.includes (default "" (request_header "accept" r)) "text/html".

Definition renderGraphiQL : GraphiQLRenderer := λ _, Normal (BodyString "<html></html>").

(** A parser plugin that installs [parser] for the requests of [method]. *)
Definition parser_for (method : string) (parser : RequestParser) : OnRequestParseHook :=
  λ payload,
    if bool_decide (req_method (parse_request payload) = method)
    then setRequestParser payload parser ;; Ret None
    else Ret None.

Definition greetings : GraphQLParams := {["query" := JString "{greetings}"]}.

Definition GET_hook : OnRequestParseHook := parser_for "GET" (λ _, Normal greetings).
Definition POST_hook : OnRequestParseHook := parser_for "POST" (λ _, Normal greetings).
Definition multipart_hook : OnRequestParseHook := λ _, Ret None.

Definition new_server (options : YogaServerOptions) : YogaServer Enveloped :=
  new_YogaServer envelop JSON_parse fetch fetch Date_now
    shouldRenderGraphiQL renderGraphiQL GET_hook POST_hook multipart_hook options.

Definition handle (this : YogaServer Enveloped) (request : Request)
    (serverContext : option ServerContext) : L Response :=
  handleRequest processRequest JSON_stringify this request serverContext.

(** [createServer({ cors: false, graphiql: false, plugins })] *)
Definition bare_options (plugins : list Plugin) : YogaServerOptions :=
  {| opt_logging := None; opt_maskedErrors := None; opt_context := false;
     opt_cors := Some (CORSPluginBool false); opt_endpoint := None;
     opt_graphiql := Some (GraphiQLStatic (GraphiQLBool false));
     opt_renderGraphiQL := None; opt_parserCache := None;
     opt_validationCache := None; opt_fetch := None; opt_multipart := None;
     opt_id := None; opt_plugins := Some plugins |}.

(** [createServer({ plugins })] *)
Definition default_options (plugins : list Plugin) : YogaServerOptions :=
  {| opt_logging := None; opt_maskedErrors := None; opt_context := false;
     opt_cors := None; opt_endpoint := None; opt_graphiql := None;
     opt_renderGraphiQL := None; opt_parserCache := None;
     opt_validationCache := None; opt_fetch := None; opt_multipart := None;
     opt_id := None; opt_plugins := Some plugins |}.

Definition onRequest_plugin (hook : OnRequestHook) : Plugin :=
  {| onRequest := Some hook; onRequestParse := None |}.

Definition post_graphql : Request :=
  mkRequest "POST" "http://localhost/graphql"
    (Headers_new {["Content-Type" := "application/json"]}).

End Doubles.

(** *** C1 on concrete servers *)

Module C1Examples.
Import Doubles.







Definition early : Response := Response_new (BodyString "early") None.



End C1Examples.



(** ** Logs of the phases *)

(** Every event a run logs satisfies [P]. *)
Definition logs (P : Event → Prop) {A} (m : L A) : Prop := Forall P m.1.

Section Logs.
Context (P : Event → Prop) (Hambient : ∀ ev, ambient ev → P ev).

Lemma logs_mret {A} (a : A) : logs P (mret a).
Proof. constructor. Qed.


Lemma logs_tell ev : P ev → logs P (tell ev).
Proof. intros. by repeat constructor. Qed.

Lemma logs_bind {A B} (m : L A) (f : A → L B) :
  logs P m → (∀ a, logs P (f a)) → logs P (m ≫= f).
Proof.
  unfold logs. destruct m as [l [a|e]]; simpl; intros Hm Hf; [|done].
  specialize (Hf a). destruct (f a) as [l' o]. simpl in *. by apply Forall_app.
Qed.

Lemma logs_exec {C S A} (handle : C → S → S) (t : Task C A) (s : S) :
  logs P (exec handle t s).
Proof.
  unfold logs, exec. pose proof (run_ambient handle t s) as H.
  destruct (run handle t s) as [[l s'] o]. simpl in *.
  eapply Forall_impl; [exact H|exact Hambient].
Qed.

Lemma logs_try_catch {A} (m : L A) handler :
  logs P m → (∀ e, logs P (handler e)) → logs P (try_catch m handler).
Proof.
  unfold logs. destruct m as [l [a|e]]; simpl; intros Hm Hh; [done|].
  specialize (Hh e). destruct (handler e) as [l' o]. simpl in *. by apply Forall_app.
Qed.

Lemma logs_run_onRequestDoneHooks hooks response :
  (∀ i r, P (EvOnRequestDone i r)) → logs P (run_onRequestDoneHooks hooks response).
Proof.
  intros HP. revert response. induction hooks as [|[i hook] hooks IH]; intros response.
  - apply logs_mret.
  - cbn [run_onRequestDoneHooks onRequest_loop onRequestParse_loop onRequestParseDone_loop].
    apply logs_bind; [by apply logs_tell|]. intros _.
    apply logs_bind; [apply logs_exec|]. intros [r []]. apply IH.
Qed.

Lemma logs_onRequest_loop request serverContext i hooks dones :
  (∀ i, P (EvOnRequest i)) → (∀ i r, P (EvOnRequestDone i r)) →
  logs P (onRequest_loop request serverContext i hooks dones).
Proof.
  intros HP HP'. revert i dones. induction hooks as [|hook hooks IH]; intros i dones.
  - apply logs_mret.
  - cbn [run_onRequestDoneHooks onRequest_loop onRequestParse_loop onRequestParseDone_loop].
    apply logs_bind; [by apply logs_tell|]. intros _.
    apply logs_bind; [apply logs_exec|]. intros [[r|] res].
    + apply logs_bind; [by apply logs_run_onRequestDoneHooks|]. intros r'.
      apply logs_mret.
    + apply IH.
Qed.

Lemma logs_onRequestParse_loop request serverContext i hooks st pdl :
  (∀ i, P (EvOnRequestParse i)) →
  logs P (onRequestParse_loop request serverContext i hooks st pdl).
Proof.
  intros HP. revert i st pdl. induction hooks as [|hook hooks IH]; intros i st pdl.
  - apply logs_mret.
  - cbn [run_onRequestDoneHooks onRequest_loop onRequestParse_loop onRequestParseDone_loop].
    apply logs_bind; [by apply logs_tell|]. intros _.
    apply logs_bind; [apply logs_exec|]. intros [st' res]. apply IH.
Qed.

Lemma logs_onRequestParseDone_loop i hooks params :
  (∀ i p, P (EvOnRequestParseDone i p)) →
  logs P (onRequestParseDone_loop i hooks params).
Proof.
  intros HP. revert i params. induction hooks as [|hook hooks IH]; intros i params.
  - apply logs_mret.
  - cbn [run_onRequestDoneHooks onRequest_loop onRequestParse_loop onRequestParseDone_loop].
    apply logs_bind; [by apply logs_tell|]. intros _.
    apply logs_bind; [apply logs_exec|]. intros [p' []]. apply IH.
Qed.


End Logs.

Lemma omap_logs {B} (f : Event → option B) (l : list Event) :
  Forall (λ ev, f ev = None) l → omap f l = [].
Proof. induction 1 as [|ev l Hev _ IH]; [done|]. simpl. by rewrite Hev. Qed.

(** ** The fatal fallback (C3, C6) *)

Definition is_nullish (v : JSValue) : bool :=
  match v with
  | JUndefined | JNull => true
  | _ => false
  end.

(** The entry of the [errors] list for a caught [error]: the error itself
    when it is a [GraphQLError], an object with its [message] otherwise. *)
Definition error_entry (error : JSValue) : JSValue :=
  if instanceof_GraphQLError error then error
  else JObject ObjectProto
         [("message", match get_property "message" error with
                      | Normal message => message
                      | Thrown _ => JUndefined
                      end)].

Section Fatal.
Context {Enveloped : Type}.
Variable processRequest : ProcessRequestArgs Enveloped → Outcome Response.
Variable JSON_stringify : JSValue → string.

(** The response of the [catch] block. *)
Definition internal_server_error (error : JSValue) : Response :=
  Response_new
    (BodyString (JSON_stringify (JObject ObjectProto [("errors", JArray [error_entry error])])))
    (Some (mkResponseInit (Some 500) (Some "Internal Server Error") None)).

Lemma fatal_response_defined error :
  is_nullish error = false →
  fatal_response JSON_stringify error = ([], Normal (internal_server_error error)).
Proof.
  intros Hnn. unfold fatal_response, internal_server_error, error_entry.
  destruct error as [| | | | | |[] props|]; try done.
Qed.

Lemma fatal_response_nullish error :
  is_nullish error = true →
  ∃ e, fatal_response JSON_stringify error = ([], Thrown e).
Proof. destruct error; try done; intros _; by eexists. Qed.

(** A failure that is neither [undefined] nor [null] is answered with
    status 500 and the single error. *)
Lemma handleRequest_failure this request serverContext l error :
  handleRequest_try processRequest this request serverContext = (l, Thrown error) →
  is_nullish error = false →
  handleRequest processRequest JSON_stringify this request serverContext
  = (l, Normal (internal_server_error error)).
Proof.
  intros Htry Hnn. rewrite (handleRequest_thrown _ _ _ _ _ _ _ Htry).
  rewrite (fatal_response_defined _ Hnn). simpl. by rewrite app_nil_r.
Qed.

(** [handleRequest] returns a response unless what was thrown is
    [undefined] or [null]: reading the message of such a value throws
    in the [catch] block. *)
Lemma handleRequest_outcome this request serverContext :
  match handleRequest_try processRequest this request serverContext with
  | (l, Normal response) =>
      handleRequest processRequest JSON_stringify this request serverContext
      = (l, Normal response)
  | (l, Thrown error) =>
      if is_nullish error
      then ∃ e, handleRequest processRequest JSON_stringify this request serverContext
                = (l, Thrown e)
      else handleRequest processRequest JSON_stringify this request serverContext
           = (l, Normal (internal_server_error error))
  end.
Proof.
  destruct (handleRequest_try _ _ _ _) as [l [response|error]] eqn:Htry.
  - by apply handleRequest_normal.
  - destruct (is_nullish error) eqn:Hnn.
    + destruct (fatal_response_nullish _ Hnn) as [e He]. exists e.
      rewrite (handleRequest_thrown _ _ _ _ _ _ _ Htry), He. simpl.
      by rewrite app_nil_r.
    + by apply handleRequest_failure.
Qed.

(** C6 (as amended). Whenever the lifecycle reaches the parse step and the
    active request parser fails with an error, the response returned to
    the client has status 500 and a GraphQL-shaped error list as its
    body: one entry, the error itself when it is a [GraphQLError], an
    object with its message otherwise. *)
Theorem C6_parse_failure_is_500 (this : YogaServer Enveloped) request serverContext
    l1 dones l2 who parser pdl error :
  onRequest_loop request serverContext 0 (onRequestHooks this) []
    = (l1, Normal (None, dones)) →
  onRequestParse_loop request serverContext 0 (onRequestParseHooks this)
    (None, λ _, Normal ∅) [] = (l2, Normal ((who, parser), pdl)) →
  parser request = Thrown error →
  is_nullish error = false →
  ∃ response,
    (handleRequest processRequest JSON_stringify this request serverContext).2
      = Normal response
    ∧ status response = 500
    ∧ body response
      = BodyString (JSON_stringify
          (JObject ObjectProto [("errors", JArray [error_entry error])])).
Proof.
  intros Hintercept Hselect Hparse Hnn.
  assert (Htry : handleRequest_try processRequest this request serverContext
                 = (l1 ++ l2 ++ [EvDebug "Extracting GraphQL Parameters";
                                 EvParse who (Thrown error)], Thrown error)).
  { unfold handleRequest_try.
    rewrite (L_bind_normal _ _ _ _ Hintercept). cbn [fst snd].
    rewrite (L_bind_normal _ _ _ _ Hselect). cbn [fst snd].
    rewrite Hparse. reflexivity. }
  rewrite (handleRequest_failure _ _ _ _ _ Htry Hnn).
  eexists. split; [reflexivity|]. done.
Qed.

End Fatal.

(** *** C3 and C6 on concrete servers *)

Module FatalExamples.
Import Doubles.

(** A plugin whose hook rejects without a reason: [throw undefined]. *)
Definition undefined_thrower : Plugin :=
  onRequest_plugin (λ _, Throw JUndefined).

Definition throwing_server : YogaServer Enveloped :=
  new_server (default_options [undefined_thrower]).

(** A body parser that rejects malformed JSON. *)
Definition RequestParseError : JSValue :=
  new_Error "Unexpected token } in JSON at position 1".

Definition strict_POST_parser : OnRequestParseHook :=
  parser_for "POST" (λ _, Thrown RequestParseError).

(** [createServer()] with that parser for POST requests. *)
Definition parsing_server : YogaServer Enveloped :=
  new_YogaServer envelop JSON_parse fetch fetch Date_now
    shouldRenderGraphiQL renderGraphiQL
    (parser_for "GET" (λ _, Normal greetings)) strict_POST_parser (λ _, Ret None)
    (default_options []).

End FatalExamples.

(** C3, the code at the failing input. A plugin's [onRequest] hook throws
    [undefined]; the [catch] block reads [error.message], which throws, and
    [handleRequest] rejects instead of returning a response. *)
Theorem C3_handleRequest_rejects :
  ∃ e, (Doubles.handle FatalExamples.throwing_server Doubles.post_graphql None).2
       = Thrown e.
Proof. eexists. vm_compute. reflexivity. Qed.

Lemma C6_parse_failure_is_500_witness :
  ∃ response,
    (Doubles.handle FatalExamples.parsing_server Doubles.post_graphql None).2
      = Normal response
    ∧ status response = 500
    ∧ body response
      = BodyString (Doubles.JSON_stringify
          (JObject ObjectProto
             [("errors", JArray [error_entry FatalExamples.RequestParseError])])).
Proof.
  eapply (C6_parse_failure_is_500 Doubles.processRequest Doubles.JSON_stringify
            FatalExamples.parsing_server Doubles.post_graphql None).
  - vm_compute. reflexivity.
  - vm_compute. reflexivity.
  - reflexivity.
  - reflexivity.
Defined.

(** C6, counterexample. The active parser fails on a malformed POST body;
    the response has status 500, which is not a 4xx status. *)
Lemma C6_parse_failure_not_4xx :
  ¬ ∃ response,
      (Doubles.handle FatalExamples.parsing_server Doubles.post_graphql None).2
        = Normal response
      ∧ 400 ≤ status response < 500.
Proof.
  intros (response & Hresp & Hstatus).
  vm_compute in Hresp. injection Hresp as <-. simpl in Hstatus. lia.
Qed.

(** ** From the parse step on *)

Lemma L_tell_bind {B} ev (m : L B) : (tell ev ;; m) = (ev :: m.1, m.2).
Proof. unfold tell, mbind, L_mbind. by destruct m. Qed.

Section AfterSelection.
Context {Enveloped : Type}.
Variable processRequest : ProcessRequestArgs Enveloped → Outcome Response.
Variable JSON_stringify : JSValue → string.

(** Steps 4 to 6: the context, the engine, the completion hooks. *)
Definition engine_phase (this : YogaServer Enveloped) (request : Request)
    (serverContext : option ServerContext) (dones : list (nat * OnRequestDoneHook))
    (params : GraphQLParams) : L Response :=
  let initialContext := initialContext_of request params serverContext in
  tell (EvGetEnveloped initialContext) ;;
  enveloped ← lift (getEnveloped this initialContext) ;
  tell (EvDebug "Processing GraphQL Parameters") ;;
  tell (EvProcessRequest (initialContext !! "query") (initialContext !! "variables")
          (initialContext !! "operationName")) ;;
  response ← lift (processRequest
    {| pr_request := request;
       pr_query := initialContext !! "query";
       pr_variables := initialContext !! "variables";
       pr_operationName := initialContext !! "operationName";
       pr_enveloped := enveloped |}) ;
  response ← run_onRequestDoneHooks dones response ;
  mret response.

(** What follows the invocation of the parser, given its result. *)
Definition after_parse (this : YogaServer Enveloped) (request : Request)
    (serverContext : option ServerContext) (dones : list (nat * OnRequestDoneHook))
    (pdl : list OnRequestParseDoneHook) (result : Outcome GraphQLParams) : L Response :=
  params ← lift result ;
  params ← onRequestParseDone_loop 0 pdl params ;
  engine_phase this request serverContext dones params.

(** The [try] block once no hook has ended the response and the parser is
    selected. *)
Lemma handleRequest_try_selected this request serverContext l1 dones l2 who parser pdl :
  onRequest_loop request serverContext 0 (onRequestHooks this) []
    = (l1, Normal (None, dones)) →
  onRequestParse_loop request serverContext 0 (onRequestParseHooks this)
    (None, λ _, Normal ∅) [] = (l2, Normal ((who, parser), pdl)) →
  let rest := after_parse this request serverContext dones pdl (parser request) in
  handleRequest_try processRequest this request serverContext
  = (l1 ++ l2 ++ [EvDebug "Extracting GraphQL Parameters";
                  EvParse who (parser request)] ++ rest.1, rest.2).
Proof.
  intros Hintercept Hselect rest. unfold handleRequest_try.
  rewrite (L_bind_normal _ _ _ _ Hintercept). cbn [fst snd].
  rewrite (L_bind_normal _ _ _ _ Hselect). cbn [fst snd].
  rewrite !L_tell_bind. cbn [fst snd]. reflexivity.
Qed.




End AfterSelection.

(** ** The parser-selection phase (C2) *)


Section Selection.
Context (request : Request) (serverContext : option ServerContext).






End Selection.

Section LastWriterWins.
Context {Enveloped : Type}.
Variable processRequest : ProcessRequestArgs Enveloped → Outcome Response.
Variable JSON_stringify : JSValue → string.


End LastWriterWins.

(** *** C2 on a concrete server *)

Module C2Examples.
Import Doubles.







Definition plain_server : YogaServer Enveloped :=
  new_server (default_options []).





End C2Examples.




(** ** The initial context (C10) *)


Section Context.
Context {Enveloped : Type}.
Variable processRequest : ProcessRequestArgs Enveloped → Outcome Response.
Variable JSON_stringify : JSValue → string.

Lemma fatal_response_log e : (fatal_response JSON_stringify e).1 = [].
Proof.
  unfold fatal_response.
  by destruct (instanceof_GraphQLError e), (get_property "message" e).
Qed.

(** The [catch] block adds nothing to the log. *)
Lemma handleRequest_log this request serverContext :
  (handleRequest processRequest JSON_stringify this request serverContext).1
  = (handleRequest_try processRequest this request serverContext).1.
Proof.
  unfold handleRequest.
  destruct (handleRequest_try _ _ _ _) as [l [r|e]]; [done|].
  pose proof (fatal_response_log e) as Hf. simpl.
  destruct (fatal_response JSON_stringify e) as [l' o]. simpl in *. subst.
  by rewrite app_nil_r.
Qed.



End Context.

(** *** C10 on a concrete server: a [serverContext] with a [query] *)



(** ** A response produced in the early-intercept phase *)

Section EarlyResponse.
Context {Enveloped : Type}.
Variable processRequest : ProcessRequestArgs Enveloped → Outcome Response.
Variable JSON_stringify : JSValue → string.




End EarlyResponse.

(** ** The [onRequest] hooks of a server (C7) *)

(** The [onRequest] hook of a plugin that has one. *)
Definition hook_of (plugin : Plugin) : OnRequestHook :=
  default (λ _, Ret None) (onRequest plugin).

Lemma omap_Some_fmap {A B} (f : A → option B) (l : list A) :
  omap (λ x, x ≫= f) (Some <$> l) = omap f l.
Proof.
  induction l as [|x l IH]; [done|].
  rewrite fmap_cons. cbn [omap list_omap mbind option_bind]. by rewrite IH.
Qed.


Section ServerHooks.
Context {Enveloped : Type}.
Variable envelop : list (option Plugin) → JSRecord → Outcome Enveloped.
Variable processRequest : ProcessRequestArgs Enveloped → Outcome Response.
Variable JSON_stringify : JSValue → string.
Variable JSON_parse : string → Outcome JSValue.
Variables crossUndiciFetch_fetch globalThis_fetch : FetchFn.
Variable Date_now : string.
Variable shouldRenderGraphiQL : Request → bool.
Variable renderGraphiQL : GraphiQLRenderer.
Variables GETRequestParser POSTRequestParser POSTMultipartRequestParser : OnRequestParseHook.

(** [new YogaServer(options)] *)
Definition server (options : YogaServerOptions) : YogaServer Enveloped :=
  new_YogaServer envelop JSON_parse crossUndiciFetch_fetch globalThis_fetch Date_now
    shouldRenderGraphiQL renderGraphiQL
    GETRequestParser POSTRequestParser POSTMultipartRequestParser options.

Definition cors_enabled (options : YogaServerOptions) : bool :=
  negb (is_false cors_bool (opt_cors options)).

Definition graphiql_enabled (options : YogaServerOptions) : bool :=
  negb (is_false graphiql_bool (opt_graphiql options)).

Definition graphiql_config (options : YogaServerOptions) : GraphiQLPluginConfig :=
  {| gq_endpoint := opt_endpoint options;
     gq_options := opt_graphiql options;
     gq_render := opt_renderGraphiQL options |}.

Definition health_options (options : YogaServerOptions) : HealthCheckPluginOptions :=
  {| hc_id := Some (default "yoga" (opt_id options));
     hc_fetch := Some (default crossUndiciFetch_fetch (opt_fetch options)) |}.

Definition health_plugin (options : YogaServerOptions) : Plugin :=
  useHealthCheck Date_now globalThis_fetch JSON_parse (Some (health_options options)).

(** The identity the health-check plugin of the server answers with. *)
Definition identity_token (options : YogaServerOptions) : string :=
  healthCheck_id Date_now (Some (health_options options)).

(** The hooks of the early-intercept phase, in order: CORS and GraphiQL
    when enabled, the health check, the plugins of the caller. *)
Lemma onRequestHooks_server options :
  onRequestHooks (server options)
  = (if cors_enabled options then [hook_of (useCORS (opt_cors options))] else [])
    ++ (if graphiql_enabled options
        then [hook_of (useGraphiQL shouldRenderGraphiQL renderGraphiQL
                         (graphiql_config options))]
        else [])
    ++ hook_of (health_plugin options)
       :: omap onRequest (default [] (opt_plugins options)).
Proof.
  unfold server, new_YogaServer, cors_enabled, graphiql_enabled.
  cbn [onRequestHooks]. rewrite !omap_app, omap_Some_fmap.
  assert (Henv : ∀ c, enableIf c envelopPlugin ≫= onRequest = None) by (by intros []).
  assert (Hpar : ∀ c hook, enableIf c (parserPlugin hook) ≫= onRequest = None)
    by (by intros []).
  assert (Hsome : ∀ hook, Some (parserPlugin hook) ≫= onRequest = None) by done.
  cbn [omap list_omap]. rewrite !Henv, !Hpar, !Hsome.
  destruct (negb (is_false cors_bool (opt_cors options))),
    (negb (is_false graphiql_bool (opt_graphiql options))); cbn;
    by rewrite app_nil_r.
Qed.

(** The requests the GraphiQL plugin lets pass: the path ends with the
    endpoint when one is set, and GraphiQL is not to be rendered. *)
Definition graphiql_lets_pass (options : YogaServerOptions) (request : Request)
    (serverContext : option ServerContext) : bool :=
  match opt_endpoint options with
  | Some endpoint =>
      JSString.endsWith (JSString.split_head "?" (req_url request)) endpoint
  | None => true
  end
  && (negb (shouldRenderGraphiQL request)
      || match graphiqlOptionsFactory_of (opt_graphiql options) request serverContext with
         | OptionsValue (GraphiQLBool false) => true
         | _ => false
         end).

Lemma graphiql_passes options req ctx :
  graphiql_lets_pass options req ctx = true →
  passes req ctx
    (hook_of (useGraphiQL shouldRenderGraphiQL renderGraphiQL (graphiql_config options)))
    None.
Proof.
  unfold graphiql_lets_pass, passes, hook_of, useGraphiQL, graphiql_config.
  cbn [onRequest default from_option Datatypes.id gq_endpoint gq_options gq_render].
  intros [Hend Hrender]%andb_prop.
  unfold onRequest_payload. cbn [request serverContext].
  destruct (opt_endpoint options) as [endpoint|]; rewrite ?Hend; cbn [negb].
  all: destruct (shouldRenderGraphiQL req); simpl in Hrender.
  all: try (by eexists).
  all: destruct (graphiqlOptionsFactory_of _ _ _) as [[[]|]|]; try done; by eexists.
Qed.

Lemma cors_passes options req ctx :
  JSString.toUpperCase (req_method req) ≠ "OPTIONS" →
  passes req ctx (hook_of (useCORS (opt_cors options)))
    (Some {| onRequestDone :=
       Some (CORS_onRequestDone (corsOptionsFactory_of (opt_cors options))
               req ctx) |}).
Proof.
  intros Hmethod. unfold passes, hook_of, useCORS.
  cbn [onRequest default from_option Datatypes.id]. unfold onRequest_payload.
  cbn [request serverContext]. rewrite bool_decide_false by done. by eexists.
Qed.







End ServerHooks.

(** *** C7 on concrete requests *)

Definition get_health : Request :=
  mkRequest "GET" "http://localhost/health" ∅.

Definition options_health : Request :=
  mkRequest "OPTIONS" "http://localhost/health"
    (Headers_new {["Origin" := "http://a.test"]}).



(** With an endpoint configured the GraphiQL plugin, which comes before
    the health check, answers 404 to a path that does not end with it:
    the liveness endpoint is then not reached either. *)
Lemma health_behind_endpoint :
  let options :=
    {| opt_logging := None; opt_maskedErrors := None; opt_context := false;
       opt_cors := None; opt_endpoint := Some "/graphql"; opt_graphiql := None;
       opt_renderGraphiQL := None; opt_parserCache := None;
       opt_validationCache := None; opt_fetch := None; opt_multipart := None;
       opt_id := None; opt_plugins := None |} in
  ∃ response,
    (Doubles.handle (Doubles.new_server options) get_health None).2 = Normal response
    ∧ status response = 404.
Proof. eexists. split; [vm_compute; reflexivity|reflexivity]. Qed.

(** ** The readiness probe (C8) *)

Lemma endsWith_readiness_not_health path :
  JSString.endsWith path "/readiness" = true →
  JSString.endsWith path "/health" = false.
Proof.
  unfold JSString.endsWith.
  change (String.rev "/readiness") with "ssenidaer/".
  change (String.rev "/health") with "htlaeh/".
  destruct (String.rev path) as [|c s]; [done|]. cbn [JSString.startsWith].
  destruct (Ascii.eqb "s" c) eqn:Hc; [|done].
  apply Ascii.eqb_eq in Hc as <-. done.
Qed.

Section Readiness.
Context {Enveloped : Type}.
Variable processRequest : ProcessRequestArgs Enveloped → Outcome Response.
Variable JSON_stringify : JSValue → string.
Variable JSON_parse : string → Outcome JSValue.
Variable Date_now : string.
Variable globalThis_fetch : FetchFn.

(** What [JSON.parse] throws is an error object. *)
Hypothesis JSON_parse_throws_errors :
  ∀ s e, JSON_parse s = Thrown e → is_nullish e = false.

Variable options : HealthCheckPluginOptions.

Definition fetch : FetchFn := default globalThis_fetch (hc_fetch options).







End Readiness.

(** *** C8 on concrete servers *)

Module C8Examples.
Import Doubles.




Definition get_readiness : Request :=
  mkRequest "GET" "http://localhost/readiness" ∅.



End C8Examples.


(** ** The multipart upload decoder, its limits (C9) *)

Module MultipartFacts.
Import Multipart.

Lemma header_total_snoc arrived frame :
  header_total (arrived ++ [frame])
  = (header_total arrived + match frame with
                            | PartHeader _ _ hb => hb
                            | Chunk _ => 0
                            end)%N.
Proof.
  unfold header_total. induction arrived as [|f arrived IH]; simpl.
  - destruct frame; lia.
  - rewrite IH. destruct f; lia.
Qed.

Lemma file_count_snoc arrived frame :
  file_count (arrived ++ [frame])
  = (file_count arrived + match frame with
                          | PartHeader _ File _ => 1
                          | _ => 0
                          end)%N.
Proof.
  unfold file_count. induction arrived as [|f arrived IH]; simpl.
  - destruct frame as [? [] ?|]; lia.
  - rewrite IH. destruct f as [? [] ?|]; lia.
Qed.

(** The state of the decoder follows the frames that have arrived. *)
Definition tracks (st : State) (arrived : list Frame) : Prop :=
  header_bytes_seen st = header_total arrived
  ∧ files_seen st = file_count arrived
  ∧ open_part (rev arrived) = (λ part, (part_kind part, part_size part)) <$> current st.

Lemma tracks_initial : tracks initial [].
Proof. done. Qed.

Lemma not_exceeded_initial limits limit : ¬ exceeded limits [] limit.
Proof. destruct limit; simpl; try lia; by intros (? & ? & _). Qed.

(** One step: it aborts with a limit that the arrival of the frame
    exceeds, and goes on only when the frame exceeds none. *)
Lemma step_spec limits st arrived frame :
  tracks st arrived →
  (∀ limit, ¬ exceeded limits arrived limit) →
  match step limits st frame with
  | inl limit => exceeded limits (arrived ++ [frame]) limit
  | inr st' =>
      tracks st' (arrived ++ [frame])
      ∧ ∀ limit, ¬ exceeded limits (arrived ++ [frame]) limit
  end.
Proof.
  intros (Hh & Hf & Ho) Hbefore.
  pose proof (Hbefore HeaderSize) as Hheaders. pose proof (Hbefore Files) as Hfiles.
  simpl in Hheaders, Hfiles.
  destruct frame as [name kind hb|data]; simpl.
  - destruct (N.ltb_spec (headerSize limits) (header_bytes_seen st + hb)) as [Hlt|Hle].
    { simpl. rewrite header_total_snoc. lia. }
    destruct (N.ltb_spec (files limits)
                (files_seen st + match kind with File => 1 | Field => 0 end))
      as [Hlt'|Hle'].
    { simpl. rewrite file_count_snoc. destruct kind; lia. }
    split.
    + unfold tracks. simpl. rewrite header_total_snoc, file_count_snoc, rev_unit.
      split_and!; [lia|destruct kind; lia|done].
    + intros limit. destruct limit; simpl;
        rewrite ?header_total_snoc, ?file_count_snoc, ?rev_unit; simpl.
      * intros (size & Heq & ?). injection Heq as ? ?. lia.
      * destruct kind; lia.
      * intros (size & Heq & ?). injection Heq as ? ?. lia.
      * lia.
  - destruct (current st) as [part|] eqn:Hcur; simpl in Ho.
    + destruct (N.ltb_spec match part_kind part with
                           | File => fileSize limits
                           | Field => fieldSize limits
                           end (part_size part + bytes data)) as [Hlt|Hle].
      * destruct (part_kind part) eqn:Hkind; simpl; rewrite rev_unit; simpl;
          rewrite Ho; eexists; (split; [reflexivity|lia]).
      * split.
        -- unfold tracks. simpl. rewrite header_total_snoc, file_count_snoc, rev_unit.
           simpl. rewrite Ho. split_and!; [lia|lia|done].
        -- intros limit. destruct limit; simpl;
             rewrite ?header_total_snoc, ?file_count_snoc, ?rev_unit; simpl;
             rewrite ?Ho; try lia.
           ++ intros (size & Heq & ?). injection Heq as Hk ?. rewrite Hk in Hle. lia.
           ++ intros (size & Heq & ?). injection Heq as Hk ?. rewrite Hk in Hle. lia.
    + split.
      * unfold tracks. rewrite Hcur, header_total_snoc, file_count_snoc, rev_unit.
        simpl. rewrite Ho. split_and!; [lia|lia|done].
      * intros limit. destruct limit; simpl;
          rewrite ?header_total_snoc, ?file_count_snoc, ?rev_unit; simpl;
          rewrite ?Ho; try lia; by intros (? & ? & _).
Qed.

(** The loop: it aborts on the first frame whose arrival exceeds a limit,
    with a limit exceeded there, and reaches the end of the body only when
    no limit is ever exceeded. *)
Lemma feed_spec limits frames :
  ∀ st arrived consumed,
    tracks st arrived →
    (∀ limit, ¬ exceeded limits arrived limit) →
    match feed limits frames st consumed with
    | inl (limit, n) =>
        ∃ k, n = (consumed + S k)%nat ∧ (k < length frames)%nat
             ∧ exceeded limits (arrived ++ take (S k) frames) limit
             ∧ ∀ m l, (m ≤ k)%nat → ¬ exceeded limits (arrived ++ take m frames) l
    | inr _ => ∀ m l, ¬ exceeded limits (arrived ++ take m frames) l
    end.
Proof.
  induction frames as [|frame frames IH]; intros st arrived consumed Htracks Hbefore.
  - simpl. intros m l. rewrite take_nil, app_nil_r. apply Hbefore.
  - cbn [feed]. pose proof (step_spec limits st arrived frame Htracks Hbefore) as Hstep.
    destruct (step limits st frame) as [limit|st'].
    + exists 0%nat. split_and!; [lia|simpl; lia|done|].
      intros m l Hm. replace m with 0%nat by lia. rewrite take_0, app_nil_r.
      apply Hbefore.
    + destruct Hstep as [Htracks' Hafter].
      specialize (IH st' (arrived ++ [frame]) (S consumed) Htracks' Hafter).
      destruct (feed limits frames st' (S consumed)) as [[limit n]|st''].
      * destruct IH as (k & -> & Hk & Hex & Hfirst).
        exists (S k). split_and!; [lia|simpl; lia|..].
        -- by rewrite <- app_assoc in Hex.
        -- intros [|m] l Hm.
           ++ rewrite take_0, app_nil_r. apply Hbefore.
           ++ specialize (Hfirst m l). rewrite <- app_assoc in Hfirst.
              apply Hfirst. lia.
      * intros [|m] l.
        -- rewrite take_0, app_nil_r. apply Hbefore.
        -- specialize (IH m l). by rewrite <- app_assoc in IH.
Qed.

End MultipartFacts.

Section ParseFailure.
Context {Enveloped : Type}.
Variable processRequest : ProcessRequestArgs Enveloped → Outcome Response.
Variable JSON_stringify : JSValue → string.

(** When the active parser throws, no context is built and the engine is
    not invoked: no ParamBag reaches execution. *)
Lemma parse_failure_skips_engine (this : YogaServer Enveloped) request serverContext
    l1 dones l2 who parser pdl e :
  onRequest_loop request serverContext 0 (onRequestHooks this) []
    = (l1, Normal (None, dones)) →
  onRequestParse_loop request serverContext 0 (onRequestParseHooks this)
    (None, λ _, Normal ∅) [] = (l2, Normal ((who, parser), pdl)) →
  parser request = Thrown e →
  let log := (handleRequest processRequest JSON_stringify this request serverContext).1 in
  getEnveloped_events log = [] ∧ processRequest_events log = [].
Proof.
  intros Hintercept Hselect Hparse log. subst log.
  rewrite handleRequest_log.
  rewrite (handleRequest_try_selected processRequest _ _ _ _ _ _ _ _ _ Hintercept Hselect).
  rewrite Hparse. cbn [fst after_parse].
  set (P := λ ev, match ev with
                  | EvGetEnveloped _ | EvProcessRequest _ _ _ => False
                  | _ => True
                  end).
  assert (HambP : ∀ ev, ambient ev → P ev) by (by intros []).
  assert (H1 : Forall P l1).
  { pose proof (logs_onRequest_loop P HambP request serverContext 0
                  (onRequestHooks this) []) as H.
    unfold logs in H. rewrite Hintercept in H. by apply H. }
  assert (H2 : Forall P l2).
  { pose proof (logs_onRequestParse_loop P HambP request serverContext 0
                  (onRequestParseHooks this) (None, λ _, Normal ∅) []) as H.
    unfold logs in H. rewrite Hselect in H. by apply H. }
  assert (HP : ∀ {B} (f : Event → option B) l,
             (∀ ev, P ev → f ev = None) → Forall P l → omap f l = []).
  { intros B f l Hf Hl. apply omap_logs. eapply Forall_impl; [exact Hl|exact Hf]. }
  unfold getEnveloped_events, processRequest_events.
  rewrite !omap_app. rewrite !(HP _ _ l1), !(HP _ _ l2) by (done || by intros []).
  done.
Qed.

End ParseFailure.

(** C9. For every multipart body, if a configured limit (fileSize, files,
    fieldSize, headerSize) is exceeded at some point of the stream, the
    decode aborts on the first frame whose arrival exceeds a limit, not
    later, with a limit that is exceeded there; the parser then throws the
    PayloadTooLargeError of that limit, and in [handleRequest] no context
    is built and the engine is not invoked: no ParamBag is produced. *)
Theorem C9_limit_exceeded_aborts (limits : Multipart.Limits)
    (frames : list Multipart.Frame) (n : nat) (limit : Multipart.Limit) :
  Multipart.exceeded limits (take n frames) limit →
  ∃ limit' n',
    Multipart.feed limits frames Multipart.initial 0 = inl (limit', n')
    ∧ (n' ≤ n)%nat
    ∧ Multipart.exceeded limits (take n' frames) limit'
    ∧ (∀ m l, (m < n')%nat → ¬ Multipart.exceeded limits (take m frames) l)
    ∧ ∀ body_frames bind_parts request,
        body_frames request = frames →
        let parser := Multipart.parsePOSTMultipartRequest body_frames bind_parts limits in
        parser request = Thrown (Multipart.PayloadTooLargeError limit')
        ∧ ∀ (Enveloped : Type) processRequest JSON_stringify (this : YogaServer Enveloped)
            serverContext l1 dones l2 who pdl,
            onRequest_loop request serverContext 0 (onRequestHooks this) []
              = (l1, Normal (None, dones)) →
            onRequestParse_loop request serverContext 0 (onRequestParseHooks this)
              (None, λ _, Normal ∅) [] = (l2, Normal ((who, parser), pdl)) →
            let log :=
              (handleRequest processRequest JSON_stringify this request serverContext).1 in
            getEnveloped_events log = [] ∧ processRequest_events log = [].
Proof.
  intros Hexceeded.
  pose proof (MultipartFacts.feed_spec limits frames Multipart.initial [] 0
                MultipartFacts.tracks_initial
                (MultipartFacts.not_exceeded_initial limits)) as Hfeed.
  destruct (Multipart.feed limits frames Multipart.initial 0) as [[limit' n']|st] eqn:Hrun.
  2:{ exfalso. by apply (Hfeed n limit). }
  destruct Hfeed as (k & -> & Hk & Hex & Hfirst). cbn [app] in *.
  exists limit', (S k). split_and!; [done| |done|..].
  - destruct (decide (S k ≤ n)%nat) as [|Hgt]; [done|exfalso].
    apply (Hfirst n limit); [lia|done].
  - intros m l Hm. apply Hfirst. lia.
  - intros body_frames bind_parts request Hbody.
    assert (Hparse : Multipart.parsePOSTMultipartRequest body_frames bind_parts limits request
                     = Thrown (Multipart.PayloadTooLargeError limit')).
    { unfold Multipart.parsePOSTMultipartRequest. by rewrite Hbody, Hrun. }
    split; [done|].
    intros Enveloped processRequest JSON_stringify this serverContext
      l1 dones l2 who pdl Hintercept Hselect.
    by eapply parse_failure_skips_engine.
Qed.

(** *** C9 on a concrete body *)

Module C9Examples.
Import Multipart.

Definition limits : Limits :=
  {| fileSize := 8; files := 10; fieldSize := 1000; headerSize := 1000 |}.

(** The fields [operations] and [map], then the file [0] in two chunks
    of 5 and 6 bytes, then another field. *)
Definition upload : list Frame :=
  [ PartHeader "operations" Field 60; Chunk "{}";
    PartHeader "map" Field 50; Chunk "{}";
    PartHeader "0" File 80; Chunk "hello"; Chunk " world";
    PartHeader "note" Field 50; Chunk "after the file" ].

End C9Examples.

Lemma C9_limit_exceeded_aborts_witness :
  ∃ limit' n',
    Multipart.feed C9Examples.limits C9Examples.upload Multipart.initial 0
      = inl (limit', n')
    ∧ (n' ≤ 7)%nat.
Proof.
  destruct (C9_limit_exceeded_aborts C9Examples.limits C9Examples.upload 7
              Multipart.FileSize) as (limit' & n' & Hfeed & Hn & _).
  - exists 11%N. split; [reflexivity|]. reflexivity.
  - by exists limit', n'.
Defined.

(** * Further properties of the sources *)

(** ** The CORS calculator, header by header ([getCORSResponseHeaders]) *)

(** Past the allow-origin rules no block assigns
    [Access-Control-Allow-Origin]: while the later blocks run the header
    reads as it is returned. *)
Lemma allow_origin_settled request corsOptions :
  CORSBlocks.allow_headers request corsOptions
    (CORSBlocks.allow_methods request corsOptions
       (CORSBlocks.vary (CORSBlocks.allow_origin request corsOptions))) !! ACAO
  = getCORSResponseHeaders request corsOptions !! ACAO.
Proof.
  rewrite CORSFacts.getCORSResponseHeaders_ACAO.
  rewrite CORSFacts.allow_headers_other, CORSFacts.allow_methods_other,
    CORSFacts.vary_other, CORSFacts.allow_origin_eq by done.
  apply lookup_singleton_eq.
Qed.

(** X1. Whatever the request and the policy, the calculator returns an
    [Access-Control-Allow-Origin] header, and its value is [*], [null] or
    the origin of the request; it is the origin of the request only when the
    request carries a non-empty [cookies] header, and it is [*] when the
    request has no [Origin] header, whatever the allow-list. *)
Theorem cors_allow_origin_values request corsOptions :
  ∃ value,
    getCORSResponseHeaders request corsOptions !! ACAO = Some value
    ∧ (value = "*" ∨ value = "null"
       ∨ (request_header "origin" request = Some value
          ∧ truthy_opt (request_header "cookies" request) = true))
    ∧ (request_header "origin" request = None → value = "*").
Proof.
  exists (CORSFacts.resolved_origin request corsOptions).
  split; [apply CORSFacts.getCORSResponseHeaders_ACAO|].
  unfold CORSFacts.resolved_origin.
  destruct (request_header "origin" request) as [cur|]; cbn [truthy_opt andb default];
    [|by split; [left|]].
  split; [|done].
  destruct (JSString.truthy cur), (truthy_opt (request_header "cookies" request));
    cbn [andb]; destruct (cors_field origin corsOptions) as [o|];
    try destruct (negb (origin_length o =? 0)%nat && negb (origin_includes o cur)
                  && negb (origin_includes o "*"));
    auto.
Qed.

(** X2. A request that carries an [Origin] header (other than the string
    [null]) is denied, that is answered with
    [Access-Control-Allow-Origin: null], exactly when the policy has an
    allow-list that is not empty and holds neither the origin of the request
    nor the wildcard. For an allow-list given as one string, holding is
    being a substring of it. *)
Theorem cors_denied_iff request corsOptions cur :
  request_header "origin" request = Some cur →
  cur ≠ "null" →
  getCORSResponseHeaders request corsOptions !! ACAO = Some "null"
  ↔ ∃ o, cors_field origin corsOptions = Some o
         ∧ origin_length o ≠ 0%nat
         ∧ origin_includes o cur = false
         ∧ origin_includes o "*" = false.
Proof.
  intros Hcur Hnull. rewrite CORSFacts.getCORSResponseHeaders_ACAO.
  unfold CORSFacts.resolved_origin. rewrite Hcur. cbn [truthy_opt default].
  assert (Hnarrowed :
    (if JSString.truthy cur && truthy_opt (request_header "cookies" request)
     then cur else "*") ≠ "null").
  { destruct (JSString.truthy cur && truthy_opt (request_header "cookies" request));
      [done|discriminate]. }
  destruct (cors_field origin corsOptions) as [o|].
  - destruct (Nat.eqb_spec (origin_length o) 0) as [Hlen|Hlen]; cbn [negb andb].
    + split; [intros [= Heq]; by destruct Hnarrowed|].
      intros (o' & [= <-] & Hne & _). done.
    + destruct (origin_includes o cur) eqn:Hin; cbn [negb andb].
      * split; [intros [= Heq]; by destruct Hnarrowed|].
        intros (o' & [= <-] & _ & Hin' & _). congruence.
      * destruct (origin_includes o "*") eqn:Hstar; cbn [negb].
        -- split; [intros [= Heq]; by destruct Hnarrowed|].
           intros (o' & [= <-] & _ & _ & Hstar'). congruence.
        -- split; [|done]. intros _. by exists o.
  - split; [intros [= Heq]; by destruct Hnarrowed|].
    intros (o' & [=] & _).
Qed.

Lemma cors_denied_iff_witness :
  getCORSResponseHeaders preflight_a_test (CORSObject (policy_origin "http://b.test")) !! ACAO
  = Some "null".
Proof.
  apply (cors_denied_iff preflight_a_test (CORSObject (policy_origin "http://b.test"))
           "http://a.test"); [reflexivity|discriminate|].
  exists (OriginList ["http://b.test"]). split_and!; [reflexivity|discriminate|..].
  - vm_compute. reflexivity.
  - vm_compute. reflexivity.
Defined.

(** X3. The [Vary] header that is returned, in all cases: when the policy
    declares no allowed headers and the request asks for some, it is
    [Access-Control-Request-Headers] alone; otherwise it is [Origin] when
    the allow-origin that is returned is not [*], and there is none when
    it is. *)
Theorem cors_vary_header request corsOptions :
  let computed := getCORSResponseHeaders request corsOptions in
  computed !! "Vary" =
    if negb (nonempty_list (cors_field allowedHeaders corsOptions))
       && truthy_opt (request_header "access-control-request-headers" request)
    then Some "Access-Control-Request-Headers"
    else if bool_decide (computed !! ACAO = Some "*") then None else Some "Origin".
Proof.
  cbv zeta. rewrite getCORSResponseHeaders_Vary, CORSFacts.getCORSResponseHeaders_ACAO.
  destruct (negb _ && _); [done|].
  destruct (decide (CORSFacts.resolved_origin request corsOptions = "*")) as [Heq|Hne].
  - rewrite bool_decide_false, bool_decide_true by (rewrite ?Heq; naive_solver). done.
  - rewrite bool_decide_true, bool_decide_false by naive_solver. done.
Qed.

(** X4. The allowed methods and the allowed headers: a list of the policy
    that is not empty is returned joined with [", "], whatever the request
    asks for; without one (none, or an empty one) the non-empty
    [Access-Control-Request-Method], respectively
    [Access-Control-Request-Headers], of the request is returned as it
    came; without that either the header is not set. *)
Theorem cors_reflects_request request corsOptions :
  let computed := getCORSResponseHeaders request corsOptions in
  let reflected (configured : option (list string)) (asked : option string) :=
    if nonempty_list configured then JSString.join ", " <$> configured
    else if truthy_opt asked then asked else None in
  computed !! "Access-Control-Allow-Methods"
    = reflected (cors_field methods corsOptions)
        (request_header "access-control-request-method" request)
  ∧ computed !! "Access-Control-Allow-Headers"
    = reflected (cors_field allowedHeaders corsOptions)
        (request_header "access-control-request-headers" request).
Proof.
  cbv zeta. rewrite CORSBlocks.getCORSResponseHeaders_blocks. split.
  - rewrite lookup_insert_ne, CORSFacts.max_age_other, CORSFacts.expose_headers_other,
      CORSFacts.allow_credentials_other, CORSFacts.allow_headers_other by done.
    unfold CORSBlocks.allow_methods.
    destruct (cors_field methods corsOptions) as [[|m ms]|]; cbn [nonempty_list].
    2:{ by rewrite lookup_insert_eq. }
    all: destruct (request_header "access-control-request-method" request) as [asked|];
      cbn [truthy_opt default]; try destruct (JSString.truthy asked);
      rewrite ?lookup_insert_eq; try done.
    all: by rewrite CORSFacts.vary_other, CORSFacts.allow_origin_eq, lookup_singleton_ne.
  - rewrite lookup_insert_ne, CORSFacts.max_age_other, CORSFacts.expose_headers_other,
      CORSFacts.allow_credentials_other by done.
    unfold CORSBlocks.allow_headers.
    destruct (cors_field allowedHeaders corsOptions) as [[|a l]|]; cbn [nonempty_list].
    2:{ by rewrite lookup_insert_eq. }
    all: destruct (request_header "access-control-request-headers" request) as [asked|];
      cbn [truthy_opt default]; try destruct (JSString.truthy asked);
      rewrite ?(lookup_insert_ne _ "Vary") by done;
      try (destruct (truthy_opt _); rewrite ?(lookup_insert_ne _ "Vary") by done);
      rewrite ?lookup_insert_eq; try done.
    all: by rewrite CORSFacts.allow_methods_other, CORSFacts.vary_other,
           CORSFacts.allow_origin_eq, lookup_singleton_ne.
Qed.

(** X5. [Access-Control-Allow-Credentials] is never returned with another
    value than [true]. With [credentials] set in the policy it is returned
    exactly when that is [true]; with [credentials] unset it is returned
    exactly when the allow-origin that is returned is not [*], a denial
    ([null]) included. *)
Theorem cors_allow_credentials request corsOptions :
  let computed := getCORSResponseHeaders request corsOptions in
  computed !! "Access-Control-Allow-Credentials" =
    if match cors_field credentials corsOptions with
       | Some c => c
       | None => bool_decide (computed !! ACAO ≠ Some "*")
       end
    then Some "true" else None.
Proof.
  cbv zeta. rewrite <- allow_origin_settled.
  rewrite CORSBlocks.getCORSResponseHeaders_blocks.
  rewrite lookup_insert_ne, CORSFacts.max_age_other, CORSFacts.expose_headers_other by done.
  unfold CORSBlocks.allow_credentials.
  assert (Hbefore :
    CORSBlocks.allow_headers request corsOptions
      (CORSBlocks.allow_methods request corsOptions
         (CORSBlocks.vary (CORSBlocks.allow_origin request corsOptions)))
      !! "Access-Control-Allow-Credentials" = None).
  { by rewrite CORSFacts.allow_headers_other, CORSFacts.allow_methods_other,
      CORSFacts.vary_other, CORSFacts.allow_origin_eq, lookup_singleton_ne. }
  destruct (cors_field credentials corsOptions) as [[]|];
    try destruct (bool_decide _); by rewrite ?lookup_insert_eq.
Qed.

(** X6. [Access-Control-Expose-Headers] is returned whenever the policy
    has a list of exposed headers, an empty list included (the header is
    then empty). [Access-Control-Max-Age] is not returned without a
    [maxAge]; for a [maxAge] that is a safe integer, it is returned as its
    decimal digits when [maxAge] is not zero, and not returned for zero.
    (Nothing is stated for a [maxAge] that is no safe integer, which
    [toString] may print with a fraction, rounded or with an exponent.) *)
Theorem cors_expose_and_max_age request corsOptions :
  let computed := getCORSResponseHeaders request corsOptions in
  computed !! "Access-Control-Expose-Headers"
    = JSString.join ", " <$> cors_field exposedHeaders corsOptions
  ∧ match cors_field maxAge corsOptions with
    | Some n =>
        - 2 ^ 53 < n < 2 ^ 53 →
        computed !! "Access-Control-Max-Age"
        = if n =? 0 then None else Some (JSString.of_Z n)
    | None => computed !! "Access-Control-Max-Age" = None
    end.
Proof.
  cbv zeta. rewrite CORSBlocks.getCORSResponseHeaders_blocks.
  assert (Hbefore : ∀ k, k ∉ CORSFacts.header_names →
    CORSBlocks.allow_credentials corsOptions
      (CORSBlocks.allow_headers request corsOptions
        (CORSBlocks.allow_methods request corsOptions
           (CORSBlocks.vary (CORSBlocks.allow_origin request corsOptions)))) !! k = None).
  { intros k Hk. unfold CORSFacts.header_names in Hk. rewrite !not_elem_of_cons in Hk.
    destruct Hk as (? & ? & ? & ? & ? & ? & ? & ? & _).
    by rewrite CORSFacts.allow_credentials_other, CORSFacts.allow_headers_other,
      CORSFacts.allow_methods_other, CORSFacts.vary_other, CORSFacts.allow_origin_eq,
      lookup_singleton_ne. }
  assert (Hcredentials : ∀ k,
    k ≠ ACAO → k ≠ "Vary" → k ≠ "Access-Control-Allow-Methods" →
    k ≠ "Access-Control-Allow-Headers" → k ≠ "Access-Control-Allow-Credentials" →
    CORSBlocks.allow_credentials corsOptions
      (CORSBlocks.allow_headers request corsOptions
        (CORSBlocks.allow_methods request corsOptions
           (CORSBlocks.vary (CORSBlocks.allow_origin request corsOptions)))) !! k = None).
  { intros k ? ? ? ? ?.
    by rewrite CORSFacts.allow_credentials_other, CORSFacts.allow_headers_other,
      CORSFacts.allow_methods_other, CORSFacts.vary_other, CORSFacts.allow_origin_eq,
      lookup_singleton_ne. }
  clear Hbefore. split.
  - rewrite lookup_insert_ne, CORSFacts.max_age_other by done.
    unfold CORSBlocks.expose_headers.
    destruct (cors_field exposedHeaders corsOptions) as [xs|]; cbn [fmap option_fmap option_map].
    + by rewrite lookup_insert_eq.
    + by apply Hcredentials.
  - unfold CORSBlocks.max_age.
    destruct (cors_field maxAge corsOptions) as [n|];
      [intros _|]; rewrite lookup_insert_ne by done.
    + destruct (n =? 0); cbn [negb].
      * rewrite CORSFacts.expose_headers_other by done. by apply Hcredentials.
      * by rewrite lookup_insert_eq.
    + rewrite CORSFacts.expose_headers_other by done. by apply Hcredentials.
Qed.

(** X7. The calculator always returns [Server: GraphQL Yoga], and it
    returns no header of another name than the eight it knows: the four
    allow headers, the expose and max-age headers, [Vary] and [Server]. *)
Theorem cors_header_set request corsOptions :
  let computed := getCORSResponseHeaders request corsOptions in
  computed !! "Server" = Some "GraphQL Yoga"
  ∧ ∀ name, name ∉ CORSFacts.header_names → computed !! name = None.
Proof.
  cbv zeta. split.
  - rewrite CORSBlocks.getCORSResponseHeaders_blocks. apply lookup_insert_eq.
  - intros name Hname.
    destruct (getCORSResponseHeaders request corsOptions !! name) as [v|] eqn:Hv; [|done].
    destruct Hname. eapply CORSFacts.getCORSResponseHeaders_names. by eexists.
Qed.

(** ** The CORS plugin ([useCORS]) *)

(** Stamping a list of headers whose names are distinct, also when their
    case is ignored: each header reads as stamped afterwards. *)
Lemma run_stamp_headers_get entries (response : Response) k v :
  NoDup (JSString.toLowerCase <$> entries.*1) →
  (k, v) ∈ entries →
  Headers_get k (headers (run response_handle (stamp_headers entries) response).1.2)
  = Some v.
Proof.
  revert response. induction entries as [|[k0 v0] rest IH]; intros response Hdup Hin.
  - by apply elem_of_nil in Hin.
  - rewrite !fmap_cons in Hdup. cbn [fst] in Hdup.
    apply NoDup_cons in Hdup as [Hfresh Hdup].
    cbn [stamp_headers run].
    apply elem_of_cons in Hin as [[= -> ->]|Hin]; [|by apply IH].
    destruct (run_stamp_headers rest (response_handle (ResponseHeadersSet k0 v0) response))
      as (r' & Hrun & _ & _ & Hget).
    rewrite Hrun. cbn [fst snd]. rewrite Hget.
    + cbn [response_handle headers]. unfold Headers_get, Headers_set.
      apply lookup_insert_eq.
    + intros k' v' Hin' Heq. apply Hfresh. rewrite <- Heq.
      apply list_elem_of_fmap. exists k'. split; [done|].
      apply list_elem_of_fmap. by exists (k', v').
Qed.

(** The names of the calculated headers stay distinct when lower-cased. *)
Lemma getCORSResponseHeaders_NoDup request corsOptions :
  NoDup (JSString.toLowerCase <$> (map_to_list (getCORSResponseHeaders request corsOptions)).*1).
Proof.
  apply NoDup_fmap_2_strong; [|apply NoDup_fst_map_to_list].
  intros k1 k2 Hk1 Hk2. apply CORSFacts.header_names_case.
  - apply list_elem_of_fmap in Hk1 as ([k v] & -> & Hin).
    apply elem_of_map_to_list in Hin.
    eapply CORSFacts.getCORSResponseHeaders_names. by eexists.
  - apply list_elem_of_fmap in Hk2 as ([k v] & -> & Hin).
    apply elem_of_map_to_list in Hin.
    eapply CORSFacts.getCORSResponseHeaders_names. by eexists.
Qed.

(** X8. On a request whose method is not OPTIONS (in any letter case) the
    CORS plugin does not end the response: it returns a completion hook,
    and that hook, on whatever response it is given, writes every
    calculated header over the header of that name (in any letter case) and
    leaves the status, the status text, the body and the headers of other
    names as they are. *)
Theorem cors_stamps_response options req ctx response :
  JSString.toUpperCase (req_method req) ≠ "OPTIONS" →
  let computed := getCORSResponseHeaders req (corsOptionsFactory_of options req ctx) in
  ∃ done response',
    run_onRequest (useCORS options) req ctx
    = ([], None, Normal (Some {| onRequestDone := Some done |}))
    ∧ run response_handle (done {| done_response := response |}) response
      = ([], response', Normal tt)
    ∧ status response' = status response
    ∧ statusText response' = statusText response
    ∧ body response' = body response
    ∧ (∀ name value, computed !! name = Some value →
         Headers_get name (headers response') = Some value)
    ∧ (∀ name, (∀ k, is_Some (computed !! k) →
                  JSString.toLowerCase k ≠ JSString.toLowerCase name) →
         Headers_get name (headers response') = Headers_get name (headers response)).
Proof.
  intros Hmethod computed.
  exists (CORS_onRequestDone (corsOptionsFactory_of options) req ctx).
  destruct (run_stamp_headers (map_to_list computed) response)
    as (r' & Hrun & Hst & Hbody & Hget).
  exists r'. split_and!.
  - unfold run_onRequest, useCORS. cbn [onRequest]. unfold onRequest_payload.
    cbn [request serverContext]. by rewrite bool_decide_false.
  - exact Hrun.
  - exact Hst.
  - pose proof (run_written (stamp_headers (map_to_list computed)) response) as Hw.
    rewrite Hrun in Hw. by apply written_status_body in Hw as (_ & _ & ?).
  - exact Hbody.
  - intros name value Hname.
    pose proof (run_stamp_headers_get (map_to_list computed) response name value
                  (getCORSResponseHeaders_NoDup _ _)) as Hset.
    rewrite Hrun in Hset. apply Hset. by apply elem_of_map_to_list.
  - intros name Hname. apply Hget. intros k v Hkv. apply Hname.
    apply elem_of_map_to_list in Hkv. by eexists.
Qed.

(** A response of the engine that names its server. *)
Definition engine_response : Response :=
  Response_new (BodyString "{}")
    (Some (mkResponseInit (Some 200) None
       (Some {["server" := "engine"; "Content-Type" := "application/json"]}))).

Lemma cors_stamps_response_witness :
  let computed :=
    getCORSResponseHeaders Doubles.post_graphql
      (corsOptionsFactory_of None Doubles.post_graphql None) in
  ∃ done response',
    run_onRequest (useCORS None) Doubles.post_graphql None
    = ([], None, Normal (Some {| onRequestDone := Some done |}))
    ∧ run response_handle (done {| done_response := engine_response |}) engine_response
      = ([], response', Normal tt)
    ∧ status response' = status engine_response
    ∧ statusText response' = statusText engine_response
    ∧ body response' = body engine_response
    ∧ (∀ name value, computed !! name = Some value →
         Headers_get name (headers response') = Some value)
    ∧ (∀ name, (∀ k, is_Some (computed !! k) →
                  JSString.toLowerCase k ≠ JSString.toLowerCase name) →
         Headers_get name (headers response')
         = Headers_get name (headers engine_response)).
Proof.
  apply (cors_stamps_response None Doubles.post_graphql None engine_response).
  vm_compute. discriminate.
Defined.

(** ** Requests answered in the early-intercept phase *)

(** The completion hook of the CORS plugin returns. *)
Lemma CORS_done_returns factory request serverContext :
  done_returns (CORS_onRequestDone factory request serverContext).
Proof.
  intros response.
  destruct (run_stamp_headers
              (map_to_list (getCORSResponseHeaders request (factory request serverContext)))
              response) as (r' & Hrun & _).
  by exists [], r'.
Qed.

Section EarlyAnswer.
Context {Enveloped : Type}.
Variable processRequest : ProcessRequestArgs Enveloped → Outcome Response.
Variable JSON_stringify : JSValue → string.

(** A hook ends the response, the hooks before it pass and the completion
    hooks return: the answer is the response with the headers the
    completion hooks wrote, and the log is that of the hooks up to the
    ending one and of the completion hooks. *)
Lemma early_answer (this : YogaServer Enveloped) request serverContext
    pre h post results r res :
  onRequestHooks this = pre ++ h :: post →
  Forall2 (passes request serverContext) pre results →
  ends request serverContext h r res →
  Forall (λ d, done_returns d.2) (returned_done_hooks 0 (results ++ [res])) →
  let result := handleRequest processRequest JSON_stringify this request serverContext in
  (∃ r', result.2 = Normal r' ∧ written r r')
  ∧ onRequest_events result.1 = seq 0 (S (length pre))
  ∧ (onRequestDone_events result.1).*1 = (returned_done_hooks 0 (results ++ [res])).*1
  ∧ parse_events result.1 = [] ∧ getEnveloped_events result.1 = []
  ∧ processRequest_events result.1 = [].
Proof.
  intros Hhooks Hpre Hends Hdone result.
  destruct (onRequest_loop_ends request serverContext pre h post results r res
              Hpre Hends 0 []) as (l & Hloop & Hev & Hd & Hp & Hg & Hpr).
  cbn [app] in Hloop.
  destruct (run_onRequestDoneHooks_normal _ r Hdone)
    as (ld & r' & Hrun & Hw & Hidx & _ & _ & Hev' & Hp' & Hg' & Hpr').
  rewrite Hrun in Hloop. cbn [fst snd] in Hloop.
  assert (Htry : handleRequest_try processRequest this request serverContext
                 = (l ++ ld, Normal r')).
  { unfold handleRequest_try. rewrite Hhooks.
    rewrite (L_bind_normal _ _ _ _ Hloop). cbn. by rewrite app_nil_r. }
  apply (handleRequest_normal processRequest JSON_stringify) in Htry.
  subst result. rewrite Htry. cbn [fst snd].
  unfold onRequest_events, onRequestDone_events, parse_events, getEnveloped_events,
    processRequest_events in *.
  rewrite !omap_app, Hev, Hd, Hp, Hg, Hpr, Hev', Hp', Hg', Hpr', !app_nil_r. cbn [app].
  split_and!; try done. by exists r'.
Qed.

End EarlyAnswer.

(** When every hook passes, the loop invokes them all, in order, and
    hands on the completion hooks they returned. *)
Lemma onRequest_loop_passes request serverContext hooks results :
  Forall2 (passes request serverContext) hooks results →
  ∀ i dones, ∃ l,
    onRequest_loop request serverContext i hooks dones
    = (l, Normal (None, dones ++ returned_done_hooks i results))
    ∧ onRequest_events l = seq i (length hooks)
    ∧ onRequestDone_events l = [] ∧ parse_events l = []
    ∧ getEnveloped_events l = [] ∧ processRequest_events l = [].
Proof.
  induction 1 as [|hook res hooks results [l0 Hhook] _ IH]; intros i dones.
  - exists []. cbn [returned_done_hooks]. by rewrite app_nil_r.
  - hook_log Hhook.
    destruct (IH (S i) (dones ++ returned_done_hooks i [res]))
      as (l & Hloop & Hev & ? & ? & ? & ?).
    exists (EvOnRequest i :: l0 ++ l). split.
    + cbn [onRequest_loop]. rewrite L_tell_bind.
      change (exec endResponse_handle _ None)
        with (exec endResponse_handle (hook (onRequest_payload request serverContext)) None).
      rewrite (L_bind_normal _ _ _ _ (exec_normal _ _ _ _ _ _ Hhook)). cbn [fst snd].
      cbn [returned_done_hooks app] in Hloop. rewrite app_nil_r in Hloop.
      replace (match res ≫= onRequestDone with
               | Some hook0 => dones ++ [(i, hook0)]
               | None => dones
               end)
        with (dones ++ match res ≫= onRequestDone with
                       | Some hook0 => [(i, hook0)]
                       | None => []
                       end)
        by (destruct (res ≫= onRequestDone); by rewrite ?app_nil_r).
      rewrite Hloop. cbn [fst snd returned_done_hooks]. by rewrite <- app_assoc.
    + unfold onRequest_events, onRequestDone_events, parse_events, getEnveloped_events,
        processRequest_events in *. cbn [length seq]. simpl. rewrite !omap_app.
      repeat match goal with H : omap _ l0 = [] |- _ => rewrite H; clear H end.
      repeat match goal with H : omap _ l = [] |- _ => rewrite H; clear H end.
      simpl. by repeat split; try f_equal.
Qed.

Section ServerAnswers.
Context {Enveloped : Type}.
Variable envelop : list (option Plugin) → JSRecord → Outcome Enveloped.
Variable processRequest : ProcessRequestArgs Enveloped → Outcome Response.
Variable JSON_stringify : JSValue → string.
Variable JSON_parse : string → Outcome JSValue.
Variables crossUndiciFetch_fetch globalThis_fetch : FetchFn.
Variable Date_now : string.
Variable shouldRenderGraphiQL : Request → bool.
Variable renderGraphiQL : GraphiQLRenderer.
Variables GETRequestParser POSTRequestParser POSTMultipartRequestParser : OnRequestParseHook.

Local Abbreviation yoga :=
  (server envelop JSON_parse crossUndiciFetch_fetch globalThis_fetch Date_now
     shouldRenderGraphiQL renderGraphiQL
     GETRequestParser POSTRequestParser POSTMultipartRequestParser).

(** The CORS hook on an OPTIONS request. *)
Lemma cors_ends (options : option CORSPluginOptions) req ctx :
  JSString.toUpperCase (req_method req) = "OPTIONS" →
  run endResponse_handle (hook_of (useCORS options) (onRequest_payload req ctx)) None
  = ([], Some (Response_new BodyNull
                 (Some (mkResponseInit (Some 204) None
                    (Some (getCORSResponseHeaders req
                             (corsOptionsFactory_of options req ctx)))))),
     Normal None).
Proof.
  intros Hmethod. unfold hook_of, useCORS.
  cbn [onRequest default from_option Datatypes.id]. unfold onRequest_payload.
  cbn [request serverContext]. by rewrite bool_decide_true.
Qed.

(** X9. A server whose [cors] option is not [false] answers every OPTIONS
    request (the method in any letter case, whatever the path) with status
    204, no body and the calculated headers, and nothing else happens: the
    CORS hook is the only hook invoked; no later [onRequest] hook, no
    completion hook, no parser, no engine, no outbound request. *)
Theorem cors_preflight_answered options req ctx :
  cors_enabled options = true →
  JSString.toUpperCase (req_method req) = "OPTIONS" →
  handleRequest processRequest JSON_stringify (yoga options) req ctx
  = ([EvOnRequest 0],
     Normal (Response_new BodyNull
               (Some (mkResponseInit (Some 204) None
                  (Some (getCORSResponseHeaders req
                           (corsOptionsFactory_of (opt_cors options) req ctx))))))).
Proof.
  intros Hcors Hmethod.
  pose proof (onRequestHooks_server envelop JSON_parse crossUndiciFetch_fetch
                globalThis_fetch Date_now shouldRenderGraphiQL renderGraphiQL
                GETRequestParser POSTRequestParser POSTMultipartRequestParser options)
    as Hhooks.
  rewrite Hcors in Hhooks. cbn [app] in Hhooks.
  apply handleRequest_normal. unfold handleRequest_try. rewrite Hhooks.
  cbn [onRequest_loop]. rewrite L_tell_bind.
  change (exec endResponse_handle _ None)
    with (exec endResponse_handle
            (hook_of (useCORS (opt_cors options)) (onRequest_payload req ctx)) None).
  rewrite (exec_normal _ _ _ _ _ _ (cors_ends (opt_cors options) req ctx Hmethod)).
  reflexivity.
Qed.

(** The response of the GraphiQL plugin to a path off the endpoint. *)
Definition not_found (request : Request) : Response :=
  Response_new
    (BodyString ("Unable to " +:+ req_method request +:+ " "
                 +:+ JSString.split_head "?" (req_url request)))
    (Some (mkResponseInit (Some 404) (Some "Not Found") None)).

Lemma graphiql_ends_404 options req ctx endpoint :
  opt_endpoint options = Some endpoint →
  JSString.endsWith (JSString.split_head "?" (req_url req)) endpoint = false →
  ends req ctx
    (hook_of (useGraphiQL shouldRenderGraphiQL renderGraphiQL (graphiql_config options)))
    (not_found req) None.
Proof.
  intros Hendpoint Hpath. unfold ends, hook_of, useGraphiQL, graphiql_config.
  cbn [onRequest default from_option Datatypes.id gq_endpoint gq_options gq_render].
  unfold onRequest_payload. cbn [request serverContext].
  rewrite Hendpoint, Hpath. by eexists.
Qed.

(** X10. A server with an [endpoint], whose [graphiql] option is not
    [false], answers every request whose URL path (what precedes the first
    [?]) does not end with the endpoint with status 404, the status text
    [Not Found] and the body [Unable to <method> <path>], unless the CORS
    plugin answers it first as a preflight. The health check and the hooks
    of the caller's plugins are not invoked, nothing is parsed and the
    engine is not reached: the paths [/health] and [/readiness] are
    answered 404 like any other. *)
Theorem endpoint_mismatch_404 options req ctx endpoint :
  graphiql_enabled options = true →
  opt_endpoint options = Some endpoint →
  JSString.endsWith (JSString.split_head "?" (req_url req)) endpoint = false →
  (cors_enabled options = false ∨ JSString.toUpperCase (req_method req) ≠ "OPTIONS") →
  let result := handleRequest processRequest JSON_stringify (yoga options) req ctx in
  (∃ response,
      result.2 = Normal response
      ∧ status response = 404
      ∧ statusText response = "Not Found"
      ∧ body response
        = BodyString ("Unable to " +:+ req_method req +:+ " "
                      +:+ JSString.split_head "?" (req_url req)))
  ∧ onRequest_events result.1 = seq 0 (if cors_enabled options then 2 else 1)
  ∧ parse_events result.1 = [] ∧ getEnveloped_events result.1 = []
  ∧ processRequest_events result.1 = [].
Proof.
  intros Hgraphiql Hendpoint Hpath Hcors.
  pose proof (onRequestHooks_server envelop JSON_parse crossUndiciFetch_fetch
                globalThis_fetch Date_now shouldRenderGraphiQL renderGraphiQL
                GETRequestParser POSTRequestParser POSTMultipartRequestParser options)
    as Hhooks.
  pose proof (graphiql_ends_404 options req ctx endpoint Hendpoint Hpath) as Hends.
  rewrite Hgraphiql in Hhooks.
  assert (Hanswer : ∀ pre results,
    onRequestHooks (yoga options)
    = pre ++ hook_of (useGraphiQL shouldRenderGraphiQL renderGraphiQL
                        (graphiql_config options))
          :: hook_of (health_plugin JSON_parse crossUndiciFetch_fetch globalThis_fetch
                        Date_now options)
          :: omap onRequest (default [] (opt_plugins options)) →
    Forall2 (passes req ctx) pre results →
    Forall (λ d, done_returns d.2) (returned_done_hooks 0 (results ++ [None])) →
    let result := handleRequest processRequest JSON_stringify (yoga options) req ctx in
    (∃ response,
        result.2 = Normal response
        ∧ status response = 404
        ∧ statusText response = "Not Found"
        ∧ body response
          = BodyString ("Unable to " +:+ req_method req +:+ " "
                        +:+ JSString.split_head "?" (req_url req)))
    ∧ onRequest_events result.1 = seq 0 (S (length pre))
    ∧ parse_events result.1 = [] ∧ getEnveloped_events result.1 = []
    ∧ processRequest_events result.1 = []).
  { intros pre results Hsplit Hpre Hdone.
    destruct (early_answer processRequest JSON_stringify (yoga options) req ctx
                pre _ _ results (not_found req) None Hsplit Hpre Hends Hdone)
      as ((r' & Hout & Hw) & Hev & _ & Hp & Hg & Hpr).
    destruct (written_status_body _ _ Hw) as (Hst & Hbody & Htext).
    split_and!; try done. exists r'. by rewrite Hst, Hbody, Htext. }
  destruct (cors_enabled options) eqn:Hc; cbn [app] in Hhooks.
  - destruct Hcors as [|Hmethod]; [done|].
    eapply (Hanswer [_] [_] Hhooks).
    + repeat constructor. by apply cors_passes.
    + repeat constructor. apply CORS_done_returns.
  - apply (Hanswer [] [] Hhooks); constructor.
Qed.

(** X11. The requests that reach the parser. A request passes the
    early-intercept phase of a server without a response when the CORS
    plugin is disabled or the method is not OPTIONS, the GraphiQL plugin is
    disabled or lets the request pass, the URL path ends with neither
    [/health] nor [/readiness], and the hooks of the caller's plugins pass.
    All the hooks are invoked, in order, and the completion hooks handed on
    are that of the CORS plugin, when enabled, then those the caller's
    hooks returned. With [graphiql: false] in particular the path is not
    compared with the [endpoint]. *)
Theorem request_reaches_parser options req ctx results :
  (cors_enabled options = false ∨ JSString.toUpperCase (req_method req) ≠ "OPTIONS") →
  (graphiql_enabled options = false
   ∨ graphiql_lets_pass shouldRenderGraphiQL options req ctx = true) →
  JSString.endsWith (JSString.split_head "?" (req_url req)) "/health" = false →
  JSString.endsWith (JSString.split_head "?" (req_url req)) "/readiness" = false →
  Forall2 (passes req ctx) (omap onRequest (default [] (opt_plugins options))) results →
  let builtin :=
    ((if cors_enabled options then 1 else 0)
     + (if graphiql_enabled options then 1 else 0) + 1)%nat in
  ∃ l,
    onRequest_loop req ctx 0 (onRequestHooks (yoga options)) []
    = (l, Normal (None,
         (if cors_enabled options
          then [(0%nat, CORS_onRequestDone (corsOptionsFactory_of (opt_cors options))
                          req ctx)]
          else [])
         ++ returned_done_hooks builtin results))
    ∧ onRequest_events l = seq 0 (builtin + length results).
Proof.
  intros Hcors Hgraphiql Hhealth Hreadiness Husers builtin.
  pose proof (onRequestHooks_server envelop JSON_parse crossUndiciFetch_fetch
                globalThis_fetch Date_now shouldRenderGraphiQL renderGraphiQL
                GETRequestParser POSTRequestParser POSTMultipartRequestParser options)
    as Hhooks.
  assert (Hhealth_passes :
    passes req ctx (hook_of (health_plugin JSON_parse crossUndiciFetch_fetch
                               globalThis_fetch Date_now options)) None).
  { unfold passes, hook_of, health_plugin, useHealthCheck.
    cbn [onRequest default from_option Datatypes.id]. unfold onRequest_payload.
    cbn [request serverContext]. rewrite Hhealth, Hreadiness. by eexists. }
  assert (Hmethod : cors_enabled options = true →
                    JSString.toUpperCase (req_method req) ≠ "OPTIONS").
  { intros Hc. destruct Hcors as [Hc'|]; [congruence|done]. }
  assert (Hpass : graphiql_enabled options = true →
                  graphiql_lets_pass shouldRenderGraphiQL options req ctx = true).
  { intros Hg. destruct Hgraphiql as [Hg'|]; [congruence|done]. }
  clear Hcors Hgraphiql.
  pose proof (Forall2_length _ _ _ Husers) as Hlen.
  assert (Hall : ∀ pre results0,
    onRequestHooks (yoga options)
    = pre ++ omap onRequest (default [] (opt_plugins options)) →
    Forall2 (passes req ctx) pre results0 →
    ∃ l, onRequest_loop req ctx 0 (onRequestHooks (yoga options)) []
         = (l, Normal (None, returned_done_hooks 0 results0
                             ++ returned_done_hooks (length pre) results))
         ∧ onRequest_events l = seq 0 (length pre + length results)).
  { intros pre results0 Hsplit Hpre.
    destruct (onRequest_loop_passes req ctx _ _ (Forall2_app Hpre Husers) 0 [])
      as (l & Hloop & Hev & _).
    exists l. rewrite Hsplit, Hloop. split.
    - cbn [app]. do 3 f_equal. clear Hloop Hev Hsplit.
      change (length pre) with (0 + length pre)%nat at 1.
      generalize 0%nat. induction Hpre as [|h r pre results0 _ _ IH]; intros i.
      + cbn [app returned_done_hooks length]. by rewrite Nat.add_0_r.
      + cbn [app returned_done_hooks length]. rewrite <- app_assoc. f_equal.
        rewrite IH. do 2 f_equal. lia.
    - by rewrite Hev, length_app, Hlen. }
  subst builtin.
  destruct (cors_enabled options), (graphiql_enabled options); cbn [app] in Hhooks;
    try specialize (Hmethod eq_refl); try specialize (Hpass eq_refl).
  - eapply (Hall [_; _; _]
              [Some {| onRequestDone :=
                 Some (CORS_onRequestDone (corsOptionsFactory_of (opt_cors options))
                         req ctx) |}; None; None] Hhooks).
    repeat constructor; [by apply cors_passes|by apply graphiql_passes|done].
  - eapply (Hall [_; _]
              [Some {| onRequestDone :=
                 Some (CORS_onRequestDone (corsOptionsFactory_of (opt_cors options))
                         req ctx) |}; None] Hhooks).
    repeat constructor; [by apply cors_passes|done].
  - eapply (Hall [_; _] [None; None] Hhooks).
    repeat constructor; [by apply graphiql_passes|done].
  - eapply (Hall [_] [None] Hhooks).
    repeat constructor; done.
Qed.

End ServerAnswers.

Lemma cors_preflight_answered_witness :
  Doubles.handle C2Examples.plain_server options_health None
  = ([EvOnRequest 0],
     Normal (Response_new BodyNull
               (Some (mkResponseInit (Some 204) None
                  (Some (getCORSResponseHeaders options_health
                           (corsOptionsFactory_of None options_health None))))))).
Proof.
  apply (cors_preflight_answered Doubles.envelop Doubles.processRequest
           Doubles.JSON_stringify Doubles.JSON_parse Doubles.fetch Doubles.fetch
           Doubles.Date_now Doubles.shouldRenderGraphiQL Doubles.renderGraphiQL
           Doubles.GET_hook Doubles.POST_hook Doubles.multipart_hook
           (Doubles.default_options []) options_health None); reflexivity.
Defined.

(** [createServer({ endpoint: '/graphql' })] *)
Definition endpoint_options : YogaServerOptions :=
  {| opt_logging := None; opt_maskedErrors := None; opt_context := false;
     opt_cors := None; opt_endpoint := Some "/graphql"; opt_graphiql := None;
     opt_renderGraphiQL := None; opt_parserCache := None;
     opt_validationCache := None; opt_fetch := None; opt_multipart := None;
     opt_id := None; opt_plugins := None |}.

Lemma endpoint_mismatch_404_witness :
  let result := Doubles.handle (Doubles.new_server endpoint_options) get_health None in
  (∃ response,
      result.2 = Normal response
      ∧ status response = 404
      ∧ statusText response = "Not Found"
      ∧ body response = BodyString "Unable to GET http://localhost/health")
  ∧ onRequest_events result.1 = [0; 1]%nat
  ∧ parse_events result.1 = [] ∧ getEnveloped_events result.1 = []
  ∧ processRequest_events result.1 = [].
Proof.
  apply (endpoint_mismatch_404 Doubles.envelop Doubles.processRequest
           Doubles.JSON_stringify Doubles.JSON_parse Doubles.fetch Doubles.fetch
           Doubles.Date_now Doubles.shouldRenderGraphiQL Doubles.renderGraphiQL
           Doubles.GET_hook Doubles.POST_hook Doubles.multipart_hook
           endpoint_options get_health None "/graphql").
  - reflexivity.
  - reflexivity.
  - reflexivity.
  - right. vm_compute. discriminate.
Defined.

Lemma request_reaches_parser_witness :
  ∃ l,
    onRequest_loop Doubles.post_graphql None 0 (onRequestHooks C2Examples.plain_server) []
    = (l, Normal (None,
         [(0%nat, CORS_onRequestDone (corsOptionsFactory_of None)
                    Doubles.post_graphql None)]))
    ∧ onRequest_events l = [0; 1; 2]%nat.
Proof.
  apply (request_reaches_parser Doubles.envelop Doubles.JSON_parse Doubles.fetch
           Doubles.fetch Doubles.Date_now Doubles.shouldRenderGraphiQL
           Doubles.renderGraphiQL Doubles.GET_hook Doubles.POST_hook
           Doubles.multipart_hook (Doubles.default_options []) Doubles.post_graphql
           None []).
  - right. vm_compute. discriminate.
  - right. reflexivity.
  - reflexivity.
  - reflexivity.
  - constructor.
Defined.

(** ** The shape of every run of [handleRequest] *)

(** A log that holds no event of the request hooks, of the parser or of the
    engine. *)
Definition quiet (l : list Event) : Prop :=
  onRequest_events l = [] ∧ onRequestDone_events l = [] ∧ parse_events l = []
  ∧ getEnveloped_events l = [] ∧ processRequest_events l = [].

(** What the parse hooks and the parse-done hooks leave in the log. *)
Definition parse_phase_event (ev : Event) : Prop :=
  match ev with
  | EvOnRequestParse _ | EvOnRequestParseDone _ _ | EvFetch _ | EvDebug _ => True
  | _ => False
  end.

Lemma quiet_parse_phase l : Forall parse_phase_event l → quiet l.
Proof.
  intros Hl. repeat split; apply omap_logs; (eapply Forall_impl; [exact Hl|]); by intros [].
Qed.

Lemma quiet_nil : quiet [].
Proof. by repeat split. Qed.

Lemma quiet_run {C S A} (handle : C → S → S) (t : Task C A) (s : S) :
  quiet (run handle t s).1.1.
Proof.
  apply quiet_parse_phase. eapply Forall_impl; [apply run_ambient|]. by intros [].
Qed.

Lemma quiet_onRequestParse_loop request serverContext i hooks st pdl :
  quiet (onRequestParse_loop request serverContext i hooks st pdl).1.
Proof.
  apply quiet_parse_phase.
  apply (logs_onRequestParse_loop parse_phase_event); [by intros []|done].
Qed.

Lemma quiet_onRequestParseDone_loop i hooks params :
  quiet (onRequestParseDone_loop i hooks params).1.
Proof.
  apply quiet_parse_phase.
  apply (logs_onRequestParseDone_loop parse_phase_event); [by intros []|done].
Qed.

(** The completion hooks that are invoked are the first of the list, in its
    order: a hook that throws stops the ones after it. *)
Lemma run_onRequestDoneHooks_log hooks response :
  let l := (run_onRequestDoneHooks hooks response).1 in
  (onRequestDone_events l).*1 `prefix_of` hooks.*1
  ∧ onRequest_events l = [] ∧ parse_events l = []
  ∧ getEnveloped_events l = [] ∧ processRequest_events l = [].
Proof.
  cbv zeta. revert response. induction hooks as [|[i hook] hooks IH]; intros response.
  - by repeat split.
  - cbn [run_onRequestDoneHooks]. rewrite L_tell_bind. cbn [fst].
    destruct (run response_handle (hook {| done_response := response |}) response)
      as [[lh r1] [[]|e]] eqn:Hrun.
    + rewrite (L_bind_normal _ _ _ _ (exec_normal _ _ _ _ _ _ Hrun)). cbn [fst].
      destruct (quiet_run response_handle (hook {| done_response := response |}) response)
        as (H1 & H2 & H3 & H4 & H5).
      rewrite Hrun in H1, H2, H3, H4, H5. cbn [fst] in *.
      destruct (IH r1) as (Hp & ? & ? & ? & ?).
      unfold onRequest_events, onRequestDone_events, parse_events, getEnveloped_events,
        processRequest_events in *.
      cbn [omap list_omap]. rewrite !omap_app, H1, H2, H3, H4, H5. cbn [app].
      split_and!; try done. rewrite !fmap_cons. cbn [fst]. by apply prefix_cons.
    + rewrite (L_bind_thrown _ _ _ _ (exec_thrown _ _ _ _ _ _ Hrun)). cbn [fst].
      destruct (quiet_run response_handle (hook {| done_response := response |}) response)
        as (H1 & H2 & H3 & H4 & H5).
      rewrite Hrun in H1, H2, H3, H4, H5. cbn [fst] in *.
      unfold onRequest_events, onRequestDone_events, parse_events, getEnveloped_events,
        processRequest_events in *.
      cbn [omap list_omap]. rewrite H1, H2, H3, H4, H5.
      split_and!; try done. rewrite !fmap_cons. cbn [fst fmap list_fmap].
      apply prefix_cons, prefix_nil.
Qed.

(** The loop over the [onRequest] hooks, whatever they do: the hooks are
    invoked in order from the first, without a gap and up to the one that
    ends the response or throws; the completion hooks invoked are the first
    of those handed over and returned, in that order. *)
Lemma onRequest_loop_log request serverContext hooks :
  ∀ i dones,
    let run := onRequest_loop request serverContext i hooks dones in
    ∃ n sub,
      (n ≤ length hooks)%nat
      ∧ onRequest_events run.1 = seq i n
      ∧ sub `sublist_of` seq i n
      ∧ (onRequestDone_events run.1).*1 `prefix_of` dones.*1 ++ sub
      ∧ parse_events run.1 = [] ∧ getEnveloped_events run.1 = []
      ∧ processRequest_events run.1 = []
      ∧ match run.2 with
        | Normal (None, dones') =>
            n = length hooks ∧ onRequestDone_events run.1 = []
            ∧ dones'.*1 = dones.*1 ++ sub
        | _ => True
        end.
Proof.
  cbv zeta. induction hooks as [|hook hooks IH]; intros i dones.
  - exists 0%nat, []. cbn. rewrite app_nil_r. split_and!; try done. apply prefix_nil.
  - cbn [onRequest_loop]. rewrite L_tell_bind. cbn [fst snd].
    change (exec endResponse_handle _ None)
      with (exec endResponse_handle (hook (onRequest_payload request serverContext)) None).
    destruct (quiet_run endResponse_handle
                (hook (onRequest_payload request serverContext)) None)
      as (H1 & H2 & H3 & H4 & H5).
    destruct (run endResponse_handle (hook (onRequest_payload request serverContext)) None)
      as [[lh cell] [res|e]] eqn:Hrun; cbn [fst] in H1, H2, H3, H4, H5.
    2:{ rewrite (L_bind_thrown _ _ _ _ (exec_thrown _ _ _ _ _ _ Hrun)). cbn [fst snd].
        exists 1%nat, [].
        unfold onRequest_events, onRequestDone_events, parse_events, getEnveloped_events,
          processRequest_events in *.
        cbn [omap list_omap length seq]. rewrite H1, H2, H3, H4, H5.
        split_and!; try done; [lia|apply sublist_nil_l|apply prefix_nil]. }
    rewrite (L_bind_normal _ _ _ _ (exec_normal _ _ _ _ _ _ Hrun)). cbn [fst snd].
    set (sub0 := match res ≫= onRequestDone with
                 | Some _ => [i]
                 | None => []
                 end).
    set (dones1 := match res ≫= onRequestDone with
                   | Some hook0 => dones ++ [(i, hook0)]
                   | None => dones
                   end).
    assert (Hdones1 : dones1.*1 = dones.*1 ++ sub0).
    { subst dones1 sub0. destruct (res ≫= onRequestDone); [|by rewrite app_nil_r].
      by rewrite fmap_app. }
    destruct cell as [r|].
    + exists 1%nat, sub0.
      destruct (run_onRequestDoneHooks_log dones1 r) as (Hp & G1 & G3 & G4 & G5).
      destruct (run_onRequestDoneHooks dones1 r) as [ld [r'|e]]; cbn [fst snd] in *.
      all: unfold onRequest_events, onRequestDone_events, parse_events,
             getEnveloped_events, processRequest_events in *.
      all: cbn [mbind L_mbind mret L_mret fst snd omap list_omap length seq].
      all: rewrite ?app_nil_r, !omap_app, H1, H2, H3, H4, H5, G1, G3, G4, G5.
      all: cbn [app]; split_and!; try done; try lia.
      all: try (rewrite <- Hdones1; exact Hp).
      all: subst sub0; destruct (res ≫= onRequestDone); [done|apply sublist_nil_l].
    + destruct (IH (S i) dones1) as (n & sub & Hn & Hev & Hsub & Hp & G3 & G4 & G5 & Hout).
      destruct (onRequest_loop request serverContext (S i) hooks dones1) as [l o].
      cbn [fst snd] in *.
      exists (S n), (sub0 ++ sub).
      unfold onRequest_events, onRequestDone_events, parse_events, getEnveloped_events,
        processRequest_events in *.
      cbn [omap list_omap length seq].
      rewrite !omap_app, H1, H2, H3, H4, H5, Hev, G3, G4, G5. cbn [app].
      split_and!; try done.
      * lia.
      * subst sub0. destruct (res ≫= onRequestDone); cbn [app].
        -- by apply sublist_skip.
        -- by apply sublist_cons.
      * rewrite app_assoc, <- Hdones1. exact Hp.
      * destruct o as [[[r|] dones']|e]; try done.
        destruct Hout as (-> & Hnone & Heq). split_and!; [done|exact Hnone|].
        by rewrite Heq, Hdones1, app_assoc.
Qed.

(** ** The order of the events of a run *)

(** [at_each P log]: at each event [ev] of the log, [P before ev after]
    holds of the events logged before it and of those logged after it. *)
Definition at_each (P : list Event → Event → list Event → Prop)
    (log : list Event) : Prop :=
  ∀ before ev after, log = before ++ ev :: after → P before ev after.

Lemma at_each_nil P : at_each P [].
Proof. by intros [|??] ev after ?. Qed.

Lemma at_each_cons P ev l :
  P [] ev l → at_each (λ before, P (ev :: before)) l → at_each P (ev :: l).
Proof.
  intros Hhead Hl [|ev' before] ev0 after Hsplit; simplify_eq/=; [done|].
  by apply Hl.
Qed.

Lemma at_each_app P l1 l2 :
  at_each (λ before ev after, P before ev (after ++ l2)) l1 →
  at_each (λ before, P (l1 ++ before)) l2 →
  at_each P (l1 ++ l2).
Proof.
  intros H1 H2 before ev after Hsplit.
  apply app_eq_app in Hsplit as [mid [[-> Hmid]|[-> ->]]].
  - destruct mid as [|ev' mid]; simplify_eq/=.
    + specialize (H2 [] ev after eq_refl). simpl in H2. by rewrite !app_nil_r in *.
    + by apply H1.
  - by apply H2.
Qed.

Lemma at_each_mono P Q l :
  at_each P l →
  (∀ before ev after, l = before ++ ev :: after → P before ev after → Q before ev after) →
  at_each Q l.
Proof. intros HP HPQ before ev after Hsplit. by apply HPQ, HP. Qed.

Lemma omap_split_nil {B} (f : Event → option B) before ev after :
  omap f (before ++ ev :: after) = [] →
  omap f before = [] ∧ f ev = None ∧ omap f after = [].
Proof.
  rewrite omap_app. intros [Hb Ha]%app_eq_nil. cbn [omap list_omap] in Ha.
  by destruct (f ev).
Qed.

Lemma omap_split_some {B} (f : Event → option B) before ev after y :
  f ev = Some y → omap f (before ++ ev :: after) = omap f before ++ y :: omap f after.
Proof. intros Hev. rewrite omap_app. cbn [omap list_omap]. by rewrite Hev. Qed.

(** At a completion event the index is one of the log's. *)
Lemma done_event_index l before i r after :
  l = before ++ EvOnRequestDone i r :: after → i ∈ (onRequestDone_events l).*1.
Proof.
  intros ->. unfold onRequestDone_events.
  rewrite (omap_split_some _ _ _ _ (i, r)) by done.
  rewrite fmap_app, fmap_cons, elem_of_app. right. left.
Qed.

(** The early-intercept loop: a completion hook is invoked only when it
    was handed to the loop or when the [onRequest] hook of its number has
    been invoked before. *)
Lemma onRequest_loop_order request serverContext hooks : ∀ i dones,
  at_each (λ before ev _,
             match ev with
             | EvOnRequestDone j _ => j ∈ dones.*1 ∨ j ∈ onRequest_events before
             | _ => True
             end)
    (onRequest_loop request serverContext i hooks dones).1.
Proof.
  induction hooks as [|hook hooks IH]; intros i dones.
  - apply at_each_nil.
  - cbn [onRequest_loop]. rewrite L_tell_bind. cbn [fst snd].
    change (exec endResponse_handle _ None)
      with (exec endResponse_handle (hook (onRequest_payload request serverContext)) None).
    apply at_each_cons; [done|].
    pose proof (run_ambient endResponse_handle
                  (hook (onRequest_payload request serverContext)) None) as Hamb.
    destruct (run endResponse_handle (hook (onRequest_payload request serverContext)) None)
      as [[lh cell] [res|e]] eqn:Hrun; cbn [fst] in Hamb.
    2:{ rewrite (L_bind_thrown _ _ _ _ (exec_thrown _ _ _ _ _ _ Hrun)). cbn [fst].
        intros before ev after ->. apply Forall_app in Hamb as [_ Hev].
        apply Forall_cons in Hev as [Hev _]. by destruct ev. }
    rewrite (L_bind_normal _ _ _ _ (exec_normal _ _ _ _ _ _ Hrun)). cbn [fst snd].
    set (dones1 := match res ≫= onRequestDone with
                   | Some hook0 => dones ++ [(i, hook0)]
                   | None => dones
                   end).
    assert (Hdones1 : ∀ j, j ∈ dones1.*1 → j ∈ dones.*1 ∨ j = i).
    { subst dones1. intros j. destruct (res ≫= onRequestDone); [|by left].
      rewrite fmap_app, elem_of_app. intros [?|?%list_elem_of_singleton]; [by left|by right]. }
    apply at_each_app.
    { intros before ev after ->. apply Forall_app in Hamb as [_ Hev].
      apply Forall_cons in Hev as [Hev _]. by destruct ev. }
    assert (Hhere : ∀ before, i ∈ onRequest_events (EvOnRequest i :: lh ++ before)).
    { intros before. unfold onRequest_events. cbn [omap list_omap]. left. }
    assert (Hlater : ∀ before j, j ∈ onRequest_events before →
      j ∈ onRequest_events (EvOnRequest i :: lh ++ before)).
    { intros before j Hj. unfold onRequest_events in *. cbn [omap list_omap].
      right. rewrite omap_app, elem_of_app. by right. }
    destruct cell as [r|].
    + destruct (run_onRequestDoneHooks_log dones1 r) as (Hp & _).
      destruct (run_onRequestDoneHooks dones1 r) as [ld o]; cbn [fst snd] in *.
      assert ((match o with
               | Normal a => ([], Normal (Some a, dones1))
               | Thrown e => ([], Thrown e)
               end : L (option Response * list (nat * OnRequestDoneHook))).1 = []) as Hnil
        by (by destruct o).
      cbn [mbind L_mbind mret L_mret fst snd].
      intros before ev after Hsplit. destruct ev as [|j r'| | | | | | |]; try exact I.
      assert (Hin : j ∈ dones1.*1).
      { eapply elem_of_prefix; [|exact Hp].
        destruct o; cbn [fst] in Hsplit; rewrite ?app_nil_r in Hsplit;
          by eapply done_event_index. }
      destruct (Hdones1 j Hin) as [?| ->]; [by left|right; apply Hhere].
    + eapply at_each_mono; [apply (IH (S i) dones1)|].
      intros before ev after _. destruct ev as [|j r'| | | | | | |]; try done.
      intros [Hin|Hin]; [|right; by apply Hlater].
      destruct (Hdones1 j Hin) as [?| ->]; [by left|right; apply Hhere].
Qed.


(** What holds at an event of the parse step or of the engine's, of the
    events logged before it and after it in these phases: the context is
    handed to the engine after the parser was invoked, [processRequest] is
    called after that, and a completion hook (one of [dones]) is invoked
    after [processRequest] was called, no parser being invoked after it. *)
Definition engine_order (dones : list nat) (before : list Event) (ev : Event)
    (after : list Event) : Prop :=
  match ev with
  | EvGetEnveloped _ => parse_events before ≠ []
  | EvProcessRequest _ _ _ => getEnveloped_events before ≠ []
  | EvOnRequestDone i _ =>
      i ∈ dones ∧ processRequest_events before ≠ [] ∧ parse_events after = []
  | _ => True
  end.

(** The same for a whole run on a server with [hooks] [onRequest] hooks:
    the parser is invoked after all of them, and none is invoked after it;
    a completion hook is invoked after the [onRequest] hook of its number. *)
Definition lifecycle_order (hooks : nat) (before : list Event) (ev : Event)
    (after : list Event) : Prop :=
  match ev with
  | EvParse _ _ => onRequest_events before = seq 0 hooks ∧ onRequest_events after = []
  | EvGetEnveloped _ => parse_events before ≠ []
  | EvProcessRequest _ _ _ => getEnveloped_events before ≠ []
  | EvOnRequestDone i _ =>
      i ∈ onRequest_events before ∧ parse_events after = []
      ∧ (parse_events before ≠ [] → processRequest_events before ≠ [])
  | _ => True
  end.

Lemma at_each_parse_phase P l :
  Forall parse_phase_event l →
  (∀ before ev after, parse_phase_event ev → P before ev after) →
  at_each P l.
Proof.
  intros Hl HP before ev after ->. apply HP.
  apply Forall_app in Hl as [_ Hl]. by apply Forall_cons in Hl as [? _].
Qed.

Lemma L_bind_mret_log {A} (m : L A) : (a ← m ; mret a).1 = m.1.
Proof. destruct m as [l [a|e]]; [|done]. cbn. by rewrite app_nil_r. Qed.

Lemma run_onRequestDoneHooks_order hooks response prefix :
  processRequest_events prefix ≠ [] →
  at_each (λ before, engine_order hooks.*1 (prefix ++ before))
    (run_onRequestDoneHooks hooks response).1.
Proof.
  intros Hprefix before ev after Hsplit.
  destruct (run_onRequestDoneHooks_log hooks response) as (Hp & _ & Hparse & Hg & Hpr).
  unfold parse_events, getEnveloped_events, processRequest_events in Hparse, Hg, Hpr.
  rewrite Hsplit in Hparse, Hg, Hpr.
  apply omap_split_nil in Hparse as (_ & _ & Hafter).
  apply omap_split_nil in Hg as (_ & Hg & _).
  apply omap_split_nil in Hpr as (_ & Hpr & _).
  destruct ev as [|i r| | | | | | |]; try done.
  split_and!.
  - eapply elem_of_prefix; [by eapply done_event_index|exact Hp].
  - unfold processRequest_events in *. rewrite omap_app. by intros [? _]%app_eq_nil.
  - exact Hafter.
Qed.

Section Shape.
Context {Enveloped : Type}.
Variable processRequest : ProcessRequestArgs Enveloped → Outcome Response.
Variable JSON_stringify : JSValue → string.

(** What follows the early-intercept phase when it produced no response:
    the selection of the parser, the parse step, the engine. *)
Definition parse_and_execute (this : YogaServer Enveloped) (request : Request)
    (serverContext : option ServerContext) (dones : list (nat * OnRequestDoneHook))
    : L Response :=
  '(requestParser, pdl) ←
    onRequestParse_loop request serverContext 0 (onRequestParseHooks this)
      (None, λ _, Normal ∅) [] ;
  tell (EvDebug "Extracting GraphQL Parameters") ;;
  tell (EvParse (fst requestParser) (snd requestParser request)) ;;
  after_parse processRequest this request serverContext dones pdl
    (snd requestParser request).

Lemma handleRequest_try_phases this request serverContext :
  handleRequest_try processRequest this request serverContext
  = '(early, dones) ← onRequest_loop request serverContext 0 (onRequestHooks this) [] ;
    match early with
    | Some response => mret response
    | None => parse_and_execute this request serverContext dones
    end.
Proof. reflexivity. Qed.

Lemma engine_phase_log this request serverContext dones params :
  let log := (engine_phase processRequest this request serverContext dones params).1 in
  onRequest_events log = [] ∧ parse_events log = []
  ∧ (onRequestDone_events log).*1 `prefix_of` dones.*1
  ∧ length (getEnveloped_events log) = 1%nat
  ∧ (length (processRequest_events log) ≤ 1)%nat
  ∧ (onRequestDone_events log ≠ [] → processRequest_events log ≠ []).
Proof.
  cbv zeta. unfold engine_phase. cbv zeta. rewrite L_tell_bind. cbn [fst].
  destruct (getEnveloped this (initialContext_of request params serverContext))
    as [enveloped|e].
  2:{ cbn. split_and!; try done; try apply prefix_nil; try lia. }
  rewrite (L_bind_normal (lift _) _ [] enveloped eq_refl). cbn [app fst].
  rewrite !L_tell_bind. cbn [fst].
  destruct (processRequest _) as [response|e].
  2:{ cbn. split_and!; try done; try apply prefix_nil; try lia. }
  rewrite (L_bind_normal (lift _) _ [] response eq_refl). cbn [app fst].
  destruct (run_onRequestDoneHooks_log dones response) as (Hp & G1 & G3 & G4 & G5).
  destruct (run_onRequestDoneHooks dones response) as [ld [r'|e]]; cbn [fst snd] in *.
  all: cbn [mbind L_mbind mret L_mret fst snd]; rewrite ?app_nil_r.
  all: unfold onRequest_events, onRequestDone_events, parse_events, getEnveloped_events,
         processRequest_events in *; cbn [omap list_omap].
  all: rewrite G1, G3, G4, G5; split_and!; try done; try (cbn; lia).
Qed.

Lemma after_parse_log this request serverContext dones pdl result :
  let log := (after_parse processRequest this request serverContext dones pdl result).1 in
  onRequest_events log = [] ∧ parse_events log = []
  ∧ (onRequestDone_events log).*1 `prefix_of` dones.*1
  ∧ (length (getEnveloped_events log) ≤ 1)%nat
  ∧ (length (processRequest_events log) ≤ 1)%nat
  ∧ (processRequest_events log ≠ [] → getEnveloped_events log ≠ [])
  ∧ (onRequestDone_events log ≠ [] → processRequest_events log ≠ []).
Proof.
  cbv zeta. unfold after_parse. destruct result as [params0|e].
  2:{ cbn. split_and!; try done; try apply prefix_nil; try lia. }
  rewrite (L_bind_normal (lift _) _ [] params0 eq_refl). cbn [app fst].
  destruct (quiet_onRequestParseDone_loop 0 pdl params0) as (A1 & A2 & A3 & A4 & A5).
  destruct (onRequestParseDone_loop 0 pdl params0) as [l3 [params|e]]; cbn [fst] in *.
  2:{ cbn [mbind L_mbind fst]. rewrite A1, A2, A3, A4, A5.
      split_and!; try done; try apply prefix_nil; try (cbn; lia). }
  rewrite (L_bind_normal _ _ l3 params eq_refl). cbn [fst].
  destruct (engine_phase_log this request serverContext dones params)
    as (E1 & E3 & Ep & E4 & E5 & Ed).
  unfold onRequest_events, onRequestDone_events, parse_events, getEnveloped_events,
    processRequest_events in *.
  rewrite !omap_app, A1, A2, A3, A4, A5, E1, E3. cbn [app].
  split_and!; try done; try lia.
  intros _ Hnil. rewrite Hnil in E4. done.
Qed.

Lemma parse_and_execute_log this request serverContext dones :
  let log := (parse_and_execute this request serverContext dones).1 in
  onRequest_events log = []
  ∧ (onRequestDone_events log).*1 `prefix_of` dones.*1
  ∧ (length (parse_events log) ≤ 1)%nat
  ∧ (length (getEnveloped_events log) ≤ 1)%nat
  ∧ (length (processRequest_events log) ≤ 1)%nat
  ∧ (processRequest_events log ≠ [] → getEnveloped_events log ≠ [])
  ∧ (getEnveloped_events log ≠ [] → parse_events log ≠ [])
  ∧ (onRequestDone_events log ≠ [] → processRequest_events log ≠ []).
Proof.
  cbv zeta. unfold parse_and_execute.
  destruct (quiet_onRequestParse_loop request serverContext 0 (onRequestParseHooks this)
              (None, λ _, Normal ∅) []) as (A1 & A2 & A3 & A4 & A5).
  destruct (onRequestParse_loop request serverContext 0 (onRequestParseHooks this)
              (None, λ _, Normal ∅) []) as [l2 [[[who parser] pdl]|e]];
    cbn [fst snd] in *.
  2:{ cbn [mbind L_mbind fst]. rewrite A1, A2, A3, A4, A5.
      split_and!; try done; try apply prefix_nil; try (cbn; lia). }
  rewrite (L_bind_normal _ _ l2 ((who, parser), pdl) eq_refl). cbn [fst snd].
  rewrite !L_tell_bind. cbn [fst].
  destruct (after_parse_log this request serverContext dones pdl (parser request))
    as (E1 & E3 & Ep & E4 & E5 & Eg & Ed).
  unfold onRequest_events, onRequestDone_events, parse_events, getEnveloped_events,
    processRequest_events in *.
  rewrite !omap_app. cbn [omap list_omap].
  rewrite A1, A2, A3, A4, A5, E1, E3. cbn [app length].
  split_and!; try done; lia.
Qed.

Lemma engine_phase_order this request serverContext dones params prefix :
  parse_events prefix ≠ [] →
  at_each (λ before, engine_order dones.*1 (prefix ++ before))
    (engine_phase processRequest this request serverContext dones params).1.
Proof.
  intros Hprefix. unfold engine_phase. cbv zeta. rewrite L_tell_bind. cbn [fst].
  apply at_each_cons; [cbn [engine_order]; by rewrite app_nil_r|].
  destruct (getEnveloped this (initialContext_of request params serverContext))
    as [enveloped|e].
  2:{ cbn. apply at_each_nil. }
  rewrite (L_bind_normal (lift _) _ [] enveloped eq_refl). cbn [app fst].
  rewrite !L_tell_bind. cbn [fst].
  apply at_each_cons; [done|]. apply at_each_cons.
  { cbn [engine_order]. unfold getEnveloped_events. rewrite omap_app.
    by intros [_ ?]%app_eq_nil. }
  destruct (processRequest _) as [response|e].
  2:{ cbn. apply at_each_nil. }
  rewrite (L_bind_normal (lift _) _ [] response eq_refl). cbn [app fst].
  rewrite (L_bind_mret_log (run_onRequestDoneHooks dones response)).
  eapply at_each_mono.
  - apply (run_onRequestDoneHooks_order dones response
      (prefix ++ [EvGetEnveloped (initialContext_of request params serverContext);
                  EvDebug "Processing GraphQL Parameters";
                  EvProcessRequest
                    (initialContext_of request params serverContext !! "query")
                    (initialContext_of request params serverContext !! "variables")
                    (initialContext_of request params serverContext !! "operationName")])).
    unfold processRequest_events. rewrite omap_app. by intros [_ ?]%app_eq_nil.
  - intros before ev after _. cbn beta. by rewrite <- app_assoc.
Qed.

Lemma after_parse_order this request serverContext dones pdl result prefix :
  parse_events prefix ≠ [] →
  at_each (λ before, engine_order dones.*1 (prefix ++ before))
    (after_parse processRequest this request serverContext dones pdl result).1.
Proof.
  intros Hprefix. unfold after_parse. destruct result as [params0|e].
  2:{ cbn. apply at_each_nil. }
  rewrite (L_bind_normal (lift _) _ [] params0 eq_refl). cbn [app fst].
  assert (Hlpd : Forall parse_phase_event (onRequestParseDone_loop 0 pdl params0).1)
    by (apply (logs_onRequestParseDone_loop parse_phase_event); [by intros []|done]).
  destruct (onRequestParseDone_loop 0 pdl params0) as [l3 [params|e]]; cbn [fst] in *.
  2:{ cbn [mbind L_mbind fst]. apply at_each_parse_phase; [done|]. by intros ? []. }
  rewrite (L_bind_normal _ _ l3 params eq_refl). cbn [fst].
  apply at_each_app.
  { apply at_each_parse_phase; [done|]. by intros ? []. }
  eapply at_each_mono.
  - apply (engine_phase_order this request serverContext dones params (prefix ++ l3)).
    unfold parse_events in *. rewrite omap_app. by intros [? _]%app_eq_nil.
  - intros before ev after _. cbn beta. by rewrite <- app_assoc.
Qed.

Lemma parse_and_execute_order this request serverContext dones :
  at_each (engine_order dones.*1) (parse_and_execute this request serverContext dones).1.
Proof.
  unfold parse_and_execute.
  assert (Hlp : Forall parse_phase_event
    (onRequestParse_loop request serverContext 0 (onRequestParseHooks this)
       (None, λ _, Normal ∅) []).1)
    by (apply (logs_onRequestParse_loop parse_phase_event); [by intros []|done]).
  destruct (onRequestParse_loop request serverContext 0 (onRequestParseHooks this)
              (None, λ _, Normal ∅) []) as [l2 [[[who parser] pdl]|e]];
    cbn [fst snd] in *.
  2:{ cbn [mbind L_mbind fst]. apply at_each_parse_phase; [done|]. by intros ? []. }
  rewrite (L_bind_normal _ _ l2 ((who, parser), pdl) eq_refl). cbn [fst snd].
  rewrite !L_tell_bind. cbn [fst].
  apply at_each_app.
  { apply at_each_parse_phase; [done|]. by intros ? []. }
  apply at_each_cons; [done|]. apply at_each_cons; [done|].
  eapply at_each_mono.
  - apply (after_parse_order this request serverContext dones pdl (parser request)
      (l2 ++ [EvDebug "Extracting GraphQL Parameters"; EvParse who (parser request)])).
    unfold parse_events. rewrite omap_app. by intros [_ ?]%app_eq_nil.
  - intros before ev after _. cbn beta. by rewrite <- app_assoc.
Qed.

(** The order of the events of every run of [handleRequest]. *)
Lemma handleRequest_order (this : YogaServer Enveloped) request serverContext :
  at_each (lifecycle_order (length (onRequestHooks this)))
    (handleRequest processRequest JSON_stringify this request serverContext).1.
Proof.
  rewrite handleRequest_log, handleRequest_try_phases.
  destruct (onRequest_loop_log request serverContext (onRequestHooks this) 0 [])
    as (n & sub & Hn & Hev & Hsub & _ & Hparse & Hg & Hpr & Hout).
  pose proof (onRequest_loop_order request serverContext (onRequestHooks this) 0 [])
    as Horder.
  assert (Hearly : ∀ l1,
    parse_events l1 = [] → getEnveloped_events l1 = [] → processRequest_events l1 = [] →
    at_each (λ before ev _,
               match ev with
               | EvOnRequestDone j _ =>
                   j ∈ ([] : list (nat * OnRequestDoneHook)).*1
                   ∨ j ∈ onRequest_events before
               | _ => True
               end) l1 →
    at_each (lifecycle_order (length (onRequestHooks this))) l1).
  { intros l1 H1 H2 H3 Hl1. eapply at_each_mono; [exact Hl1|].
    intros before ev after Hsplit.
    unfold parse_events, getEnveloped_events, processRequest_events in H1, H2, H3.
    rewrite Hsplit in H1, H2, H3.
    apply omap_split_nil in H1 as (Hb & H1 & Ha).
    apply omap_split_nil in H2 as (_ & H2 & _).
    apply omap_split_nil in H3 as (_ & H3 & _).
    destruct ev as [|j r| | | | | | |]; try done.
    intros [Hj|Hj]; [by apply elem_of_nil in Hj|].
    split_and!; [done|exact Ha|]. intros Hne. by destruct Hne. }
  destruct (onRequest_loop request serverContext 0 (onRequestHooks this) [])
    as [l1 [[[r|] dones]|e]]; cbn [fst snd] in *.
  - cbn [mbind L_mbind mret L_mret fst]. rewrite app_nil_r. by apply Hearly.
  - destruct Hout as (-> & Hnone & Hdones). cbn [fmap list_fmap app] in Hdones.
    rewrite (L_bind_normal _ _ l1 (None, dones) eq_refl). cbn [fst].
    destruct (parse_and_execute_log this request serverContext dones) as (E1 & _).
    apply at_each_app.
    + intros before ev after Hsplit.
      unfold parse_events, getEnveloped_events, processRequest_events,
        onRequestDone_events in Hparse, Hg, Hpr, Hnone.
      rewrite Hsplit in Hparse, Hg, Hpr, Hnone.
      apply omap_split_nil in Hparse as (_ & H1 & _).
      apply omap_split_nil in Hg as (_ & H2 & _).
      apply omap_split_nil in Hpr as (_ & H3 & _).
      apply omap_split_nil in Hnone as (_ & H4 & _).
      by destruct ev.
    + eapply at_each_mono; [apply parse_and_execute_order|].
      intros before ev after Hsplit.
      unfold onRequest_events in E1. rewrite Hsplit in E1.
      apply omap_split_nil in E1 as (Eb & _ & Ea).
      destruct ev as [|j r| |who result| | | | |]; cbn [engine_order lifecycle_order];
        try done.
      * intros (Hj & Hprocess & Hafter). split_and!; [|done|].
        -- unfold onRequest_events in *. rewrite omap_app, elem_of_app. left.
           rewrite Hev. eapply elem_of_sublist; [|exact Hsub]. by rewrite <- Hdones.
        -- intros _. unfold processRequest_events in *. rewrite omap_app.
           by intros [_ ?]%app_eq_nil.
      * intros _. unfold onRequest_events in *.
        by rewrite omap_app, Hev, Eb, app_nil_r.
      * intros Hne. unfold parse_events in *. rewrite omap_app.
        by intros [_ ?]%app_eq_nil.
      * intros Hne. unfold getEnveloped_events in *. rewrite omap_app.
        by intros [_ ?]%app_eq_nil.
  - cbn [mbind L_mbind fst]. by apply Hearly.
Qed.

(** X12. In every run of [handleRequest], whatever the hooks do: the
    [onRequest] hooks are invoked in registration order from the first and
    without a gap, each at most once; and wherever the log shows the
    parser invoked, all the [onRequest] hooks have been invoked before
    that point and none is invoked after it. *)
Theorem hooks_run_in_order (this : YogaServer Enveloped) request serverContext :
  let log := (handleRequest processRequest JSON_stringify this request serverContext).1 in
  (∃ n, (n ≤ length (onRequestHooks this))%nat ∧ onRequest_events log = seq 0 n)
  ∧ ∀ before who result after,
      log = before ++ EvParse who result :: after →
      onRequest_events before = seq 0 (length (onRequestHooks this))
      ∧ onRequest_events after = [].
Proof.
  cbv zeta. split.
  - rewrite handleRequest_log, handleRequest_try_phases.
    destruct (onRequest_loop_log request serverContext (onRequestHooks this) 0 [])
      as (n & sub & Hn & Hev & _ & _ & Hp & _ & _ & Hout).
    destruct (onRequest_loop request serverContext 0 (onRequestHooks this) [])
      as [l1 [[[r|] dones]|e]]; cbn [fst snd] in *.
    + exists n. cbn [mbind L_mbind mret L_mret fst]. by rewrite app_nil_r.
    + destruct Hout as (-> & _ & _). exists (length (onRequestHooks this)).
      rewrite (L_bind_normal _ _ l1 (None, dones) eq_refl). cbn [fst].
      destruct (parse_and_execute_log this request serverContext dones) as (E1 & _).
      split; [done|].
      unfold onRequest_events in *. by rewrite omap_app, Hev, E1, app_nil_r.
    + exists n. by cbn [mbind L_mbind fst].
  - intros before who result after Hsplit.
    exact (handleRequest_order this request serverContext _ _ _ Hsplit).
Qed.

(** X13. In every run of [handleRequest] the parser is invoked at most
    once, the engine is handed at most one context and [processRequest] is
    called at most once; wherever the log shows the context handed to the
    engine, the parser has been invoked before that point, and wherever it
    shows [processRequest] called, the context has been handed to the
    engine before that point. *)
Theorem engine_at_most_once (this : YogaServer Enveloped) request serverContext :
  let log := (handleRequest processRequest JSON_stringify this request serverContext).1 in
  (length (parse_events log) ≤ 1)%nat
  ∧ (length (getEnveloped_events log) ≤ 1)%nat
  ∧ (length (processRequest_events log) ≤ 1)%nat
  ∧ (∀ before initialContext after,
       log = before ++ EvGetEnveloped initialContext :: after →
       parse_events before ≠ [])
  ∧ (∀ before query variables operationName after,
       log = before ++ EvProcessRequest query variables operationName :: after →
       getEnveloped_events before ≠ []).
Proof.
  cbv zeta.
  assert (Hcount :
    let log := (handleRequest processRequest JSON_stringify this request
                  serverContext).1 in
    (length (parse_events log) ≤ 1)%nat
    ∧ (length (getEnveloped_events log) ≤ 1)%nat
    ∧ (length (processRequest_events log) ≤ 1)%nat).
  { cbv zeta. rewrite handleRequest_log, handleRequest_try_phases.
    destruct (onRequest_loop_log request serverContext (onRequestHooks this) 0 [])
      as (n & sub & _ & _ & _ & _ & Hp & Hg & Hpr & _).
    destruct (onRequest_loop request serverContext 0 (onRequestHooks this) [])
      as [l1 [[[r|] dones]|e]]; cbn [fst snd] in *.
    - cbn [mbind L_mbind mret L_mret fst]. rewrite app_nil_r, Hp, Hg, Hpr.
      split_and!; cbn; lia.
    - rewrite (L_bind_normal _ _ l1 (None, dones) eq_refl). cbn [fst].
      destruct (parse_and_execute_log this request serverContext dones)
        as (_ & _ & E3 & E4 & E5 & _).
      unfold parse_events, getEnveloped_events, processRequest_events in *.
      rewrite !omap_app, Hp, Hg, Hpr. cbn [app]. by split_and!.
    - cbn [mbind L_mbind fst]. rewrite Hp, Hg, Hpr. split_and!; cbn; lia. }
  destruct Hcount as (H1 & H2 & H3). split_and!; [done..| |].
  - intros before initialContext after Hsplit.
    exact (handleRequest_order this request serverContext _ _ _ Hsplit).
  - intros before query variables operationName after Hsplit.
    exact (handleRequest_order this request serverContext _ _ _ Hsplit).
Qed.

(** X14. In every run of [handleRequest], whatever the hooks do: the
    completion hooks that are invoked are invoked in the order of the
    [onRequest] hooks that returned them, each at most once; and wherever
    the log shows a completion hook invoked, the [onRequest] hook that
    returned it has been invoked before that point, no parser is invoked
    after it, and if the parser has been invoked before it then
    [processRequest] has been called before it too. *)
Theorem completion_hooks_in_order (this : YogaServer Enveloped) request serverContext :
  let log := (handleRequest processRequest JSON_stringify this request serverContext).1 in
  (onRequestDone_events log).*1 `sublist_of` onRequest_events log
  ∧ NoDup (onRequestDone_events log).*1
  ∧ ∀ before i response after,
      log = before ++ EvOnRequestDone i response :: after →
      i ∈ onRequest_events before
      ∧ parse_events after = []
      ∧ (parse_events before ≠ [] → processRequest_events before ≠ []).
Proof.
  cbv zeta. split_and!.
  3:{ intros before i response after Hsplit.
      exact (handleRequest_order this request serverContext _ _ _ Hsplit). }
  all: rewrite handleRequest_log, handleRequest_try_phases.
  all: destruct (onRequest_loop_log request serverContext (onRequestHooks this) 0 [])
    as (n & sub & _ & Hev & Hsub & Hprefix & Hparse & _ & Hprocess & Hout).
  all: cbn [fmap list_fmap app] in Hprefix.
  all: assert (Hgoal : ∀ log : list Event,
    onRequest_events log = seq 0 n →
    (onRequestDone_events log).*1 `prefix_of` sub →
    (onRequestDone_events log).*1 `sublist_of` onRequest_events log
    ∧ NoDup (onRequestDone_events log).*1);
    [intros log Hlog [k Hk];
     assert ((onRequestDone_events log).*1 `sublist_of` seq 0 n) as Hs
       by (etrans; [|exact Hsub]; rewrite Hk; by apply sublist_inserts_r);
     split; [by rewrite Hlog|]; eapply sublist_NoDup; [apply NoDup_seq|exact Hs]|].
  all: destruct (onRequest_loop request serverContext 0 (onRequestHooks this) [])
    as [l1 [[[r|] dones]|e]]; cbn [fst snd] in *.
  all: try (cbn [mbind L_mbind mret L_mret fst]; rewrite ?app_nil_r;
            by destruct (Hgoal l1 Hev Hprefix)).
  all: destruct Hout as (-> & Hnone & Hdones); cbn [fmap list_fmap app] in Hdones.
  all: rewrite (L_bind_normal _ _ l1 (None, dones) eq_refl); cbn [fst].
  all: destruct (parse_and_execute_log this request serverContext dones)
    as (E1 & Ep & _).
  all: destruct (Hgoal (l1 ++ (parse_and_execute this request serverContext dones).1));
    [unfold onRequest_events in *; by rewrite omap_app, Hev, E1, app_nil_r
    |unfold onRequestDone_events in *; rewrite omap_app, Hnone; cbn [app];
     by rewrite <- Hdones
    |done..].
Qed.

End Shape.

(** ** Failures in the early-intercept phase *)

(** The loop up to a hook that throws. *)
Lemma onRequest_loop_throws_log request serverContext pre h post results lh cell e :
  Forall2 (passes request serverContext) pre results →
  run endResponse_handle (h (onRequest_payload request serverContext)) None
    = (lh, cell, Thrown e) →
  ∀ i dones, ∃ l,
    onRequest_loop request serverContext i (pre ++ h :: post) dones = (l, Thrown e)
    ∧ onRequest_events l = seq i (S (length pre))
    ∧ onRequestDone_events l = [] ∧ parse_events l = []
    ∧ getEnveloped_events l = [] ∧ processRequest_events l = [].
Proof.
  intros Hpre Hh. induction Hpre as [|hook res0 pre results [l0 Hhook] _ IH];
    intros i dones.
  - hook_log Hh. exists (EvOnRequest i :: lh). split.
    + cbn [app onRequest_loop]. rewrite L_tell_bind.
      change (exec endResponse_handle _ None)
        with (exec endResponse_handle (h (onRequest_payload request serverContext)) None).
      by rewrite (exec_thrown _ _ _ _ _ _ Hh).
    + unfold onRequest_events, onRequestDone_events, parse_events, getEnveloped_events,
        processRequest_events in *. simpl. by repeat split; try f_equal.
  - hook_log Hhook.
    destruct (IH (S i) (match res0 ≫= onRequestDone with
                        | Some hook0 => dones ++ [(i, hook0)]
                        | None => dones
                        end)) as (l & Hloop & Hev & ? & ? & ? & ?).
    exists (EvOnRequest i :: l0 ++ l). split.
    + cbn [app onRequest_loop]. rewrite L_tell_bind.
      change (exec endResponse_handle _ None)
        with (exec endResponse_handle (hook (onRequest_payload request serverContext)) None).
      rewrite (L_bind_normal _ _ _ _ (exec_normal _ _ _ _ _ _ Hhook)).
      by rewrite Hloop.
    + unfold onRequest_events, onRequestDone_events, parse_events, getEnveloped_events,
        processRequest_events in *. simpl. rewrite !omap_app.
      repeat match goal with H : omap _ l0 = [] |- _ => rewrite H; clear H end.
      repeat match goal with H : omap _ l = [] |- _ => rewrite H; clear H end.
      simpl. by repeat split; try f_equal.
Qed.



Section Failures.
Context {Enveloped : Type}.
Variable processRequest : ProcessRequestArgs Enveloped → Outcome Response.
Variable JSON_stringify : JSValue → string.

(** X15. When an [onRequest] hook throws something other than [undefined]
    or [null], the hooks before it having passed, [handleRequest] answers
    with the fatal fallback: status 500 and a body listing the single
    error. This is so also when the hook had called [endResponse] before it
    threw: that response is dropped. No later hook is invoked, no
    completion hook is (those the earlier hooks returned included), nothing
    is parsed and the engine is not reached. *)
Theorem onRequest_hook_failure (this : YogaServer Enveloped) request serverContext
    pre h post results lh cell e :
  onRequestHooks this = pre ++ h :: post →
  Forall2 (passes request serverContext) pre results →
  run endResponse_handle (h (onRequest_payload request serverContext)) None
    = (lh, cell, Thrown e) →
  is_nullish e = false →
  let result := handleRequest processRequest JSON_stringify this request serverContext in
  result.2 = Normal (internal_server_error JSON_stringify e)
  ∧ status (internal_server_error JSON_stringify e) = 500
  ∧ body (internal_server_error JSON_stringify e)
    = BodyString (JSON_stringify
        (JObject ObjectProto [("errors", JArray [error_entry e])]))
  ∧ onRequest_events result.1 = seq 0 (S (length pre))
  ∧ onRequestDone_events result.1 = [] ∧ parse_events result.1 = []
  ∧ getEnveloped_events result.1 = [] ∧ processRequest_events result.1 = [].
Proof.
  intros Hhooks Hpre Hh Hnn result.
  destruct (onRequest_loop_throws_log request serverContext pre h post results lh cell e
              Hpre Hh 0 []) as (l & Hloop & Hlog).
  assert (Htry : handleRequest_try processRequest this request serverContext
                 = (l, Thrown e)).
  { unfold handleRequest_try. rewrite Hhooks. by rewrite (L_bind_thrown _ _ _ _ Hloop). }
  subst result.
  rewrite (handleRequest_failure processRequest JSON_stringify _ _ _ _ _ Htry Hnn).
  cbn [fst snd]. split_and!; try done; apply Hlog.
Qed.


End Failures.

(** ** From the parser to the response *)

(** The log of an early-intercept phase that produced no response. *)
Lemma intercept_passed_log request serverContext hooks l1 dones :
  onRequest_loop request serverContext 0 hooks [] = (l1, Normal (None, dones)) →
  onRequest_events l1 = seq 0 (length hooks)
  ∧ onRequestDone_events l1 = [] ∧ parse_events l1 = []
  ∧ getEnveloped_events l1 = [] ∧ processRequest_events l1 = [].
Proof.
  intros Hloop.
  destruct (onRequest_loop_log request serverContext hooks 0 [])
    as (n & sub & _ & Hev & _ & _ & Hp & Hg & Hpr & Hout).
  rewrite Hloop in Hev, Hp, Hg, Hpr, Hout. cbn [fst snd] in *.
  destruct Hout as (-> & Hnone & _). by split_and!.
Qed.





Section Engine.
Context {Enveloped : Type}.
Variable processRequest : ProcessRequestArgs Enveloped → Outcome Response.
Variable JSON_stringify : JSValue → string.

(** The run up to the engine, once the ParamBag is settled. *)
Lemma handleRequest_try_engine (this : YogaServer Enveloped) request serverContext
    l1 dones l2 who parser pdl params0 l3 params :
  onRequest_loop request serverContext 0 (onRequestHooks this) []
    = (l1, Normal (None, dones)) →
  onRequestParse_loop request serverContext 0 (onRequestParseHooks this)
    (None, λ _, Normal ∅) [] = (l2, Normal ((who, parser), pdl)) →
  parser request = Normal params0 →
  onRequestParseDone_loop 0 pdl params0 = (l3, Normal params) →
  let before := l1 ++ l2 ++ [EvDebug "Extracting GraphQL Parameters";
                             EvParse who (Normal params0)] ++ l3 in
  let engine := engine_phase processRequest this request serverContext dones params in
  handleRequest_try processRequest this request serverContext
  = (before ++ engine.1, engine.2)
  ∧ onRequestDone_events before = [] ∧ getEnveloped_events before = []
  ∧ processRequest_events before = [].
Proof.
  intros Hintercept Hselect Hparse Hdone before engine. split.
  - rewrite (handleRequest_try_selected processRequest _ _ _ _ _ _ _ _ _
               Hintercept Hselect).
    rewrite Hparse. unfold after_parse.
    rewrite (L_bind_normal (lift _) _ [] params0 eq_refl). cbn [app fst snd].
    rewrite (L_bind_normal _ _ _ _ Hdone). cbn [fst snd]. subst before engine.
    by rewrite <- !app_assoc.
  - destruct (intercept_passed_log _ _ _ _ _ Hintercept) as (_ & A2 & _ & A4 & A5).
    destruct (quiet_onRequestParse_loop request serverContext 0 (onRequestParseHooks this)
                (None, λ _, Normal ∅) []) as (_ & B2 & _ & B4 & B5).
    rewrite Hselect in B2, B4, B5. cbn [fst] in *.
    destruct (quiet_onRequestParseDone_loop 0 pdl params0) as (_ & C2 & _ & C4 & C5).
    rewrite Hdone in C2, C4, C5. cbn [fst] in *.
    subst before.
    unfold onRequestDone_events, getEnveloped_events, processRequest_events in *.
    rewrite !omap_app. cbn [omap list_omap].
    by rewrite A2, A4, A5, B2, B4, B5, C2, C4, C5.
Qed.


(** X19. When the engine fails, the hooks and the parser having passed:
    the context is refused by [getEnveloped], or [processRequest] throws,
    something other than [undefined] or [null]. [handleRequest] answers
    with the fatal fallback, status 500 and a body listing the single
    error, and no completion hook is invoked: none of them, that of the
    CORS plugin included, gets to write a header on that response. *)
Theorem engine_failure (this : YogaServer Enveloped) request serverContext
    l1 dones l2 who parser pdl params0 l3 params e :
  onRequest_loop request serverContext 0 (onRequestHooks this) []
    = (l1, Normal (None, dones)) →
  onRequestParse_loop request serverContext 0 (onRequestParseHooks this)
    (None, λ _, Normal ∅) [] = (l2, Normal ((who, parser), pdl)) →
  parser request = Normal params0 →
  onRequestParseDone_loop 0 pdl params0 = (l3, Normal params) →
  let initialContext := initialContext_of request params serverContext in
  (getEnveloped this initialContext = Thrown e
   ∨ ∃ enveloped,
       getEnveloped this initialContext = Normal enveloped
       ∧ processRequest {| pr_request := request;
                           pr_query := initialContext !! "query";
                           pr_variables := initialContext !! "variables";
                           pr_operationName := initialContext !! "operationName";
                           pr_enveloped := enveloped |} = Thrown e) →
  is_nullish e = false →
  let result := handleRequest processRequest JSON_stringify this request serverContext in
  result.2 = Normal (internal_server_error JSON_stringify e)
  ∧ status (internal_server_error JSON_stringify e) = 500
  ∧ body (internal_server_error JSON_stringify e)
    = BodyString (JSON_stringify
        (JObject ObjectProto [("errors", JArray [error_entry e])]))
  ∧ onRequestDone_events result.1 = [].
Proof.
  intros Hintercept Hselect Hparse Hdone initialContext Hfails Hnn result.
  destruct (handleRequest_try_engine this request serverContext _ _ _ _ _ _ _ _ _
              Hintercept Hselect Hparse Hdone) as (Htry & B2 & B4 & B5).
  cbv zeta in Htry.
  assert (Hengine : ∃ l,
    engine_phase processRequest this request serverContext dones params = (l, Thrown e)
    ∧ onRequestDone_events l = []).
  { unfold engine_phase. cbv zeta. fold initialContext. rewrite L_tell_bind.
    destruct Hfails as [Henveloped|(enveloped & Henveloped & Hprocess)].
    - rewrite Henveloped. by eexists.
    - rewrite Henveloped.
      rewrite (L_bind_normal (lift _) _ [] enveloped eq_refl). cbn [app fst snd].
      rewrite !L_tell_bind. cbn [fst snd]. rewrite Hprocess. by eexists. }
  destruct Hengine as (l & Hengine & Hquiet).
  rewrite Hengine in Htry. cbn [fst snd] in Htry.
  subst result.
  rewrite (handleRequest_failure processRequest JSON_stringify _ _ _ _ _ Htry Hnn).
  cbn [fst snd]. split_and!; try done.
  unfold onRequestDone_events in *. by rewrite omap_app, B2, Hquiet.
Qed.


End Engine.

(** *** The lifecycle on concrete servers *)

Module LifecycleExamples.
Import Doubles.

(** A hook that ends the response and then throws. *)
Definition faltering_hook : OnRequestHook := λ payload,
  endResponse payload (BodyString "early") None ;; Throw (new_Error "boom").

Definition faltering_server : YogaServer Enveloped :=
  new_server (bare_options [onRequest_plugin faltering_hook]).



(** An engine that is down. *)
Definition failing_processRequest (_ : ProcessRequestArgs Enveloped) : Outcome Response :=
  Thrown (new_Error "engine down").







End LifecycleExamples.

Lemma onRequest_hook_failure_witness :
  let result :=
    Doubles.handle LifecycleExamples.faltering_server Doubles.post_graphql None in
  result.2 = Normal (internal_server_error Doubles.JSON_stringify (new_Error "boom"))
  ∧ onRequest_events result.1 = [0; 1]%nat
  ∧ onRequestDone_events result.1 = [].
Proof.
  destruct (onRequest_hook_failure Doubles.processRequest Doubles.JSON_stringify
              LifecycleExamples.faltering_server Doubles.post_graphql None
              (take 1 (onRequestHooks LifecycleExamples.faltering_server))
              LifecycleExamples.faltering_hook [] [None] []
              (Some (Response_new (BodyString "early") None)) (new_Error "boom"))
    as (Hout & _ & _ & Hev & Hdone & _).
  - reflexivity.
  - repeat constructor; by eexists.
  - reflexivity.
  - reflexivity.
  - split; [exact Hout|]. split; [exact Hev|exact Hdone].
Defined.



Lemma engine_failure_witness :
  let result :=
    handleRequest LifecycleExamples.failing_processRequest Doubles.JSON_stringify
      C2Examples.plain_server Doubles.post_graphql None in
  result.2 = Normal (internal_server_error Doubles.JSON_stringify
                       (new_Error "engine down"))
  ∧ onRequestDone_events result.1 = [].
Proof.
  epose proof (engine_failure LifecycleExamples.failing_processRequest
                 Doubles.JSON_stringify C2Examples.plain_server Doubles.post_graphql None
                 [EvOnRequest 0; EvOnRequest 1; EvOnRequest 2]
                 [(0%nat, CORS_onRequestDone (corsOptionsFactory_of None)
                            Doubles.post_graphql None)]
                 _ (Some 1%nat) (λ _, Normal Doubles.greetings) []
                 Doubles.greetings [] Doubles.greetings (new_Error "engine down")) as H.
  destruct H as (Hout & _ & _ & Hdone).
  - reflexivity.
  - vm_compute. reflexivity.
  - reflexivity.
  - reflexivity.
  - right. exists tt. split; reflexivity.
  - reflexivity.
  - split; [exact Hout|exact Hdone].
Defined.


(** ** Strings: suffixes and the first occurrence *)

Module JSStringFacts.
Import JSString.

Lemma append_cons (x : ascii) (a b : string) : String x a +:+ b = String x (a +:+ b).
Proof. reflexivity. Qed.

Lemma append_assoc (a b c : string) : (a +:+ b) +:+ c = a +:+ (b +:+ c).
Proof. induction a as [|x a IH]; [done|]. rewrite !append_cons. by rewrite IH. Qed.

Lemma startsWith_app (p s : string) : startsWith (p +:+ s) p = true.
Proof.
  induction p as [|a p IH]; [by destruct s|].
  rewrite append_cons. cbn [startsWith]. by rewrite Ascii.eqb_refl.
Qed.

Lemma drop_app_length (p s : string) : drop (String.length p) (p +:+ s) = s.
Proof. induction p as [|a p IH]; [by destruct s|]. exact IH. Qed.

Lemma rev_app_append (a b acc : string) :
  String.rev_app (a +:+ b) acc = String.rev_app b (String.rev_app a acc).
Proof.
  revert acc. induction a as [|x a IH]; intros acc; [done|].
  rewrite append_cons. cbn [String.rev_app]. apply IH.
Qed.

Lemma rev_app_acc (p acc : string) : String.rev_app p acc = String.rev_app p "" +:+ acc.
Proof.
  revert acc. induction p as [|x p IH]; intros acc; [done|]. cbn [String.rev_app].
  rewrite (IH (String x acc)), (IH (String x "")). by rewrite append_assoc.
Qed.

(** A string ends with what it was extended by. *)
Lemma endsWith_app (a p : string) : endsWith (a +:+ p) p = true.
Proof.
  unfold endsWith, String.rev. rewrite rev_app_append, rev_app_acc.
  apply startsWith_app.
Qed.

(** No character of the string is [c]. *)
Fixpoint without (c : ascii) (s : string) : bool :=
  match s with
  | EmptyString => true
  | String a s' => negb (Ascii.eqb a c) && without c s'
  end.

Lemma split_head_app (c : ascii) (a b : string) :
  without c a = true → split_head c (a +:+ b) = a +:+ split_head c b.
Proof.
  induction a as [|x a IH]; [done|]. cbn [without]. intros [Hx Ha]%andb_prop.
  apply negb_true_iff in Hx. rewrite !append_cons. cbn [split_head].
  rewrite Hx. by rewrite IH.
Qed.

(** A pattern without [c] that starts a string in which a [c] follows [x]
    starts [x] already. *)
Lemma startsWith_before (c : ascii) (s x tail : string) :
  without c s = true →
  startsWith (x +:+ String c tail) s = true → startsWith x s = true.
Proof.
  revert x. induction s as [|a s IH]; intros x Hs H; [by destruct x|].
  cbn [without] in Hs. apply andb_prop in Hs as [Ha Hs]. apply negb_true_iff in Ha.
  destruct x as [|b x].
  - change ("" +:+ String c tail) with (String c tail) in H. cbn [startsWith] in H.
    by rewrite Ha in H.
  - rewrite append_cons in H. cbn [startsWith] in H |- *.
    destruct (Ascii.eqb a b); [by apply IH|done].
Qed.

(** Replacing a pattern [c s], where [c] does not occur in [s]: in
    [base c s rest] with no occurrence of the pattern in [base], the
    occurrence after [base] is the first, and the one that is replaced. *)
Lemma replace_first (c : ascii) (s rep base rest : string) :
  without c s = true →
  includes base (String c s) = false →
  replace (base +:+ String c s +:+ rest) (String c s) rep = base +:+ rep +:+ rest.
Proof.
  intros Hs. induction base as [|b base IH]; intros Hbase.
  - change ("" +:+ String c s +:+ rest) with (String c s +:+ rest).
    change ("" +:+ rep +:+ rest) with (rep +:+ rest).
    destruct (String c s +:+ rest) as [|y t] eqn:Heq; [done|].
    cbn [replace]. rewrite <- Heq, startsWith_app, drop_app_length. done.
  - cbn [includes] in Hbase. apply orb_false_elim in Hbase as [Hstart Hbase].
    rewrite !(append_cons b base).
    assert (Hnot : startsWith (String b (base +:+ String c s +:+ rest)) (String c s)
                   = false).
    { destruct (startsWith (String b (base +:+ String c s +:+ rest)) (String c s)) eqn:H;
        [|done].
      cbn [startsWith] in H, Hstart. destruct (Ascii.eqb c b); [|done].
      rewrite <- Hstart. symmetry. rewrite append_cons in H.
      by apply (startsWith_before c s base (s +:+ rest)). }
    cbn [replace]. rewrite Hnot. by rewrite IH.
Qed.

End JSStringFacts.

(** ** The health-check plugin: its outbound request *)

Section Prober.
Context {Enveloped : Type}.
Variable processRequest : ProcessRequestArgs Enveloped → Outcome Response.
Variable JSON_stringify : JSValue → string.
Variable JSON_parse : string → Outcome JSValue.
Variable Date_now : string.
Variable globalThis_fetch : FetchFn.
Variable options : option HealthCheckPluginOptions.

Local Abbreviation health := (useHealthCheck Date_now globalThis_fetch JSON_parse options).

(** The outbound requests of the plugin, whatever the request. *)
Lemma useHealthCheck_fetch_events req ctx :
  fetch_events (run_onRequest health req ctx).1.1
  = if JSString.endsWith (JSString.split_head "?" (req_url req)) "/readiness"
    then [JSString.replace (req_url req) "/readiness" "/health"] else [].
Proof.
  unfold run_onRequest, useHealthCheck. cbn [onRequest].
  unfold onRequest_payload. cbn [request serverContext].
  destruct (JSString.endsWith (JSString.split_head "?" (req_url req)) "/readiness")
    eqn:Hreadiness.
  - rewrite (endsWith_readiness_not_health _ Hreadiness).
    cbn [mbind Task_mbind Task_bind option_bind logger_debug await_fetch run].
    destruct (default globalThis_fetch (options ≫= hc_fetch) _) as [rr|e]; [|done].
    cbn [await mbind Task_mbind Task_bind].
    destruct (Response_json JSON_parse rr) as [json|e]; [|done].
    cbn [await mbind Task_mbind Task_bind].
    destruct (get_property "message" json) as [message|e]; [|done].
    cbn [await mbind Task_mbind Task_bind].
    by destruct (_ && _ && _).
  - by destruct (JSString.endsWith (JSString.split_head "?" (req_url req)) "/health").
Qed.

(** X21. The health-check plugin makes no outbound request for a request
    whose URL path does not end with [/readiness]; and when the path ends
    with neither [/health] nor [/readiness] it only watches: it ends no
    response, returns no completion hook and logs nothing. *)
Theorem prober_is_quiet req ctx :
  JSString.endsWith (JSString.split_head "?" (req_url req)) "/readiness" = false →
  fetch_events (run_onRequest health req ctx).1.1 = []
  ∧ (JSString.endsWith (JSString.split_head "?" (req_url req)) "/health" = false →
     run_onRequest health req ctx = ([], None, Normal None)).
Proof.
  intros Hreadiness. split.
  - by rewrite useHealthCheck_fetch_events, Hreadiness.
  - intros Hhealth. unfold run_onRequest, useHealthCheck. cbn [onRequest].
    unfold onRequest_payload. cbn [request serverContext].
    by rewrite Hhealth, Hreadiness.
Qed.

(** X22. The target of the readiness probe. For a request to
    [<base>/readiness<query>], where [base] holds neither a [?] nor the
    string [/readiness] and [query] is empty or starts with [?], the
    plugin makes one outbound request, to [<base>/health<query>]: the
    query string is carried over. It is the first occurrence of
    [/readiness] in the URL that is replaced, not the one that ends the
    path when there is an earlier one. *)
Theorem readiness_probe_target method base query hs ctx :
  JSStringFacts.without "?" base = true →
  JSString.includes base "/readiness" = false →
  query = "" ∨ JSString.startsWith query "?" = true →
  fetch_events
    (run_onRequest health (mkRequest method (base +:+ "/readiness" +:+ query) hs) ctx).1.1
  = [base +:+ "/health" +:+ query].
Proof.
  intros Hbase Hfirst Hquery. rewrite useHealthCheck_fetch_events. cbn [req_url].
  assert (Hpath : JSString.split_head "?" (base +:+ "/readiness" +:+ query)
                  = base +:+ "/readiness").
  { rewrite JSStringFacts.split_head_app by done.
    rewrite (JSStringFacts.split_head_app "?" "/readiness" query) by reflexivity.
    assert (JSString.split_head "?" query = "") as ->; [|done].
    destruct Hquery as [->|Hquery]; [done|].
    destruct query as [|q query]; [done|]. cbn [JSString.startsWith] in Hquery.
    destruct (Ascii.eqb "?" q) eqn:Hq; [|done].
    apply Ascii.eqb_eq in Hq as <-. reflexivity. }
  rewrite Hpath, JSStringFacts.endsWith_app.
  by rewrite (JSStringFacts.replace_first "/" "readiness" "/health" base query).
Qed.

(** X23. When the outbound request of the readiness probe fails (the
    injected [fetch] rejects with something other than [undefined] or
    [null]), the hooks before the health check having passed, the plugin
    ends no response: [handleRequest] answers with the fatal fallback of
    status 500 for what [fetch] rejected with, and no completion hook is
    invoked. *)
Theorem readiness_probe_unreachable (this : YogaServer Enveloped) req ctx
    pre post results e :
  JSString.endsWith (JSString.split_head "?" (req_url req)) "/readiness" = true →
  onRequestHooks this = pre ++ hook_of health :: post →
  Forall2 (passes req ctx) pre results →
  default globalThis_fetch (options ≫= hc_fetch)
    (JSString.replace (req_url req) "/readiness" "/health") = Thrown e →
  is_nullish e = false →
  let result := handleRequest processRequest JSON_stringify this req ctx in
  (run_onRequest health req ctx).1.2 = None
  ∧ result.2 = Normal (internal_server_error JSON_stringify e)
  ∧ status (internal_server_error JSON_stringify e) = 500
  ∧ onRequestDone_events result.1 = []
  ∧ parse_events result.1 = [] ∧ processRequest_events result.1 = [].
Proof.
  intros Hpath Hhooks Hpre Hfetch Hnn result.
  assert (Hrun : run endResponse_handle (hook_of health (onRequest_payload req ctx)) None
                 = ([EvDebug "Responding Readiness Check";
                     EvFetch (JSString.replace (req_url req) "/readiness" "/health")],
                    None, Thrown e)).
  { unfold hook_of, useHealthCheck. cbn [onRequest default from_option Datatypes.id].
    unfold onRequest_payload. cbn [request serverContext].
    rewrite (endsWith_readiness_not_health _ Hpath), Hpath.
    cbn [mbind Task_mbind Task_bind option_bind logger_debug await_fetch run].
    by rewrite Hfetch. }
  split.
  { assert (run_onRequest health req ctx
            = ([EvDebug "Responding Readiness Check";
                EvFetch (JSString.replace (req_url req) "/readiness" "/health")],
               None, Thrown e)) as -> by exact Hrun.
    done. }
  destruct (onRequest_loop_throws_log req ctx pre _ post results _ _ e Hpre Hrun 0 [])
    as (l & Hloop & _ & Hd & Hp & _ & Hpr).
  assert (Htry : handleRequest_try processRequest this req ctx = (l, Thrown e)).
  { unfold handleRequest_try. rewrite Hhooks. by rewrite (L_bind_thrown _ _ _ _ Hloop). }
  subst result.
  rewrite (handleRequest_failure processRequest JSON_stringify _ _ _ _ _ Htry Hnn).
  by cbn [fst snd].
Qed.

End Prober.

Lemma prober_is_quiet_witness :
  fetch_events
    (run_onRequest (useHealthCheck Doubles.Date_now Doubles.fetch Doubles.JSON_parse None)
       Doubles.post_graphql None).1.1 = []
  ∧ run_onRequest (useHealthCheck Doubles.Date_now Doubles.fetch Doubles.JSON_parse None)
      Doubles.post_graphql None = ([], None, Normal None).
Proof.
  destruct (prober_is_quiet Doubles.JSON_parse Doubles.Date_now Doubles.fetch None
              Doubles.post_graphql None) as [Hfetch Hwatch].
  - reflexivity.
  - split; [exact Hfetch|]. apply Hwatch. reflexivity.
Defined.

Lemma readiness_probe_target_witness :
  fetch_events
    (run_onRequest (useHealthCheck Doubles.Date_now Doubles.fetch Doubles.JSON_parse None)
       (mkRequest "GET" "http://localhost/readiness?verbose=1" ∅) None).1.1
  = ["http://localhost/health?verbose=1"].
Proof.
  apply (readiness_probe_target Doubles.JSON_parse Doubles.Date_now Doubles.fetch None
           "GET" "http://localhost" "?verbose=1" ∅ None).
  - reflexivity.
  - reflexivity.
  - right. reflexivity.
Defined.

Lemma readiness_probe_unreachable_witness :
  (Doubles.handle C2Examples.plain_server C8Examples.get_readiness None).2
  = Normal (internal_server_error Doubles.JSON_stringify (new_TypeError "fetch failed")).
Proof.
  eapply (readiness_probe_unreachable Doubles.processRequest Doubles.JSON_stringify
            Doubles.JSON_parse Doubles.Date_now Doubles.fetch
            (Some (health_options Doubles.fetch (Doubles.default_options [])))
            C2Examples.plain_server C8Examples.get_readiness None
            [hook_of (useCORS None);
             hook_of (useGraphiQL Doubles.shouldRenderGraphiQL Doubles.renderGraphiQL
                        (graphiql_config (Doubles.default_options [])))]
            []
            [Some {| onRequestDone :=
               Some (CORS_onRequestDone (corsOptionsFactory_of None)
                       C8Examples.get_readiness None) |}; None]
            (new_TypeError "fetch failed")).
  - reflexivity.
  - reflexivity.
  - repeat constructor; by eexists.
  - reflexivity.
  - reflexivity.
Defined.

(** ** The GraphiQL plugin: rendering *)

Section Rendering.
Variable shouldRenderGraphiQL : Request → bool.
Variable defaultGraphiQLRenderer : GraphiQLRenderer.
Variable config : GraphiQLPluginConfig.

(** The options GraphiQL is to be rendered with, if it is, given what the
    options factory returned: none for [false], the empty ones for [true],
    and the empty ones for a promise, which the plugin does not await: it
    is truthy, and spreading it adds no option. *)
Definition rendering_options (chosen : GraphiQLOptionsResult) : option JSRecord :=
  match chosen with
  | OptionsValue (GraphiQLBool false) => None
  | OptionsValue (GraphiQLBool true) => Some ∅
  | OptionsValue (GraphiQLOptions o) => Some o
  | OptionsPromise _ => Some ∅
  end.

(** X24. The GraphiQL plugin on a request that it does not answer with
    404 (no endpoint is configured, or the URL path ends with it) and that
    [shouldRenderGraphiQL] accepts. When the options are [false] (given
    so, or returned as such by the options factory) the plugin lets the
    request pass. Otherwise the renderer (that of the configuration, the
    default one without) is called with the options, and with the
    configured endpoint as [endpoint] unless the options have an
    [endpoint] of their own; the plugin ends the request with status 200,
    the header [Content-Type: text/html] and the body the renderer
    returns; and when the renderer throws, the plugin throws the same and
    ends nothing. A promise returned by the options factory is not
    awaited: GraphiQL is then rendered with no options but the endpoint,
    whatever the promise resolves to, [false] included. *)
Theorem graphiql_rendering req ctx :
  match gq_endpoint config with
  | Some endpoint =>
      JSString.endsWith (JSString.split_head "?" (req_url req)) endpoint = true
  | None => True
  end →
  shouldRenderGraphiQL req = true →
  let plugin := useGraphiQL shouldRenderGraphiQL defaultGraphiQLRenderer config in
  let renderer := default defaultGraphiQLRenderer (gq_render config) in
  let log := [EvDebug "Rendering GraphiQL"] in
  match rendering_options (graphiqlOptionsFactory_of (gq_options config) req ctx) with
  | None => run_onRequest plugin req ctx = (log, None, Normal None)
  | Some options =>
      ∃ argument,
        (∀ k, argument !! k =
              match options !! k with
              | Some v => Some v
              | None =>
                  if decide (k = "endpoint")
                  then Some (match gq_endpoint config with
                             | Some endpoint => JString endpoint
                             | None => JUndefined
                             end)
                  else None
              end)
        ∧ match renderer argument with
          | Normal graphiQLBody =>
              ∃ response,
                run_onRequest plugin req ctx = (log, Some response, Normal None)
                ∧ status response = 200
                ∧ body response = graphiQLBody
                ∧ Headers_get "Content-Type" (headers response) = Some "text/html"
          | Thrown e => run_onRequest plugin req ctx = (log, None, Thrown e)
          end
  end.
Proof.
  intros Hendpoint Hrender plugin renderer log. subst plugin log.
  assert (Hguard : match gq_endpoint config with
                   | Some endpoint =>
                       negb (JSString.endsWith (JSString.split_head "?" (req_url req))
                               endpoint)
                   | None => false
                   end = false).
  { destruct (gq_endpoint config); [by rewrite Hendpoint|done]. }
  assert (Hlookup : ∀ (options : JSRecord) k,
    (options ∪ {["endpoint" := match gq_endpoint config with
                               | Some e => JString e
                               | None => JUndefined
                               end]}) !! k
    = match options !! k with
      | Some v => Some v
      | None =>
          if decide (k = "endpoint")
          then Some (match gq_endpoint config with
                     | Some endpoint => JString endpoint
                     | None => JUndefined
                     end)
          else None
      end).
  { intros options k. destruct (options !! k) as [v|] eqn:Hk.
    - by apply lookup_union_Some_l.
    - rewrite lookup_union_r by done.
      destruct (decide (k = "endpoint")) as [->|Hne].
      + by rewrite lookup_singleton_eq.
      + by rewrite lookup_singleton_ne. }
  unfold run_onRequest, useGraphiQL. cbn [onRequest].
  unfold onRequest_payload. cbn [request serverContext].
  rewrite Hguard, Hrender.
  cbn [mbind Task_mbind Task_bind logger_debug run].
  destruct (graphiqlOptionsFactory_of (gq_options config) req ctx)
    as [[[]|options]|promised]; cbn [rendering_options].
  - eexists. split; [apply (Hlookup ∅)|]. fold renderer.
    destruct (renderer _) as [graphiQLBody|e]; [|done].
    eexists. split; [reflexivity|]. split_and!; [done..|].
    rewrite Response_new_headers. apply Headers_new_get.
    intros k [v Hk] _. destruct (decide (k = "Content-Type")) as [|Hne]; [done|].
    by rewrite lookup_singleton_ne in Hk.
  - done.
  - eexists. split; [apply (Hlookup options)|]. fold renderer.
    destruct (renderer _) as [graphiQLBody|e]; [|done].
    eexists. split; [reflexivity|]. split_and!; [done..|].
    rewrite Response_new_headers. apply Headers_new_get.
    intros k [v Hk] _. destruct (decide (k = "Content-Type")) as [|Hne]; [done|].
    by rewrite lookup_singleton_ne in Hk.
  - eexists. split; [apply (Hlookup ∅)|]. fold renderer.
    destruct (renderer _) as [graphiQLBody|e]; [|done].
    eexists. split; [reflexivity|]. split_and!; [done..|].
    rewrite Response_new_headers. apply Headers_new_get.
    intros k [v Hk] _. destruct (decide (k = "Content-Type")) as [|Hne]; [done|].
    by rewrite lookup_singleton_ne in Hk.
Qed.

End Rendering.

(** A browser that navigates to the server. *)
Definition browser_request : Request :=
  mkRequest "GET" "http://localhost/graphql" (Headers_new {["Accept" := "text/html"]}).

Lemma graphiql_rendering_witness :
  ∃ response,
    run_onRequest
      (useGraphiQL Doubles.shouldRenderGraphiQL Doubles.renderGraphiQL
         (graphiql_config endpoint_options))
      browser_request None
    = ([EvDebug "Rendering GraphiQL"], Some response, Normal None)
    ∧ status response = 200
    ∧ body response = BodyString "<html></html>"
    ∧ Headers_get "Content-Type" (headers response) = Some "text/html".
Proof.
  destruct (graphiql_rendering Doubles.shouldRenderGraphiQL Doubles.renderGraphiQL
              (graphiql_config endpoint_options) browser_request None)
    as (argument & _ & Hanswer).
  - reflexivity.
  - reflexivity.
  - exact Hanswer.
Defined.

(** [graphiql: async () => false]: the promise is not awaited, and GraphiQL
    is rendered. *)
Definition promising_config : GraphiQLPluginConfig :=
  {| gq_endpoint := Some "/graphql";
     gq_options := Some (GraphiQLFactory (λ _ _, OptionsPromise (GraphiQLBool false)));
     gq_render := None |}.

Lemma promise_of_false_renders :
  ∃ response,
    run_onRequest
      (useGraphiQL Doubles.shouldRenderGraphiQL Doubles.renderGraphiQL promising_config)
      browser_request None
    = ([EvDebug "Rendering GraphiQL"], Some response, Normal None)
    ∧ status response = 200
    ∧ body response = BodyString "<html></html>".
Proof. by eexists. Qed.

(** ** The hooks and the identity of a new server *)

Section Construction.
Context {Enveloped : Type}.
Variable envelop : list (option Plugin) → JSRecord → Outcome Enveloped.
Variable JSON_parse : string → Outcome JSValue.
Variables crossUndiciFetch_fetch globalThis_fetch : FetchFn.
Variable Date_now : string.
Variable shouldRenderGraphiQL : Request → bool.
Variable renderGraphiQL : GraphiQLRenderer.
Variables GETRequestParser POSTRequestParser POSTMultipartRequestParser : OnRequestParseHook.

Local Abbreviation yoga :=
  (server envelop JSON_parse crossUndiciFetch_fetch globalThis_fetch Date_now
     shouldRenderGraphiQL renderGraphiQL
     GETRequestParser POSTRequestParser POSTMultipartRequestParser).

(** X25. The hooks a new server collects. Its [onRequestParse] hooks are
    those of the GET parser, of the POST parser, of the multipart parser
    unless the [multipart] option is [false], and then those of the
    caller's plugins in their order: a parser a caller's plugin installs
    is installed after the built-in ones. Its [onRequest] hooks are those
    of the CORS plugin unless [cors] is [false], of the GraphiQL plugin
    unless [graphiql] is [false], of the health check, and then those of
    the caller's plugins in their order. The plugins of the engine
    contribute none. *)
Theorem server_hook_lists options :
  onRequestParseHooks (yoga options)
  = GETRequestParser :: POSTRequestParser
    :: (if not_false (opt_multipart options) then [POSTMultipartRequestParser] else [])
    ++ omap onRequestParse (default [] (opt_plugins options))
  ∧ onRequestHooks (yoga options)
    = (if cors_enabled options then [hook_of (useCORS (opt_cors options))] else [])
      ++ (if graphiql_enabled options
          then [hook_of (useGraphiQL shouldRenderGraphiQL renderGraphiQL
                           (graphiql_config options))]
          else [])
      ++ hook_of (health_plugin JSON_parse crossUndiciFetch_fetch globalThis_fetch
                    Date_now options)
         :: omap onRequest (default [] (opt_plugins options)).
Proof.
  split; [|apply onRequestHooks_server].
  unfold server, new_YogaServer. cbn [onRequestParseHooks].
  rewrite !omap_app, omap_Some_fmap.
  assert (Henv : ∀ c, enableIf c envelopPlugin ≫= onRequestParse = None) by (by intros []).
  cbn [omap list_omap]. rewrite !Henv.
  cbn [mbind option_bind parserPlugin onRequestParse].
  destruct (not_false (opt_multipart options)),
    (negb (is_false cors_bool (opt_cors options))),
    (negb (is_false graphiql_bool (opt_graphiql options))); cbn;
    by rewrite app_nil_r.
Qed.

(** X26. The identity a server answers its liveness endpoint with, and
    compares the round trip of its readiness probe with, is its [id]
    option, [yoga] when there is none, and the time of its creation when
    the option is the empty string. *)
Theorem identity_token_cases options :
  identity_token crossUndiciFetch_fetch Date_now options
  = match opt_id options with
    | None => "yoga"
    | Some id => if JSString.truthy id then id else Date_now
    end.
Proof.
  unfold identity_token, healthCheck_id, health_options. cbn [mbind option_bind hc_id].
  by destruct (opt_id options).
Qed.

End Construction.

(** ** The readiness probe of a server that reaches itself *)

Section Loopback.
Context {Enveloped : Type}.
Variable envelop : list (option Plugin) → JSRecord → Outcome Enveloped.
Variable processRequest : ProcessRequestArgs Enveloped → Outcome Response.
Variable JSON_stringify : JSValue → string.
Variable JSON_parse : string → Outcome JSValue.
Variables crossUndiciFetch_fetch globalThis_fetch : FetchFn.
Variable Date_now : string.
Variable shouldRenderGraphiQL : Request → bool.
Variable renderGraphiQL : GraphiQLRenderer.
Variables GETRequestParser POSTRequestParser POSTMultipartRequestParser : OnRequestParseHook.

Local Abbreviation yoga :=
  (server envelop JSON_parse crossUndiciFetch_fetch globalThis_fetch Date_now
     shouldRenderGraphiQL renderGraphiQL
     GETRequestParser POSTRequestParser POSTMultipartRequestParser).




End Loopback.



(** ** The CORS headers on the response of the engine *)

(** The completion hook of the CORS plugin, run by the lifecycle. *)
Lemma run_CORS_onRequestDone_headers factory req ctx i response :
  let computed := getCORSResponseHeaders req (factory req ctx) in
  ∃ response',
    run_onRequestDoneHooks [(i, CORS_onRequestDone factory req ctx)] response
    = ([EvOnRequestDone i response], Normal response')
    ∧ status response' = status response
    ∧ statusText response' = statusText response
    ∧ body response' = body response
    ∧ (∀ name value, computed !! name = Some value →
         Headers_get name (headers response') = Some value)
    ∧ (∀ name, (∀ k, is_Some (computed !! k) →
                  JSString.toLowerCase k ≠ JSString.toLowerCase name) →
         Headers_get name (headers response') = Headers_get name (headers response)).
Proof.
  intros computed.
  destruct (run_stamp_headers (map_to_list computed) response)
    as (r' & Hrun & Hst & Hbody & Hget).
  exists r'. split_and!; try done.
  - cbn [run_onRequestDoneHooks]. rewrite L_tell_bind.
    unfold CORS_onRequestDone. cbv zeta. fold computed.
    by rewrite (L_bind_normal _ _ _ _ (exec_normal _ _ _ _ _ _ Hrun)).
  - pose proof (run_written (stamp_headers (map_to_list computed)) response) as Hw.
    rewrite Hrun in Hw. by apply written_status_body in Hw as (_ & _ & ?).
  - intros name value Hname.
    pose proof (run_stamp_headers_get (map_to_list computed) response name value
                  (getCORSResponseHeaders_NoDup _ _)) as Hset.
    rewrite Hrun in Hset. apply Hset. by apply elem_of_map_to_list.
  - intros name Hname. apply Hget. intros k v Hkv. apply Hname.
    apply elem_of_map_to_list in Hkv. by eexists.
Qed.

Section Stamped.
Context {Enveloped : Type}.
Variable processRequest : ProcessRequestArgs Enveloped → Outcome Response.
Variable JSON_stringify : JSValue → string.

(** X28. The CORS headers on the answer of the engine. When a request
    passes the early-intercept phase with the completion hook of the CORS
    plugin as the only one, and the parser, the parse-done hooks and the
    engine return, [handleRequest] returns the response of
    [processRequest] with its status, status text and body, with every
    header the CORS calculator returns for the request written over the
    header of that name, and with its other headers as they were. *)
Theorem cors_on_engine_response (this : YogaServer Enveloped) req ctx factory i
    l1 l2 who parser pdl params0 l3 params enveloped response :
  onRequest_loop req ctx 0 (onRequestHooks this) []
    = (l1, Normal (None, [(i, CORS_onRequestDone factory req ctx)])) →
  onRequestParse_loop req ctx 0 (onRequestParseHooks this)
    (None, λ _, Normal ∅) [] = (l2, Normal ((who, parser), pdl)) →
  parser req = Normal params0 →
  onRequestParseDone_loop 0 pdl params0 = (l3, Normal params) →
  let initialContext := initialContext_of req params ctx in
  getEnveloped this initialContext = Normal enveloped →
  processRequest {| pr_request := req;
                    pr_query := initialContext !! "query";
                    pr_variables := initialContext !! "variables";
                    pr_operationName := initialContext !! "operationName";
                    pr_enveloped := enveloped |} = Normal response →
  let computed := getCORSResponseHeaders req (factory req ctx) in
  ∃ response',
    (handleRequest processRequest JSON_stringify this req ctx).2 = Normal response'
    ∧ status response' = status response
    ∧ statusText response' = statusText response
    ∧ body response' = body response
    ∧ (∀ name value, computed !! name = Some value →
         Headers_get name (headers response') = Some value)
    ∧ (∀ name, (∀ k, is_Some (computed !! k) →
                  JSString.toLowerCase k ≠ JSString.toLowerCase name) →
         Headers_get name (headers response') = Headers_get name (headers response)).
Proof.
  intros Hintercept Hselect Hparse Hdone initialContext Henveloped Hprocess computed.
  destruct (handleRequest_try_engine processRequest this req ctx _ _ _ _ _ _ _ _ _
              Hintercept Hselect Hparse Hdone) as (Htry & _).
  cbv zeta in Htry.
  destruct (run_CORS_onRequestDone_headers factory req ctx i response)
    as (r' & Hrun & Hfacts).
  assert (Hengine :
    (engine_phase processRequest this req ctx
       [(i, CORS_onRequestDone factory req ctx)] params).2 = Normal r').
  { unfold engine_phase. cbv zeta. fold initialContext. rewrite L_tell_bind.
    rewrite Henveloped.
    rewrite (L_bind_normal (lift _) _ [] enveloped eq_refl). cbn [app fst snd].
    rewrite !L_tell_bind. cbn [fst snd]. rewrite Hprocess.
    rewrite (L_bind_normal (lift _) _ [] response eq_refl). cbn [app fst snd].
    by rewrite (L_bind_normal _ _ _ _ Hrun). }
  rewrite Hengine in Htry.
  apply (handleRequest_normal processRequest JSON_stringify) in Htry.
  exists r'. rewrite Htry. by split.
Qed.

End Stamped.

Lemma cors_on_engine_response_witness :
  ∃ response',
    (Doubles.handle C2Examples.plain_server Doubles.post_graphql None).2 = Normal response'
    ∧ status response' = 200
    ∧ Headers_get "Access-Control-Allow-Origin" (headers response') = Some "*"
    ∧ Headers_get "Server" (headers response') = Some "GraphQL Yoga".
Proof.
  epose proof (cors_on_engine_response Doubles.processRequest Doubles.JSON_stringify
                 C2Examples.plain_server Doubles.post_graphql None
                 (corsOptionsFactory_of None) 0%nat
                 [EvOnRequest 0; EvOnRequest 1; EvOnRequest 2]
                 _ (Some 1%nat) (λ _, Normal Doubles.greetings) []
                 Doubles.greetings [] Doubles.greetings tt _) as H.
  destruct H as (response' & Hout & Hstatus & _ & _ & Hset & _).
  - reflexivity.
  - vm_compute. reflexivity.
  - reflexivity.
  - reflexivity.
  - reflexivity.
  - reflexivity.
  - exists response'. split; [exact Hout|]. split; [exact Hstatus|].
    split; apply Hset; reflexivity.
Defined.
